(** * learn_image_embeddings.py: a shallow embedding and its properties

    The script trains a network that maps images onto precomputed class
    embeddings.  It is glue code over Keras: what it decides is which
    framework calls are made, in which order and with which arguments.
    The embedding below therefore keeps the framework symbolic: a Keras
    model, tensor or callback is the term that denotes the call which
    produced it, every framework call is recorded in a log, and the
    outside world (files, the data set, the layers of a network, calls
    that fail) is a parameter [World] of the run.

    Python values are modelled as the script uses them: [int] as [Z],
    [float] as binary64 ([PrimFloat.float]), [str] as [string], [None]-able
    arguments as [option], dictionaries with computed keys as [gmap]. *)

From Stdlib Require Import ZArith List String Floats DecimalString Lia.
From stdpp Require Import gmap strings list.

Open Scope Z_scope.

(** ** Exceptions and results *)

(** The exceptions that occur in the script or may come out of a library
    call.  [KeyboardInterrupt] and [SystemExit] derive from [BaseException]
    only, all others from [Exception]. *)
Inductive exn : Type :=
| ValueError
| IndexError
| KeyError
| TypeError
| NameError
| AttributeError
| ZeroDivisionError
| OverflowError
| OSError
| KeyboardInterrupt
| SystemExit
| OtherException (name : string).

(** [isinstance(e, Exception)]: what [except Exception] catches. *)
Definition is_Exception (e : exn) : bool :=
  match e with
  | KeyboardInterrupt | SystemExit => false
  | _ => true
  end.

Inductive Res (A : Type) : Type :=
| Normal (a : A)
| Raise (e : exn).
Arguments Normal {A} a.
Arguments Raise {A} e.

Definition res_bind {A B} (r : Res A) (k : A -> Res B) : Res B :=
  match r with
  | Normal a => k a
  | Raise e => Raise e
  end.

(** Evaluate [f] on every element from left to right; the first exception
    wins. *)
Fixpoint res_map {A B} (f : A -> Res B) (l : list A) : Res (list B) :=
  match l with
  | [] => Normal []
  | x :: l' =>
      res_bind (f x) (fun b => res_bind (res_map f l') (fun bs => Normal (b :: bs)))
  end.

(** ** Python values *)

(** [if s:] for an optional string argument: [None] and [''] are false.
    The result is the string when the test succeeds. *)
Definition if_set (s : option string) : option string :=
  match s with
  | Some p => if String.eqb p "" then None else Some p
  | None => None
  end.

(** [x > 0] for a float [x] (false for NaN). *)
Definition float_positive (x : float) : bool := PrimFloat.ltb 0%float x.

(** [s.endswith(suffix)] *)
Definition endswith (s suffix : string) : bool :=
  let n := String.length s in
  let k := String.length suffix in
  (k <=? n)%nat && String.eqb (String.substring (n - k) k s) suffix.

(** [l[i]] for a Python sequence: negative indices count from the end, an
    index outside [-len, len) raises [IndexError]. *)
Definition py_index {A} (l : list A) (i : Z) : Res A :=
  let n := Z.of_nat (length l) in
  let j := if i <? 0 then i + n else i in
  if (0 <=? j) && (j <? n) then
    match l !! Z.to_nat j with
    | Some x => Normal x
    | None => Raise IndexError
    end
  else Raise IndexError.

(** A two-dimensional numpy array: [shape = (length nd_rows, nd_cols)]. *)
Record ndarray : Type := { nd_cols : nat; nd_rows : list (list float) }.

(** The values found in the embedding pickle: a numpy array of two
    dimensions, of one dimension ([shape = (length v,)]) or of none
    ([shape = ()]), a list of labels, or [None].  An array of more than
    two dimensions is a [VArray] as far as the script looks at it: its
    [shape[1]] is [nd_cols], and a row holds the entries of one
    [embedding[i]]. *)
Inductive PyVal : Type :=
| VArray (a : ndarray)
| VVector (v : list float)
| VScalar (x : float)
| VList (l : list string)
| VNone.

(** The object [pickle.load] returns: a plain [dict], a bare numpy array,
    or an object that has no subscript by a string at all ([None], a
    number, a list, a tuple, a string). *)
Inductive PyObj : Type :=
| PDict (d : gmap string PyVal)
| PArray
| PNotDict.

(** [obj[key]] for a string [key]: a [dict] without the key raises
    [KeyError]; a string is no valid index of a numpy array, which raises
    [IndexError]; the other objects raise [TypeError]. *)
Definition py_getitem (obj : PyObj) (key : string) : Res PyVal :=
  match obj with
  | PDict d =>
      match d !! key with
      | Some v => Normal v
      | None => Raise KeyError
      end
  | PArray => Raise IndexError
  | PNotDict => Raise TypeError
  end.

(** [embedding.shape[1]]: the shape of an array with fewer than two
    dimensions has no entry 1, and a list or [None] has no [shape]. *)
Definition shape1 (embedding : PyVal) : Res nat :=
  match embedding with
  | VArray a => Normal (nd_cols a)
  | VVector _ => Raise IndexError
  | VScalar _ => Raise IndexError
  | VList _ => Raise AttributeError
  | VNone => Raise AttributeError
  end.

(** [embedding[y]] with an integer array [y]: the rows of a matrix, or the
    entries of a one-dimensional array, selected by the entries of [y].
    An array without dimensions cannot be indexed, and a list or [None]
    not by an array. *)
Definition take_rows (embedding : PyVal) (y : list Z) : Res PyVal :=
  match embedding with
  | VArray a =>
      res_bind (res_map (py_index (nd_rows a)) y)
               (fun rs =>
                  Normal (VArray {| nd_cols := nd_cols a; nd_rows := rs |}))
  | VVector v =>
      res_bind (res_map (py_index v) y) (fun xs => Normal (VVector xs))
  | VScalar _ => Raise IndexError
  | VList _ => Raise TypeError
  | VNone => Raise TypeError
  end.

(** ** [transform_inputs] *)

(** The second component of the pair [transform_inputs] returns: an array,
    or a two-element list of arrays. *)
Inductive Targets : Type :=
| EmbeddingTarget (emb : PyVal)
| EmbeddingAndClassTargets (emb : PyVal) (cls : ndarray).

Definition regression_target (t : Targets) : PyVal :=
  match t with
  | EmbeddingTarget emb => emb
  | EmbeddingAndClassTargets emb _ => emb
  end.

Section TransformInputs.

(** [keras.utils.to_categorical], a function of the framework. *)
Variable to_categorical : list Z -> Z -> Res ndarray.

Definition transform_inputs {XT : Type} (X : XT) (y : list Z)
    (embedding : PyVal) (num_classes : option Z) : Res (XT * Targets) :=
  match num_classes with
  | None =>
      res_bind (take_rows embedding y) (fun e => Normal (X, EmbeddingTarget e))
  | Some n =>
      res_bind (take_rows embedding y) (fun e =>
      res_bind (to_categorical y n) (fun c =>
      Normal (X, EmbeddingAndClassTargets e c)))
  end.

End TransformInputs.

(** ** The framework, symbolically *)

(** Functions of the sibling module [utils] that are passed around as
    values. *)
Inductive UtilsFn : Type :=
| l2norm.

(** [keras.regularizers.l2(c)] *)
Inductive Regularizer : Type :=
| L2 (c : float).

(** The Keras layers the script instantiates. *)
Inductive KLayer : Type :=
| Activation (fn : string) (name : option string)
| BatchNormalization
| Dense (units : Z) (activation : string) (kernel_regularizer : Regularizer)
        (name : string)
| Lambda (fn : UtilsFn) (name : string).

(** Models and tensors are the terms that denote how they were obtained:
    [BuiltNetwork d a] is the result of [utils.build_network(d, a)],
    [LoadedModel p a] of [keras.models.load_model(p, custom_objects =
    utils.get_custom_objects(a), compile = False)], [KerasModel m outs] of
    [keras.models.Model(m.inputs, outs)] and [MultiGpuModel m g c] of
    [keras.utils.multi_gpu_model(m, gpus = g, cpu_merge = c)], where
    [c = None] when the argument is not passed.  [OutputOf m] is [m.output],
    [LayerOutput m i] is [m.layers[i].output] and [Call l x] is [l(x)]. *)
Inductive Model : Type :=
| BuiltNetwork (dim : nat) (arch : string)
| LoadedModel (path : string) (arch : string)
| KerasModel (inputs_of : Model) (outputs : list Tensor)
| MultiGpuModel (m : Model) (gpus : Z) (cpu_merge : option bool)
with Tensor : Type :=
| OutputOf (m : Model)
| LayerOutput (m : Model) (i : nat)
| Call (l : KLayer) (x : Tensor).

(** The device on which TensorFlow places the operations being created. *)
Inductive Device : Type :=
| DefaultDevice
| NamedDevice (name : string).

(** Loss functions: the two of [utils] and those Keras knows by name. *)
Inductive Loss : Type :=
| inv_correlation
| squared_distance
| NamedLoss (name : string).

(** Metrics: Keras metrics by name and [utils.nn_accuracy(embedding,
    dot_prod_sim = b)]. *)
Inductive Metric : Type :=
| NamedMetric (name : string)
| nn_accuracy (embedding : PyVal) (dot_prod_sim : bool).

(** [keras.optimizers.SGD(lr, decay, momentum, nesterov, clipnorm)];
    [sgd_decay = None] when [decay] is not passed. *)
Record Optimizer : Type := SGD {
  sgd_lr_ : float;
  sgd_decay : option float;
  sgd_momentum : float;
  sgd_nesterov : bool;
  sgd_clipnorm : float
}.

(** The [loss], [loss_weights] and [metrics] arguments of [compile]: one
    loss and a list of metrics, or dictionaries keyed by output name. *)
Inductive CompileSpec : Type :=
| SingleOutput (loss : Loss) (metrics : list Metric)
| PerOutput (loss : gmap string Loss) (loss_weights : gmap string float)
            (metrics : gmap string Metric).

(** The object [get_data_generator] returns, by the attributes the script
    reads. *)
Record DataGenerator : Type := {
  dg_num_classes : Z;
  dg_num_train : Z;
  dg_num_test : Z;
  dg_labels_test : list Z
}.

(** [batch_transform_kwargs], a dictionary with the two fixed keys
    ['embedding'] and ['num_classes']. *)
Record TransformKwargs : Type := {
  kw_embedding : PyVal;
  kw_num_classes : option Z
}.

(** Batch sources.  [train_sequence] and [test_sequence] are always called
    with [batch_transform = transform_inputs] and the keyword arguments
    [kw]; [test_sequence] receives [args.val_batch_size] as it is, an
    integer or [None]; [FlowTest dg b s] is [dg.flow_test(b, s)]. *)
Inductive Sequence : Type :=
| TrainSequence (dg : DataGenerator) (batch_size : Z) (kw : TransformKwargs)
| TestSequence (dg : DataGenerator) (batch_size : option Z)
               (kw : TransformKwargs)
| FlowTest (dg : DataGenerator) (batch_size : Z) (shuffle : bool).

Inductive Callback : Type :=
| ScheduleCallback (id : nat)
| TensorBoard (log_dir : string) (write_graph : bool)
| ModelCheckpoint (path : string)
| TemplateModelCheckpoint (m : Model) (path : string).

(** Arguments of [fit_generator]; [None] for those not passed. *)
Record FitArgs : Type := {
  fit_train : Sequence;
  fit_validation_data : Sequence;
  fit_epochs : Z;
  fit_initial_epoch : option Z;
  fit_callbacks : option (list Callback);
  fit_verbose : bool;
  fit_max_queue_size : Z;
  fit_workers : Z;
  fit_use_multiprocessing : bool
}.

(** What the script prints. *)
Inductive Message : Type :=
| MsgResuming (path : string)
| MsgLoadingWeights (path : string)
| MsgPretraining
| MsgFullTraining
| MsgEvaluation
| MsgAverageAccuracy
| MsgWeightsError (e : exn)
| MsgModelError (e : exn).

(** The calls the script makes into the interpreter's libraries, the
    framework and [utils], with their arguments.  Graph-building calls carry
    the device in force when they are made. *)
Inductive Event : Type :=
| EvSetSession
| EvOpen (path mode : string)
| EvClose (path : string)
| EvPickleLoad (path : string)
| EvGetDataGenerator (dataset data_root : string) (classes : PyVal)
| EvPrint (msg : Message)
| EvGetCustomObjects (arch : string)
| EvLoadModel (dev : Device) (path arch : string)
| EvBuildNetwork (dev : Device) (dim : nat) (arch : string)
| EvCallLayer (dev : Device) (l : KLayer) (x : Tensor)
| EvNewModel (dev : Device) (inputs_of : Model) (outputs : list Tensor)
| EvMultiGpuModel (dev : Device) (m : Model) (gpus : Z) (cpu_merge : option bool)
| EvSummary (m : Model)
| EvLoadWeights (m : Model) (path : string)
| EvSetTrainable (m : Model) (layer : nat) (trainable : bool)
| EvCompile (m : Model) (optimizer : Optimizer) (spec : CompileSpec)
| EvFitGenerator (m : Model) (a : FitArgs)
| EvGetLrSchedule (name : string) (num_train batch_size : Z)
| EvRmtree (path : string)
| EvEvaluateGenerator (m : Model) (s : Sequence)
| EvPredictGenerator (m : Model) (s : Sequence) (steps : option Z)
| EvAverageAccuracy (labels_test : list Z)
| EvSaveWeights (m : Model) (path : string)
| EvSave (m : Model) (path : string)
| EvPickleDump (path : string) (first_output_only : bool).

(** ** Command line *)

(** The namespace [parse_args] returns.  [sgd_lr] is declared by
    [utils.add_lr_schedule_arguments]. *)
Record Args : Type := {
  dataset : string;
  data_root : string;
  embedding : string;
  architecture : string;
  loss : string;
  cls_weight : float;
  cls_base : option string;
  lr_schedule : string;
  clipgrad : float;
  max_decay : float;
  nesterov : bool;
  epochs : option Z;
  batch_size : Z;
  val_batch_size : option Z;
  snapshot : option string;
  initial_epoch : Z;
  finetune : option string;
  finetune_init : Z;
  gpus : Z;
  read_workers : Z;
  queue_size : Z;
  gpu_merge : bool;
  model_dump : option string;
  weight_dump : option string;
  feature_dump : option string;
  log_dir : option string;
  no_progress : bool;
  sgd_lr : float
}.

(** [args.val_batch_size = v] *)
Definition set_val_batch_size (args : Args) (v : Z) : Args :=
  {| dataset := dataset args; data_root := data_root args;
     embedding := embedding args; architecture := architecture args;
     loss := loss args; cls_weight := cls_weight args;
     cls_base := cls_base args; lr_schedule := lr_schedule args;
     clipgrad := clipgrad args; max_decay := max_decay args;
     nesterov := nesterov args; epochs := epochs args;
     batch_size := batch_size args; val_batch_size := Some v;
     snapshot := snapshot args; initial_epoch := initial_epoch args;
     finetune := finetune args; finetune_init := finetune_init args;
     gpus := gpus args; read_workers := read_workers args;
     queue_size := queue_size args; gpu_merge := gpu_merge args;
     model_dump := model_dump args; weight_dump := weight_dump args;
     feature_dump := feature_dump args; log_dir := log_dir args;
     no_progress := no_progress args; sgd_lr := sgd_lr args |}.

(** ** The world of a run *)

(** What the script cannot decide: whether a call fails (given the calls
    made so far), the file system, the content of the embedding pickle, the
    data set, the layers of a model, Python's [int] on strings ([None] for
    [ValueError]) and the learning rate schedules of [utils]. *)
Record World : Type := {
  raises : list Event -> Event -> option exn;
  path_exists : string -> bool;
  path_isdir : string -> bool;
  pickle_content : string -> PyObj;
  data_generator_of : string -> string -> PyVal -> DataGenerator;
  layer_names : Model -> list string;
  py_int : string -> option Z;
  lr_schedule_of : string -> Z -> Z -> Args -> list Callback * Z
}.

(** ** Arithmetic of the decay *)

(** The float literals of the script, as the binary64 values Python reads
    them to. *)
Definition f_0_9 : float := 0x1.ccccccccccccdp-1%float.
Definition f_5e_4 : float := 0x1.0624dd2f1a9fcp-11%float.

(** [a // b] on integers *)
Definition floor_div (a b : Z) : Res Z :=
  if b =? 0 then Raise ZeroDivisionError else Normal (a / b).

(** [float(n)]: the nearest binary64 value, ties to even; an integer that
    rounds beyond the largest finite float raises [OverflowError]. *)
Definition float_of_int (n : Z) : Res float :=
  match binary_normalize prec emax n 0 false with
  | S754_infinity _ => Raise OverflowError
  | f => Normal (SF2Prim f)
  end.

(** [a / b] on floats *)
Definition float_div (a b : float) : Res float :=
  if PrimFloat.eqb b 0%float then Raise ZeroDivisionError
  else Normal (PrimFloat.div a b).

(** [a / n] for a float [a] and an integer [n]: [n] is converted and the
    quotient taken; a zero divisor raises [ZeroDivisionError]. *)
Definition float_div_int (a : float) (n : Z) : Res float :=
  if n =? 0 then Raise ZeroDivisionError
  else res_bind (float_of_int n) (fun b => Normal (PrimFloat.div a b)).

(** [args.epochs if args.epochs else num_epochs] *)
Definition training_epochs (epochs : option Z) (num_epochs : Z) : Z :=
  match epochs with
  | Some e => if e =? 0 then num_epochs else e
  | None => num_epochs
  end.

(** Lines 197-200: the learning rate decay. *)
Definition compute_decay (max_decay : float) (num_train batch_size : Z)
    (epochs : option Z) (num_epochs : Z) : Res float :=
  if float_positive max_decay then
    res_bind (float_div 1%float max_decay) (fun q =>
    let numerator := PrimFloat.sub q 1%float in
    res_bind (floor_div num_train batch_size) (fun steps =>
    float_div_int numerator (steps * training_epochs epochs num_epochs)))
  else Normal 0%float.

(** ** Loss and metric *)

(** Lines 152-157. *)
Definition select_loss_metric (loss_name : string) (embedding : PyVal)
    : Loss * Metric :=
  if endswith loss_name "_corr" then
    (inv_correlation,
     if String.eqb loss_name "softmax_corr" then NamedMetric "accuracy"
     else nn_accuracy embedding true)
  else
    (squared_distance, nn_accuracy embedding false).

(** The [loss], [loss_weights] and [metrics] arguments of the two [compile]
    calls (lines 168-176 and 201-209), which differ in the optimizer only. *)
Definition compile_spec (cls_weight : float) (embedding_layer_name : string)
    (loss : Loss) (metric : Metric) : CompileSpec :=
  if float_positive cls_weight then
    PerOutput
      (<["prob" := NamedLoss "categorical_crossentropy"]>
         {[ embedding_layer_name := loss ]})
      (<["prob" := cls_weight]> {[ embedding_layer_name := 1%float ]})
      (<["prob" := NamedMetric "accuracy"]>
         {[ embedding_layer_name := metric ]})
  else
    SingleOutput loss [metric].

(** ** The script as a computation *)

(** A computation runs on a device, after the calls [h] made so far; it
    returns or raises, and adds calls to the log. *)
Definition M (A : Type) : Type := Device -> list Event -> Res A * list Event.

Definition ret {A} (a : A) : M A := fun _ _ => (Normal a, []).

Definition bind {A B} (m : M A) (k : A -> M B) : M B :=
  fun dev h =>
    match m dev h with
    | (Normal a, l1) =>
        match k a dev (h ++ l1) with
        | (r, l2) => (r, l1 ++ l2)
        end
    | (Raise e, l1) => (Raise e, l1)
    end.

Declare Scope py_scope.
Delimit Scope py_scope with py.
Notation "x <- c1 ;; c2" := (bind c1 (fun x => c2))
  (at level 100, c1 at next level, right associativity) : py_scope.
Notation "c1 ;; c2" := (bind c1 (fun _ => c2))
  (at level 100, right associativity) : py_scope.
Open Scope py_scope.

(** A pure Python expression that may raise. *)
Definition lift {A} (r : Res A) : M A := fun _ _ => (r, []).

(** An effect that cannot fail: printing, setting an attribute. *)
Definition note (ev : Event) : M unit := fun _ _ => (Normal tt, [ev]).

(** [with K.tf.device(name): body] *)
Definition with_device {A} (name : string) (body : M A) : M A :=
  fun _ h => body (NamedDevice name) h.

(** [try: body  except <class> as e: handler(e)] *)
Definition try_except {A} (catches : exn -> bool) (body : M A)
    (handler : exn -> M A) : M A :=
  fun dev h =>
    match body dev h with
    | (Normal a, l1) => (Normal a, l1)
    | (Raise e, l1) =>
        if catches e then
          match handler e dev (h ++ l1) with
          | (r, l2) => (r, l1 ++ l2)
          end
        else (Raise e, l1)
    end.

(** [for x in l: body(x)] *)
Fixpoint for_each {A} (l : list A) (body : A -> M unit) : M unit :=
  match l with
  | [] => ret tt
  | x :: l' => body x ;; for_each l' body
  end.

Definition is_ValueError (e : exn) : bool :=
  match e with
  | ValueError => true
  | _ => false
  end.

(** The models of a run: the base model, [embed_model] when it is bound,
    the name of the embedding layer, and the model that is trained. *)
Record Models : Type := {
  model : Model;
  embed_model : option Model;
  embedding_layer_name : string;
  par_model : Model
}.

Section Script.

Variable W : World.

(** A call into a library: it is logged, and fails when the world says
    so. *)
Definition call (ev : Event) : M unit :=
  fun _ h =>
    (match raises W h ev with
     | Some e => Raise e
     | None => Normal tt
     end, [ev]).

(** A graph-building call, placed on the device in force. *)
Definition call_on_device (ev : Device -> Event) : M unit :=
  fun dev h => call (ev dev) dev h.

(** [with open(path, mode) as f: body]: the file is closed when the body
    is left, normally or not. *)
Definition with_open {A} (path mode : string) (body : M A) : M A :=
  call (EvOpen path mode) ;;
  fun dev h =>
    match body dev h with
    | (r, l) => (r, l ++ [EvClose path])
    end.

(** [int(s)] *)
Definition int_of_str (s : string) : Res Z :=
  match py_int W s with
  | Some i => Normal i
  | None => Raise ValueError
  end.

(** [m.layers[i]], as the position of the layer. *)
Definition layer_at (m : Model) (i : Z) : Res nat :=
  py_index (seq 0 (length (layer_names W m))) i.

(** [m.get_layer(name)]: the first layer of that name, [ValueError] when
    there is none. *)
Definition get_layer (m : Model) (name : string) : Res nat :=
  match list_find (fun n => n = name) (layer_names W m) with
  | Some (i, _) => Normal i
  | None => Raise ValueError
  end.

(** [layer(x)] for a freshly made layer. *)
Definition apply_layer (l : KLayer) (x : Tensor) : M Tensor :=
  call_on_device (fun dev => EvCallLayer dev l x) ;;
  ret (Call l x).

(** [keras.models.Model(m.inputs, outs)] *)
Definition new_model (m : Model) (outs : list Tensor) : M Model :=
  call_on_device (fun dev => EvNewModel dev m outs) ;;
  ret (KerasModel m outs).

(** Lines 16-45. *)
Definition cls_model (embed_model : Model) (num_classes : Z)
    (cls_base : option string) : M Model :=
  base <- match cls_base with
          | None => ret (OutputOf embed_model)
          | Some name =>
              try_except is_ValueError
                (i <- lift (int_of_str name) ;;
                 k <- lift (layer_at embed_model i) ;;
                 ret (LayerOutput embed_model k))
                (fun _ =>
                 k <- lift (get_layer embed_model name) ;;
                 ret (LayerOutput embed_model k))
          end ;;
  x <- apply_layer (Activation "relu" None) base ;;
  x <- apply_layer BatchNormalization x ;;
  x <- apply_layer (Dense num_classes "softmax" (L2 f_5e_4) "prob") x ;;
  new_model embed_model [OutputOf embed_model; x].

(** Lines 101-104. *)
Definition load_class_embeddings (args : Args) : M (PyVal * PyVal) :=
  with_open (embedding args) "rb"
    (call (EvPickleLoad (embedding args)) ;;
     let obj := pickle_content W (embedding args) in
     embed_labels <- lift (py_getitem obj "ind2label") ;;
     emb <- lift (py_getitem obj "embedding") ;;
     ret (emb, embed_labels)).

(** Line 107. *)
Definition load_dataset (args : Args) (embed_labels : PyVal)
    : M DataGenerator :=
  call (EvGetDataGenerator (dataset args) (data_root args) embed_labels) ;;
  ret (data_generator_of W (dataset args) (data_root args) embed_labels).

(** [args.snapshot and os.path.exists(args.snapshot)] *)
Definition snapshot_to_resume (args : Args) : option string :=
  match if_set (snapshot args) with
  | Some path => if path_exists W path then Some path else None
  | None => None
  end.

(** Lines 112-125, and again 129-142: the model, [embed_model] when it
    is bound, and [embedding_layer_name]. *)
Definition build_or_resume (args : Args) (emb : PyVal) (dg : DataGenerator)
    : M (Model * option Model * string) :=
  match snapshot_to_resume args with
  | Some path =>
      note (EvPrint (MsgResuming path)) ;;
      call (EvGetCustomObjects (architecture args)) ;;
      call_on_device (fun dev => EvLoadModel dev path (architecture args)) ;;
      ret (LoadedModel path (architecture args), None, "embedding")
  | None =>
      dim <- lift (shape1 emb) ;;
      call_on_device (fun dev => EvBuildNetwork dev dim (architecture args)) ;;
      let embed_model := BuiltNetwork dim (architecture args) in
      p <- (if String.eqb (loss args) "inv_corr" then
              x <- apply_layer (Lambda l2norm "l2norm") (OutputOf embed_model) ;;
              m <- new_model embed_model [x] ;;
              ret (m, "l2norm")
            else if String.eqb (loss args) "softmax_corr" then
              x <- apply_layer (Activation "softmax" (Some "softmax"))
                               (OutputOf embed_model) ;;
              m <- new_model embed_model [x] ;;
              ret (m, "softmax")
            else ret (embed_model, "embedding")) ;;
      model <- (if float_positive (cls_weight args) then
                  cls_model (fst p) (dg_num_classes dg) (cls_base args)
                else ret (fst p)) ;;
      ret (model, Some embed_model, snd p)
  end.

(** Lines 110-143. *)
Definition assemble_models (args : Args) (emb : PyVal) (dg : DataGenerator)
    : M Models :=
  if (gpus args <=? 1) || gpu_merge args then
    b <- build_or_resume args emb dg ;;
    par <- (if gpus args <=? 1 then ret (fst (fst b))
            else
              call_on_device (fun dev =>
                EvMultiGpuModel dev (fst (fst b)) (gpus args) (Some false)) ;;
              ret (MultiGpuModel (fst (fst b)) (gpus args) (Some false))) ;;
    ret {| model := fst (fst b); embed_model := snd (fst b);
           embedding_layer_name := snd b; par_model := par |}
  else
    b <- with_device "/cpu:0" (build_or_resume args emb dg) ;;
    call_on_device (fun dev =>
      EvMultiGpuModel dev (fst (fst b)) (gpus args) None) ;;
    ret {| model := fst (fst b); embed_model := snd (fst b);
           embedding_layer_name := snd b;
           par_model := MultiGpuModel (fst (fst b)) (gpus args) None |}.

(** Lines 148-151. *)
Definition batch_transform_kwargs (args : Args) (emb : PyVal)
    (dg : DataGenerator) : TransformKwargs :=
  {| kw_embedding := emb;
     kw_num_classes := if float_positive (cls_weight args)
                       then Some (dg_num_classes dg) else None |}.

(** The arguments of the [fit_generator] call of lines 177-181. *)
Definition pretrain_fit_args (args : Args) (dg : DataGenerator)
    (kw : TransformKwargs) : FitArgs :=
  {| fit_train := TrainSequence dg (batch_size args) kw;
     fit_validation_data := TestSequence dg (val_batch_size args) kw;
     fit_epochs := finetune_init args;
     fit_initial_epoch := None;
     fit_callbacks := None;
     fit_verbose := negb (no_progress args);
     fit_max_queue_size := queue_size args;
     fit_workers := read_workers args;
     fit_use_multiprocessing := true |}.

(** The arguments of the [fit_generator] call of lines 211-216. *)
Definition train_fit_args (args : Args) (dg : DataGenerator)
    (kw : TransformKwargs) (callbacks : list Callback) (num_epochs : Z)
    : FitArgs :=
  {| fit_train := TrainSequence dg (batch_size args) kw;
     fit_validation_data := TestSequence dg (val_batch_size args) kw;
     fit_epochs := training_epochs (epochs args) num_epochs;
     fit_initial_epoch := Some (initial_epoch args);
     fit_callbacks := Some callbacks;
     fit_verbose := negb (no_progress args);
     fit_max_queue_size := queue_size args;
     fit_workers := read_workers args;
     fit_use_multiprocessing := true |}.

(** The optimizer of the two [compile] calls. *)
Definition optimizer (args : Args) (decay : option float) : Optimizer :=
  {| sgd_lr_ := sgd_lr args; sgd_decay := decay;
     sgd_momentum := f_0_9; sgd_nesterov := nesterov args;
     sgd_clipnorm := clipgrad args |}.

(** [for layer in m.layers: layer.trainable = f(layer.name)] *)
Definition set_trainable (m : Model) (f : string -> bool) : M unit :=
  for_each (imap pair (layer_names W m))
           (fun l => note (EvSetTrainable m (fst l) (f (snd l)))).

(** The two [compile] calls; [decay] is passed by the second only. *)
Definition compile_model (args : Args) (ms : Models) (the_loss : Loss)
    (metric : Metric) (decay : option float) : M unit :=
  call (EvCompile (par_model ms) (optimizer args decay)
          (compile_spec (cls_weight args) (embedding_layer_name ms)
                        the_loss metric)).

(** Lines 160-184. *)
Definition pretrain (args : Args) (dg : DataGenerator)
    (ms : Models) (kw : TransformKwargs) (the_loss : Loss) (metric : Metric)
    : M unit :=
  match if_set (finetune args) with
  | Some path =>
      note (EvPrint (MsgLoadingWeights path)) ;;
      call (EvLoadWeights (model ms) path) ;;
      if 0 <? finetune_init args then
        note (EvPrint MsgPretraining) ;;
        set_trainable (model ms)
          (fun name => String.eqb name "embedding" || String.eqb name "prob") ;;
        em <- lift (match embed_model ms with
                    | Some em => Normal em
                    | None => Raise NameError
                    end) ;;
        k <- lift (layer_at em (-1)) ;;
        note (EvSetTrainable em k true) ;;
        compile_model args ms the_loss metric None ;;
        call (EvFitGenerator (par_model ms) (pretrain_fit_args args dg kw)) ;;
        set_trainable (model ms) (fun _ => true) ;;
        note (EvPrint MsgFullTraining)
      else ret tt
  | None => ret tt
  end.

(** Lines 187-195: the callbacks and the epoch count of the schedule. *)
Definition configure_callbacks (args : Args) (dg : DataGenerator)
    (ms : Models) : M (list Callback * Z) :=
  call (EvGetLrSchedule (lr_schedule args) (dg_num_train dg) (batch_size args)) ;;
  let sched :=
    lr_schedule_of W (lr_schedule args) (dg_num_train dg) (batch_size args) args in
  callbacks <- match if_set (log_dir args) with
               | Some dir =>
                   (if path_isdir W dir then call (EvRmtree dir) else ret tt) ;;
                   ret (fst sched ++ [TensorBoard dir false])
               | None => ret (fst sched)
               end ;;
  ret (match if_set (snapshot args) with
       | Some path =>
           callbacks ++
           [if gpus args <=? 1 then ModelCheckpoint path
            else TemplateModelCheckpoint (model ms) path]
       | None => callbacks
       end, snd sched).

(** Lines 197-216. *)
Definition train (args : Args) (dg : DataGenerator)
    (ms : Models) (kw : TransformKwargs) (the_loss : Loss) (metric : Metric)
    (callbacks : list Callback) (num_epochs : Z) : M unit :=
  decay <- lift (compute_decay (max_decay args) (dg_num_train dg)
                               (batch_size args) (epochs args) num_epochs) ;;
  compile_model args ms the_loss metric (Some decay) ;;
  call (EvFitGenerator (par_model ms)
          (train_fit_args args dg kw callbacks num_epochs)).

(** Lines 219-225.  The arithmetic on the predictions (selecting the
    classifier output, [argmax], [bincount], the mean) is one numpy
    call here. *)
Definition evaluate (args : Args) (dg : DataGenerator)
    (ms : Models) (kw : TransformKwargs) : M unit :=
  call (EvEvaluateGenerator (par_model ms) (TestSequence dg (val_batch_size args) kw)) ;;
  note (EvPrint MsgEvaluation) ;;
  if float_positive (cls_weight args) then
    call (EvPredictGenerator (par_model ms) (TestSequence dg (val_batch_size args) kw) None) ;;
    call (EvAverageAccuracy (dg_labels_test dg)) ;;
    note (EvPrint MsgAverageAccuracy)
  else ret tt.

(** Lines 228-232. *)
Definition dump_weights (args : Args) (ms : Models) : M unit :=
  match if_set (weight_dump args) with
  | Some path =>
      try_except is_Exception
        (call (EvSaveWeights (model ms) path))
        (fun e => note (EvPrint (MsgWeightsError e)))
  | None => ret tt
  end.

(** Lines 233-237. *)
Definition dump_model (args : Args) (ms : Models) : M unit :=
  match if_set (model_dump args) with
  | Some path =>
      try_except is_Exception
        (call (EvSave (model ms) path))
        (fun e => note (EvPrint (MsgModelError e)))
  | None => ret tt
  end.

(** Lines 240-245. *)
Definition dump_features (args : Args) (dg : DataGenerator) (ms : Models)
    : M unit :=
  match if_set (feature_dump args) with
  | Some path =>
      call (EvPredictGenerator (par_model ms) (FlowTest dg 1 false)
                               (Some (dg_num_test dg))) ;;
      with_open path "wb"
        (call (EvPickleDump path (float_positive (cls_weight args))))
  | None => ret tt
  end.

(** Lines 228-245. *)
Definition dump_artifacts (args : Args) (dg : DataGenerator) (ms : Models)
    : M unit :=
  dump_weights args ms ;;
  dump_model args ms ;;
  dump_features args dg ms.

(** Lines 94-95. *)
Definition default_val_batch_size (args : Args) : Args :=
  match val_batch_size args with
  | None => set_val_batch_size args (batch_size args)
  | Some _ => args
  end.

(** Lines 145-245: the run once the models exist. *)
Definition run_training (args : Args) (emb : PyVal)
    (dg : DataGenerator) (ms : Models) : M unit :=
  (if no_progress args then ret tt else call (EvSummary (model ms))) ;;
  let kw := batch_transform_kwargs args emb dg in
  let lm := select_loss_metric (loss args) emb in
  pretrain args dg ms kw (fst lm) (snd lm) ;;
  sched <- configure_callbacks args dg ms ;;
  train args dg ms kw (fst lm) (snd lm) (fst sched) (snd sched) ;;
  evaluate args dg ms kw ;;
  dump_artifacts args dg ms.

(** Lines 94-245: the script after [parse_args]. *)
Definition main (parsed : Args) : M unit :=
  let args := default_val_batch_size parsed in
  call EvSetSession ;;
  e <- load_class_embeddings args ;;
  dg <- load_dataset args (snd e) ;;
  ms <- assemble_models args (fst e) dg ;;
  run_training args (fst e) dg ms.

(** A run from the start: on the default device, with an empty log. *)
Definition run (parsed : Args) : Res unit * list Event :=
  main parsed DefaultDevice [].

End Script.

(** * Specification *)

(** ** Reading the log *)

(** The log of a computation. *)
Definition log_of {A} (m : M A) (dev : Device) (h : list Event) : list Event :=
  snd (m dev h).

(** Every call a computation makes on [dev] satisfies [P], and every value
    it returns satisfies [R]. *)
Definition spec {A} (dev : Device) (m : M A) (P : Event -> Prop)
    (R : A -> Prop) : Prop :=
  forall h,
    Forall P (snd (m dev h)) /\
    forall a, fst (m dev h) = Normal a -> R a.

(** The model a trained model replicates: itself unless it is a multi-GPU
    replica. *)
Definition base_of (m : Model) : Model :=
  match m with
  | MultiGpuModel b _ _ => b
  | _ => m
  end.

(** The device a graph-building call was placed on. *)
Definition construction_device (ev : Event) : option Device :=
  match ev with
  | EvLoadModel dev _ _ => Some dev
  | EvBuildNetwork dev _ _ => Some dev
  | EvCallLayer dev _ _ => Some dev
  | EvNewModel dev _ _ => Some dev
  | EvMultiGpuModel dev _ _ _ => Some dev
  | _ => None
  end.

(** The calls that make the base model. *)
Definition builds_base_model (ev : Event) : bool :=
  match ev with
  | EvLoadModel _ _ _ | EvBuildNetwork _ _ _ | EvCallLayer _ _ _
  | EvNewModel _ _ _ => true
  | _ => false
  end.

(** The batch sources a call receives. *)
Definition event_sequences (ev : Event) : list Sequence :=
  match ev with
  | EvFitGenerator _ a => [fit_train a; fit_validation_data a]
  | EvEvaluateGenerator _ s => [s]
  | EvPredictGenerator _ s _ => [s]
  | _ => []
  end.

(** The keyword arguments [transform_inputs] is called with on the batches
    of a sequence; [flow_test] transforms nothing. *)
Definition sequence_kwargs (s : Sequence) : option TransformKwargs :=
  match s with
  | TrainSequence _ _ kw => Some kw
  | TestSequence _ _ kw => Some kw
  | FlowTest _ _ _ => None
  end.

(** The model a training, evaluation or prediction call is made on. *)
Definition trained_model (ev : Event) : option Model :=
  match ev with
  | EvCompile m _ _ => Some m
  | EvFitGenerator m _ => Some m
  | EvEvaluateGenerator m _ => Some m
  | EvPredictGenerator m _ _ => Some m
  | _ => None
  end.

(** The classifier [cls_model] appends to the tensor [base]. *)
Definition classifier_on (num_classes : Z) (base : Tensor) : Tensor :=
  Call (Dense num_classes "softmax" (L2 f_5e_4) "prob")
       (Call BatchNormalization (Call (Activation "relu" None) base)).

(** [m] is [embed_model] extended by the classifier on [base]. *)
Definition with_classifier (embed_model : Model) (num_classes : Z)
    (base : Tensor) (m : Model) : Prop :=
  m = KerasModel embed_model
        [OutputOf embed_model; classifier_on num_classes base].

(** [m] has a classification head. *)
Definition has_classifier (m : Model) : Prop :=
  exists embed_model num_classes base,
    with_classifier embed_model num_classes base m.

(** The tensor [cls_base] selects in [embed_model], as the code reads it:
    the final output for [None], the layer at that index when the string
    parses as an integer, the first layer of that name otherwise. *)
Definition selected_base (W : World) (embed_model : Model)
    (cls_base : option string) : Res Tensor :=
  match cls_base with
  | None => Normal (OutputOf embed_model)
  | Some s =>
      match py_int W s with
      | Some i =>
          res_bind (layer_at W embed_model i)
                   (fun k => Normal (LayerOutput embed_model k))
      | None =>
          res_bind (get_layer W embed_model s)
                   (fun k => Normal (LayerOutput embed_model k))
      end
  end.

(** ** What a run computes *)

(** The embedding and the class labels, when the pickle holds them. *)
Definition loaded (W : World) (args : Args) (e : PyVal * PyVal) : Prop :=
  py_getitem (pickle_content W (embedding args)) "ind2label" = Normal (snd e) /\
  py_getitem (pickle_content W (embedding args)) "embedding" = Normal (fst e).

(** The data set of a run with the class labels [labels]. *)
Definition data_of (W : World) (args : Args) (labels : PyVal) : DataGenerator :=
  data_generator_of W (dataset args) (data_root args) labels.

(** The network after lines 118-123: L2-normalised for ['inv_corr'],
    followed by a softmax for ['softmax_corr'], as it is otherwise; and the
    name of its last layer. *)
Definition embedding_model (loss_name : string) (net : Model) : Model * string :=
  if String.eqb loss_name "inv_corr" then
    (KerasModel net [Call (Lambda l2norm "l2norm") (OutputOf net)], "l2norm")
  else if String.eqb loss_name "softmax_corr" then
    (KerasModel net [Call (Activation "softmax" (Some "softmax")) (OutputOf net)],
     "softmax")
  else (net, "embedding").

(** The layer calls of the classifier on [base], in order. *)
Definition classifier_calls (num_classes : Z) (base : Tensor)
    : list (KLayer * Tensor) :=
  [(Activation "relu" None, base);
   (BatchNormalization, Call (Activation "relu" None) base);
   (Dense num_classes "softmax" (L2 f_5e_4) "prob",
    Call BatchNormalization (Call (Activation "relu" None) base))].

(** The calls of [cls_model] on the device [dev]. *)
Inductive cls_model_call (W : World) (embed_model : Model) (num_classes : Z)
    (cls_base : option string) (dev : Device) : Event -> Prop :=
| cc_layer base l x :
    selected_base W embed_model cls_base = Normal base ->
    In (l, x) (classifier_calls num_classes base) ->
    cls_model_call W embed_model num_classes cls_base dev (EvCallLayer dev l x)
| cc_model base :
    selected_base W embed_model cls_base = Normal base ->
    cls_model_call W embed_model num_classes cls_base dev
      (EvNewModel dev embed_model
         [OutputOf embed_model; classifier_on num_classes base]).

(** What [build_or_resume] returns. *)
Definition built (W : World) (args : Args) (emb : PyVal) (dg : DataGenerator)
    (b : Model * option Model * string) : Prop :=
  match snapshot_to_resume W args with
  | Some path => b = (LoadedModel path (architecture args), None, "embedding")
  | None =>
      exists dim,
        shape1 emb = Normal dim /\
        let net := BuiltNetwork dim (architecture args) in
        let em := embedding_model (loss args) net in
        snd (fst b) = Some net /\
        snd b = snd em /\
        if float_positive (cls_weight args) then
          exists base,
            selected_base W (fst em) (cls_base args) = Normal base /\
            with_classifier (fst em) (dg_num_classes dg) base (fst (fst b))
        else fst (fst b) = fst em
  end.

(** The model that is trained, given the base model. *)
Definition replica_of (args : Args) (m : Model) : Model :=
  if gpus args <=? 1 then m
  else MultiGpuModel m (gpus args) (if gpu_merge args then Some false else None).

(** The device on which the base model is made by a run on [dev]. *)
Definition base_device (args : Args) (dev : Device) : Device :=
  if (gpus args <=? 1) || gpu_merge args then dev else NamedDevice "/cpu:0".

(** What [assemble_models] returns. *)
Definition assembled (W : World) (args : Args) (emb : PyVal)
    (dg : DataGenerator) (ms : Models) : Prop :=
  built W args emb dg (model ms, embed_model ms, embedding_layer_name ms) /\
  par_model ms = replica_of args (model ms).

(** The calls of [build_or_resume] on the device [dev]. *)
Inductive build_call (W : World) (args : Args) (emb : PyVal)
    (dg : DataGenerator) (dev : Device) : Event -> Prop :=
| bc_resuming path :
    snapshot_to_resume W args = Some path ->
    build_call W args emb dg dev (EvPrint (MsgResuming path))
| bc_custom_objects path :
    snapshot_to_resume W args = Some path ->
    build_call W args emb dg dev (EvGetCustomObjects (architecture args))
| bc_load_model path :
    snapshot_to_resume W args = Some path ->
    build_call W args emb dg dev (EvLoadModel dev path (architecture args))
| bc_build_network dim :
    snapshot_to_resume W args = None ->
    shape1 emb = Normal dim ->
    build_call W args emb dg dev (EvBuildNetwork dev dim (architecture args))
| bc_normalize dim l x :
    snapshot_to_resume W args = None ->
    shape1 emb = Normal dim ->
    fst (embedding_model (loss args) (BuiltNetwork dim (architecture args)))
      = KerasModel (BuiltNetwork dim (architecture args)) [Call l x] ->
    build_call W args emb dg dev (EvCallLayer dev l x)
| bc_normalized dim outs :
    snapshot_to_resume W args = None ->
    shape1 emb = Normal dim ->
    fst (embedding_model (loss args) (BuiltNetwork dim (architecture args)))
      = KerasModel (BuiltNetwork dim (architecture args)) outs ->
    build_call W args emb dg dev
      (EvNewModel dev (BuiltNetwork dim (architecture args)) outs)
| bc_classifier dim ev :
    snapshot_to_resume W args = None ->
    shape1 emb = Normal dim ->
    float_positive (cls_weight args) = true ->
    cls_model_call W
      (fst (embedding_model (loss args) (BuiltNetwork dim (architecture args))))
      (dg_num_classes dg) (cls_base args) dev ev ->
    build_call W args emb dg dev ev.

(** The calls of [assemble_models] on the device [dev]. *)
Inductive assembly_call (W : World) (args : Args) (emb : PyVal)
    (dg : DataGenerator) (dev : Device) : Event -> Prop :=
| ac_build ev :
    build_call W args emb dg (base_device args dev) ev ->
    assembly_call W args emb dg dev ev
| ac_replica b :
    built W args emb dg b ->
    1 < gpus args ->
    assembly_call W args emb dg dev
      (EvMultiGpuModel dev (fst (fst b)) (gpus args)
         (if gpu_merge args then Some false else None)).

(** The checkpoint callback for the snapshot [path]. *)
Definition checkpoint_callback (args : Args) (ms : Models) (path : string)
    : Callback :=
  if gpus args <=? 1 then ModelCheckpoint path
  else TemplateModelCheckpoint (model ms) path.

(** The callbacks of the training: those of the schedule, then TensorBoard
    when [--log_dir] is set, then the checkpoint when [--snapshot] is set. *)
Definition callbacks_of (W : World) (args : Args) (dg : DataGenerator)
    (ms : Models) : list Callback :=
  fst (lr_schedule_of W (lr_schedule args) (dg_num_train dg) (batch_size args) args)
  ++ match if_set (log_dir args) with
     | Some dir => [TensorBoard dir false]
     | None => []
     end
  ++ match if_set (snapshot args) with
     | Some path => [checkpoint_callback args ms path]
     | None => []
     end.

(** The epoch count of the schedule. *)
Definition num_epochs_of (W : World) (args : Args) (dg : DataGenerator) : Z :=
  snd (lr_schedule_of W (lr_schedule args) (dg_num_train dg) (batch_size args) args).

(** The calls of [run_training]. *)
Inductive training_call (W : World) (args : Args) (emb : PyVal)
    (dg : DataGenerator) (ms : Models) : Event -> Prop :=
| tc_summary :
    no_progress args = false ->
    training_call W args emb dg ms (EvSummary (model ms))
| tc_print msg :
    (forall path, msg <> MsgResuming path) ->
    training_call W args emb dg ms (EvPrint msg)
| tc_load_weights path :
    if_set (finetune args) = Some path ->
    training_call W args emb dg ms (EvLoadWeights (model ms) path)
| tc_set_trainable m k b :
    if_set (finetune args) <> None ->
    training_call W args emb dg ms (EvSetTrainable m k b)
| tc_pretrain_compile :
    if_set (finetune args) <> None ->
    training_call W args emb dg ms
      (EvCompile (par_model ms) (optimizer args None)
         (compile_spec (cls_weight args) (embedding_layer_name ms)
            (fst (select_loss_metric (loss args) emb))
            (snd (select_loss_metric (loss args) emb))))
| tc_pretrain_fit :
    if_set (finetune args) <> None ->
    training_call W args emb dg ms
      (EvFitGenerator (par_model ms)
         (pretrain_fit_args args dg (batch_transform_kwargs args emb dg)))
| tc_lr_schedule :
    training_call W args emb dg ms
      (EvGetLrSchedule (lr_schedule args) (dg_num_train dg) (batch_size args))
| tc_rmtree dir :
    if_set (log_dir args) = Some dir ->
    path_isdir W dir = true ->
    training_call W args emb dg ms (EvRmtree dir)
| tc_compile decay :
    compute_decay (max_decay args) (dg_num_train dg) (batch_size args)
                  (epochs args) (num_epochs_of W args dg) = Normal decay ->
    training_call W args emb dg ms
      (EvCompile (par_model ms) (optimizer args (Some decay))
         (compile_spec (cls_weight args) (embedding_layer_name ms)
            (fst (select_loss_metric (loss args) emb))
            (snd (select_loss_metric (loss args) emb))))
| tc_fit :
    training_call W args emb dg ms
      (EvFitGenerator (par_model ms)
         (train_fit_args args dg (batch_transform_kwargs args emb dg)
            (callbacks_of W args dg ms) (num_epochs_of W args dg)))
| tc_evaluate :
    training_call W args emb dg ms
      (EvEvaluateGenerator (par_model ms)
         (TestSequence dg (val_batch_size args)
            (batch_transform_kwargs args emb dg)))
| tc_predict :
    float_positive (cls_weight args) = true ->
    training_call W args emb dg ms
      (EvPredictGenerator (par_model ms)
         (TestSequence dg (val_batch_size args)
            (batch_transform_kwargs args emb dg)) None)
| tc_average_accuracy :
    float_positive (cls_weight args) = true ->
    training_call W args emb dg ms (EvAverageAccuracy (dg_labels_test dg))
| tc_save_weights path :
    if_set (weight_dump args) = Some path ->
    training_call W args emb dg ms (EvSaveWeights (model ms) path)
| tc_save path :
    if_set (model_dump args) = Some path ->
    training_call W args emb dg ms (EvSave (model ms) path)
| tc_predict_features path :
    if_set (feature_dump args) = Some path ->
    training_call W args emb dg ms
      (EvPredictGenerator (par_model ms) (FlowTest dg 1 false)
         (Some (dg_num_test dg)))
| tc_open_dump path :
    if_set (feature_dump args) = Some path ->
    training_call W args emb dg ms (EvOpen path "wb")
| tc_pickle_dump path :
    if_set (feature_dump args) = Some path ->
    training_call W args emb dg ms
      (EvPickleDump path (float_positive (cls_weight args)))
| tc_close_dump path :
    if_set (feature_dump args) = Some path ->
    training_call W args emb dg ms (EvClose path).

(** The calls before the models are assembled. *)
Inductive setup_call (W : World) (args : Args) : Event -> Prop :=
| sc_session : setup_call W args EvSetSession
| sc_open : setup_call W args (EvOpen (embedding args) "rb")
| sc_pickle_load : setup_call W args (EvPickleLoad (embedding args))
| sc_close : setup_call W args (EvClose (embedding args))
| sc_data_generator e :
    loaded W args e ->
    setup_call W args
      (EvGetDataGenerator (dataset args) (data_root args) (snd e)).

(** The calls of a run with the parsed arguments [parsed]. *)
Inductive run_call (W : World) (parsed : Args) : Event -> Prop :=
| rc_setup ev :
    setup_call W (default_val_batch_size parsed) ev ->
    run_call W parsed ev
| rc_assembly e ev :
    loaded W (default_val_batch_size parsed) e ->
    assembly_call W (default_val_batch_size parsed) (fst e)
      (data_of W (default_val_batch_size parsed) (snd e)) DefaultDevice ev ->
    run_call W parsed ev
| rc_training e ms ev :
    loaded W (default_val_batch_size parsed) e ->
    assembled W (default_val_batch_size parsed) (fst e)
      (data_of W (default_val_batch_size parsed) (snd e)) ms ->
    training_call W (default_val_batch_size parsed) (fst e)
      (data_of W (default_val_batch_size parsed) (snd e)) ms ev ->
    run_call W parsed ev.

(** ** Sample runs *)

(** Python's [int] on the strings of the samples: decimal digits after an
    optional minus sign.  (Python accepts more: a plus sign, blanks around
    the number, underscores between digits.) *)
Definition decimal_int (s : string) : option Z :=
  match NilZero.int_of_string s with
  | Some d => Some (Z.of_int d)
  | None => None
  end.

Definition sample_embedding : ndarray :=
  {| nd_cols := 2;
     nd_rows := [[1; 0]; [0; 1]; [0.5; 0.5]]%float |}.

Definition sample_pickle : PyObj :=
  PDict (<["embedding" := VArray sample_embedding]>
           {[ "ind2label" := VList ["cat"; "dog"; "fox"] ]}).

Definition sample_data : DataGenerator :=
  {| dg_num_classes := 3; dg_num_train := 1000; dg_num_test := 100;
     dg_labels_test := [0; 1; 2] |}.

(** A world in which no call fails, the snapshot [snap.h5] exists and the
    schedule runs for 180 epochs. *)
Definition sample_world : World :=
  {| raises := fun _ _ => None;
     path_exists := fun p => String.eqb p "snap.h5";
     path_isdir := fun _ => false;
     pickle_content := fun _ => sample_pickle;
     data_generator_of := fun _ _ _ => sample_data;
     layer_names := fun m =>
       match m with
       | BuiltNetwork _ _ => ["input"; "conv"; "embedding"]
       | _ => ["input"; "conv"; "embedding"; "l2norm"]
       end;
     py_int := decimal_int;
     lr_schedule_of := fun _ _ _ _ => ([ScheduleCallback 0], 180) |}.

(** The same world, in which every attempt to save weights or a model
    fails. *)
Definition failing_world : World :=
  {| raises := fun _ ev =>
       match ev with
       | EvSaveWeights _ _ => Some OSError
       | EvSave _ _ => Some (OtherException "RuntimeError")
       | _ => None
       end;
     path_exists := path_exists sample_world;
     path_isdir := path_isdir sample_world;
     pickle_content := pickle_content sample_world;
     data_generator_of := data_generator_of sample_world;
     layer_names := layer_names sample_world;
     py_int := py_int sample_world;
     lr_schedule_of := lr_schedule_of sample_world |}.

(** The sample world, in which saving the weights is interrupted from the
    keyboard. *)
Definition interrupted_world : World :=
  {| raises := fun _ ev =>
       match ev with
       | EvSaveWeights _ _ => Some KeyboardInterrupt
       | _ => None
       end;
     path_exists := path_exists sample_world;
     path_isdir := path_isdir sample_world;
     pickle_content := pickle_content sample_world;
     data_generator_of := data_generator_of sample_world;
     layer_names := layer_names sample_world;
     py_int := py_int sample_world;
     lr_schedule_of := lr_schedule_of sample_world |}.

(** [--dataset CIFAR-100 --data_root /data --embedding emb.pickle
    --cls_weight w] with [--snapshot] and the three dump files as given,
    the defaults of the parser otherwise and [sgd_lr = 0.125]. *)
Definition sample_args (w : float) (snap wdump mdump fdump : option string)
    : Args :=
  {| dataset := "CIFAR-100"; data_root := "/data"; embedding := "emb.pickle";
     architecture := "simple"; loss := "inv_corr"; cls_weight := w;
     cls_base := None; lr_schedule := "SGDR"; clipgrad := 10%float;
     max_decay := 0%float; nesterov := false; epochs := None;
     batch_size := 100; val_batch_size := None; snapshot := snap;
     initial_epoch := 0; finetune := None; finetune_init := 8; gpus := 1;
     read_workers := 8; queue_size := 100; gpu_merge := false;
     model_dump := mdump; weight_dump := wdump; feature_dump := fdump;
     log_dir := None; no_progress := false; sgd_lr := 0.125%float |}.

(** The required arguments only. *)
Definition default_args : Args := sample_args 0%float None None None None.

(** A run that finds its snapshot and asks for a classifier. *)
Definition resume_args : Args :=
  sample_args 0.5%float (Some "snap.h5") None None None.

(** A run that builds its model and asks for a classifier. *)
Definition classifier_args : Args :=
  sample_args 0.5%float None None None None.

(** [--snapshot ''] *)
Definition empty_snapshot_args : Args :=
  sample_args 0%float (Some "") None None None.

(** A run that dumps weights, model and features. *)
Definition dump_args : Args :=
  sample_args 0%float None (Some "w.h5") (Some "m.h5") (Some "f.pickle").

(** The calls that save the weights or the model. *)
Definition is_save (ev : Event) : bool :=
  match ev with
  | EvSaveWeights _ _ | EvSave _ _ => true
  | _ => false
  end.

(** A computation either raises after calls that satisfy [P], or makes
    such calls and then a rest which, with the result, satisfies [T] for
    the history at that point. *)
Definition reaches {A} (dev : Device) (m : M A) (P : Event -> Prop)
    (T : list Event -> Res A -> list Event -> Prop) : Prop :=
  forall h : list Event,
    (Forall P (snd (m dev h)) /\ exists e, fst (m dev h) = Raise e) \/
    exists l1 l2,
      snd (m dev h) = l1 ++ l2 /\
      Forall P l1 /\
      T (h ++ l1) (fst (m dev h)) l2.

(** What a save attempt comes to: the call, then the error message when
    the call fails with an instance of [Exception]; any other exception
    leaves the [try] and ends the computation at the call. *)
Definition save_outcome (W : World) (h : list Event) (ev : Event)
    (msg : exn -> Message) : Res unit * list Event :=
  match raises W h ev with
  | Some e =>
      if is_Exception e then (Normal tt, [ev; EvPrint (msg e)])
      else (Raise e, [ev])
  | None => (Normal tt, [ev])
  end.

(** What follows the attempt to save the weights: lines 233-245. *)
Definition after_weights (W : World) (args : Args) (dg : DataGenerator)
    (ms : Models) : M unit :=
  dump_model W args ms ;; dump_features W args dg ms.

(** The calls of lines 228-245: the saves, their error messages, and the
    prediction and the pickle of the feature dump. *)
Definition dump_step (ev : Event) : bool :=
  match ev with
  | EvSaveWeights _ _ | EvSave _ _ => true
  | EvPrint (MsgWeightsError _) | EvPrint (MsgModelError _) => true
  | EvPredictGenerator _ (FlowTest _ _ _) _ => true
  | EvOpen _ mode => String.eqb mode "wb"
  | EvPickleDump _ _ => true
  | _ => false
  end.

(** When a computation returns, its value and its log satisfy [Q]. *)
Definition returns_with {A} (dev : Device) (m : M A)
    (Q : A -> list Event -> Prop) : Prop :=
  forall h a, fst (m dev h) = Normal a -> Q a (snd (m dev h)).

(** The layer a layer call applies. *)
Definition called_layer (ev : Event) : option KLayer :=
  match ev with
  | EvCallLayer _ l _ => Some l
  | _ => None
  end.

(** The callbacks of the training call, when it passes any. *)
Definition training_callbacks (ev : Event) : option (list Callback) :=
  match ev with
  | EvFitGenerator _ a => fit_callbacks a
  | _ => None
  end.

(** A [to_categorical] for the witnesses, after that of Keras: a class
    count of 0 stands for the largest label plus one, a negative count of
    columns is refused, and each row has a one in the column of its label,
    counted from the end when the label is negative. *)
Definition one_hot (y : list Z) (n : Z) : Res ndarray :=
  res_bind
    (if n =? 0 then
       match y with
       | [] => Raise ValueError
       | l :: y' => Normal (fold_right Z.max l y' + 1)
       end
     else Normal n) (fun k =>
  if k <? 0 then Raise ValueError else
  res_bind
    (res_map (fun l => res_bind (py_index (seq 0 (Z.to_nat k)) l) (fun c =>
        Normal (map (fun j => if Nat.eqb j c then 1%float else 0%float)
                    (seq 0 (Z.to_nat k))))) y)
    (fun rs => Normal {| nd_cols := Z.to_nat k; nd_rows := rs |})).

(** ** Worlds in which library calls do not fail *)

(** No call fails but saving the weights or the model, and those fail with
    instances of [Exception] only. *)
Definition only_saves_fail (W : World) : Prop :=
  forall h ev e,
    raises W h ev = Some e -> is_save ev = true /\ is_Exception e = true.

(** A computation returns or raises [r], whatever was called before. *)
Definition result_is {A} (dev : Device) (m : M A) (r : Res A) : Prop :=
  forall h, fst (m dev h) = r.

(** Lines 160 and 163: the pre-training is asked for. *)
Definition pretraining_requested (args : Args) : bool :=
  match if_set (finetune args) with
  | Some _ => 0 <? finetune_init args
  | None => false
  end.

(** What [build_or_resume] returns when no call fails. *)
Definition build_result (W : World) (args : Args) (emb : PyVal)
    (dg : DataGenerator) : Res (Model * option Model * string) :=
  match snapshot_to_resume W args with
  | Some path => Normal (LoadedModel path (architecture args), None, "embedding")
  | None =>
      res_bind (shape1 emb) (fun dim =>
      let net := BuiltNetwork dim (architecture args) in
      let em := embedding_model (loss args) net in
      res_bind (if float_positive (cls_weight args) then
                  res_bind (selected_base W (fst em) (cls_base args)) (fun base =>
                  Normal (KerasModel (fst em)
                            [OutputOf (fst em);
                             classifier_on (dg_num_classes dg) base]))
                else Normal (fst em)) (fun m =>
      Normal (m, Some net, snd em)))
  end.

(** What [assemble_models] returns when no call fails. *)
Definition assemble_result (W : World) (args : Args) (emb : PyVal)
    (dg : DataGenerator) : Res Models :=
  res_bind (build_result W args emb dg) (fun b =>
  Normal {| model := fst (fst b); embed_model := snd (fst b);
            embedding_layer_name := snd b;
            par_model := replica_of args (fst (fst b)) |}).

(** The Python errors of lines 160-184: [embed_model] is unbound after a
    resume, and [layers[-1]] needs a layer. *)
Definition pretrain_result (W : World) (args : Args) (ms : Models) : Res unit :=
  if pretraining_requested args then
    res_bind (match embed_model ms with
              | Some em => Normal em
              | None => Raise NameError
              end) (fun em =>
    res_bind (layer_at W em (-1)) (fun _ => Normal tt))
  else Normal tt.

(** The result of a run in which no call fails but the saves: the first
    error of the script itself, if there is one. *)
Definition run_result (W : World) (parsed : Args) : Res unit :=
  let args := default_val_batch_size parsed in
  let obj := pickle_content W (embedding args) in
  res_bind (py_getitem obj "ind2label") (fun labels =>
  res_bind (py_getitem obj "embedding") (fun emb =>
  let dg := data_of W args labels in
  res_bind (assemble_result W args emb dg) (fun ms =>
  res_bind (pretrain_result W args ms) (fun _ =>
  res_bind (compute_decay (max_decay args) (dg_num_train dg) (batch_size args)
                          (epochs args) (num_epochs_of W args dg)) (fun _ =>
  Normal tt))))).

(** ** Kinds of calls *)

(** The calls of the pre-training: a [compile] without [decay] and a
    [fit_generator] without callbacks. *)
Definition is_pretraining (ev : Event) : bool :=
  match ev with
  | EvCompile _ opt _ =>
      match sgd_decay opt with None => true | Some _ => false end
  | EvFitGenerator _ a =>
      match fit_callbacks a with None => true | Some _ => false end
  | _ => false
  end.

(** The calls the script makes only after line 167, where [embed_model] is
    read: compiling, fitting, the schedule, the log directory, evaluation
    and the dumps. *)
Definition after_embed_model_read (ev : Event) : bool :=
  match ev with
  | EvCompile _ _ _ | EvFitGenerator _ _ | EvGetLrSchedule _ _ _
  | EvRmtree _ | EvEvaluateGenerator _ _ | EvPredictGenerator _ _ _
  | EvAverageAccuracy _ | EvSaveWeights _ _ | EvSave _ _
  | EvPickleDump _ _ => true
  | _ => false
  end.

(** The model of a call that is made on the base model. *)
Definition base_model_call (ev : Event) : option Model :=
  match ev with
  | EvSummary m | EvLoadWeights m _ | EvSaveWeights m _ | EvSave m _ => Some m
  | _ => None
  end.

(** The path a call reads, writes or deletes, for the paths the script
    guards by [if args.<option>:]. *)
Definition guarded_path (ev : Event) : option string :=
  match ev with
  | EvLoadModel _ p _ | EvLoadWeights _ p | EvRmtree p | EvSaveWeights _ p
  | EvSave _ p | EvPickleDump p _ | EvOpen p "wb" => Some p
  | _ => None
  end.

(** Every [fit_generator] call in the log comes right after a [compile]
    call on the same model; [last] is the call before the log. *)
Fixpoint compiled_before_fit (last : option Event) (l : list Event) : Prop :=
  match l with
  | [] => True
  | ev :: l' =>
      match ev with
      | EvFitGenerator pm _ =>
          match last with
          | Some (EvCompile m _ _) => m = pm
          | _ => False
          end
      | _ => True
      end /\ compiled_before_fit (Some ev) l'
  end.

(** What lines 160-184 guarantee of a call of [run_training]: a call of
    the pre-training is made only when it is asked for; a call that follows
    line 167 is made only if [embed_model] is bound when the pre-training
    is asked for; a layer is frozen only by the pre-training, in the base
    model, when its name is neither ['embedding'] nor ['prob']. *)
Definition pretraining_guard (W : World) (args : Args) (ms : Models)
    (ev : Event) : Prop :=
  (is_pretraining ev = true -> pretraining_requested args = true) /\
  (after_embed_model_read ev = true ->
   pretraining_requested args = true -> embed_model ms <> None) /\
  (forall m k, ev = EvSetTrainable m k false ->
     pretraining_requested args = true /\ m = model ms /\
     exists name,
       layer_names W m !! k = Some name /\
       name <> "embedding" /\ name <> "prob").

(** A call that is neither of the pre-training nor freezes a layer. *)
Definition plain_call (ev : Event) : Prop :=
  is_pretraining ev = false /\ forall m k, ev <> EvSetTrainable m k false.

(** Every pickle is read or written inside a [with open(...)] block: the
    call comes right after the file was opened, for reading or for writing,
    and the file is closed right after it; [last] is the call before the
    log. *)
Fixpoint in_open_block (last : option Event) (l : list Event) : Prop :=
  match l with
  | [] => True
  | ev :: l' =>
      match ev with
      | EvPickleLoad p =>
          last = Some (EvOpen p "rb") /\ exists l'', l' = EvClose p :: l''
      | EvPickleDump p _ =>
          last = Some (EvOpen p "wb") /\ exists l'', l' = EvClose p :: l''
      | _ => True
      end /\ in_open_block (Some ev) l'
  end.

(** The calls an invariant of the log looks at together with their
    neighbours. *)
Definition paired_call (ev : Event) : bool :=
  match ev with
  | EvFitGenerator _ _ | EvPickleLoad _ | EvPickleDump _ _ => true
  | _ => false
  end.

(** Every layer that is made untrainable in the log is made trainable
    again later in the log. *)
Definition unfrozen_again (l : list Event) : Prop :=
  forall l1 m k l2,
    l = l1 ++ EvSetTrainable m k false :: l2 ->
    In (EvSetTrainable m k true) l2.

(** Every log of a computation satisfies [J]. *)
Definition traces {A} (dev : Device) (m : M A) (J : list Event -> Prop)
    : Prop :=
  forall h, J (snd (m dev h)).

(** The index [l] is outside a sequence of length [n]. *)
Definition out_of_range (n : nat) (l : Z) : Prop :=
  l < - Z.of_nat n \/ Z.of_nat n <= l.

(** ** More sample runs *)

(** A pickle without the key ['embedding']. *)
Definition labels_only_world : World :=
  {| raises := raises sample_world;
     path_exists := path_exists sample_world;
     path_isdir := path_isdir sample_world;
     pickle_content := fun _ =>
       PDict {[ "ind2label" := VList ["cat"; "dog"; "fox"] ]};
     data_generator_of := data_generator_of sample_world;
     layer_names := layer_names sample_world;
     py_int := py_int sample_world;
     lr_schedule_of := lr_schedule_of sample_world |}.

(** A pickle that holds a bare numpy array instead of a [dict]. *)
Definition array_pickle_world : World :=
  {| raises := raises sample_world;
     path_exists := path_exists sample_world;
     path_isdir := path_isdir sample_world;
     pickle_content := fun _ => PArray;
     data_generator_of := data_generator_of sample_world;
     layer_names := layer_names sample_world;
     py_int := py_int sample_world;
     lr_schedule_of := lr_schedule_of sample_world |}.

(** A pickle whose embedding is a one-dimensional array. *)
Definition vector_world : World :=
  {| raises := raises sample_world;
     path_exists := path_exists sample_world;
     path_isdir := path_isdir sample_world;
     pickle_content := fun _ =>
       PDict (<["embedding" := VVector [1; 0; 0.5]%float]>
                {[ "ind2label" := VList ["cat"; "dog"; "fox"] ]});
     data_generator_of := data_generator_of sample_world;
     layer_names := layer_names sample_world;
     py_int := py_int sample_world;
     lr_schedule_of := lr_schedule_of sample_world |}.

(** A network with a layer named ['7']. *)
Definition numbered_world : World :=
  {| raises := raises sample_world;
     path_exists := path_exists sample_world;
     path_isdir := path_isdir sample_world;
     pickle_content := pickle_content sample_world;
     data_generator_of := data_generator_of sample_world;
     layer_names := fun _ => ["input"; "7"];
     py_int := py_int sample_world;
     lr_schedule_of := lr_schedule_of sample_world |}.

(** The sample world, in which [logs] is an existing directory. *)
Definition logging_world : World :=
  {| raises := raises sample_world;
     path_exists := path_exists sample_world;
     path_isdir := fun p => String.eqb p "logs";
     pickle_content := pickle_content sample_world;
     data_generator_of := data_generator_of sample_world;
     layer_names := layer_names sample_world;
     py_int := py_int sample_world;
     lr_schedule_of := lr_schedule_of sample_world |}.

(** [--log_dir logs --snapshot new.h5 --gpus 2 --loss mse
    --initial_epoch 5] *)
Definition logging_args : Args :=
  {| dataset := "CIFAR-100"; data_root := "/data"; embedding := "emb.pickle";
     architecture := "simple"; loss := "mse"; cls_weight := 0%float;
     cls_base := None; lr_schedule := "SGDR"; clipgrad := 10%float;
     max_decay := 0%float; nesterov := false; epochs := None;
     batch_size := 100; val_batch_size := None; snapshot := Some "new.h5";
     initial_epoch := 5; finetune := None; finetune_init := 8;
     gpus := 2; read_workers := 8; queue_size := 100; gpu_merge := false;
     model_dump := Some "m.h5"; weight_dump := None; feature_dump := None;
     log_dir := Some "logs"; no_progress := true; sgd_lr := 0.125%float |}.

(** [--finetune pre.h5], with [--snapshot] and [--val_batch_size] as
    given. *)
Definition finetune_args (snap : option string) (vbs : option Z) : Args :=
  {| dataset := "CIFAR-100"; data_root := "/data"; embedding := "emb.pickle";
     architecture := "simple"; loss := "inv_corr"; cls_weight := 0%float;
     cls_base := None; lr_schedule := "SGDR"; clipgrad := 10%float;
     max_decay := 0%float; nesterov := false; epochs := None;
     batch_size := 100; val_batch_size := vbs; snapshot := snap;
     initial_epoch := 0; finetune := Some "pre.h5"; finetune_init := 8;
     gpus := 1; read_workers := 8; queue_size := 100; gpu_merge := false;
     model_dump := None; weight_dump := None; feature_dump := None;
     log_dir := None; no_progress := false; sgd_lr := 0.125%float |}.

(** * Properties *)

(** ** Python sequences *)

Lemma res_map_Normal {A B} (f : A -> Res B) (l : list A) (rs : list B) :
  res_map f l = Normal rs ->
  length rs = length l /\
  forall i x, l !! i = Some x -> exists r, f x = Normal r /\ rs !! i = Some r.
Proof.
  revert rs. induction l as [|x l IH]; intros rs Hrs; simpl in Hrs.
  - inversion Hrs; subst. split; [reflexivity|]. intros i y Hy. discriminate.
  - destruct (f x) as [b|e] eqn:Hfx; simpl in Hrs; [|discriminate].
    destruct (res_map f l) as [bs|e] eqn:Hl; simpl in Hrs; [|discriminate].
    inversion Hrs; subst. destruct (IH bs eq_refl) as [Hlen Hall].
    split; [simpl; congruence|].
    intros [|i] y Hy; simpl in Hy.
    + inversion Hy; subst. exists b. split; [assumption|reflexivity].
    + apply Hall. assumption.
Qed.

Lemma res_map_total {A B} (f : A -> Res B) (l : list A) :
  Forall (fun x => exists r, f x = Normal r) l ->
  exists rs, res_map f l = Normal rs.
Proof.
  induction 1 as [|x l [r Hr] _ [rs Hrs]]; simpl.
  - exists []. reflexivity.
  - exists (r :: rs). rewrite Hr; simpl. rewrite Hrs; simpl. reflexivity.
Qed.

Lemma py_index_in_range {A} (l : list A) (i : Z) :
  - Z.of_nat (length l) <= i < Z.of_nat (length l) ->
  exists x, py_index l i = Normal x.
Proof.
  intros Hi. unfold py_index.
  set (n := Z.of_nat (length l)) in *.
  set (j := if i <? 0 then i + n else i).
  assert (Hj : 0 <= j < n).
  { subst j. destruct (Z.ltb_spec i 0); lia. }
  replace ((0 <=? j) && (j <? n)) with true
    by (symmetry; apply andb_true_iff; split;
        [apply Z.leb_le | apply Z.ltb_lt]; lia).
  destruct (l !! Z.to_nat j) as [x|] eqn:Hx; [eauto|].
  apply lookup_ge_None in Hx. lia.
Qed.

Lemma py_index_nonneg {A} (l : list A) (i : Z) (x : A) :
  0 <= i -> py_index l i = Normal x -> l !! Z.to_nat i = Some x.
Proof.
  intros Hi. unfold py_index.
  replace (i <? 0) with false by (symmetry; apply Z.ltb_ge; lia).
  destruct ((0 <=? i) && (i <? Z.of_nat (length l))); [|discriminate].
  destruct (l !! Z.to_nat i); [|discriminate]. congruence.
Qed.

(** Where [l[i]] is found in [l]: at [i], or at [i + len(l)] for a
    negative [i]. *)
Lemma py_index_position {A} (l : list A) (i : Z) (x : A) :
  py_index l i = Normal x ->
  l !! Z.to_nat (if i <? 0 then i + Z.of_nat (length l) else i) = Some x.
Proof.
  unfold py_index.
  destruct ((0 <=? (if i <? 0 then i + Z.of_nat (length l) else i)) &&
            ((if i <? 0 then i + Z.of_nat (length l) else i)
               <? Z.of_nat (length l))); [|discriminate].
  destruct (l !! _); [|discriminate]. congruence.
Qed.

Lemma py_index_out_of_range {A} (l : list A) (i : Z) :
  i < - Z.of_nat (length l) \/ Z.of_nat (length l) <= i ->
  py_index l i = Raise IndexError.
Proof.
  intros Hi. unfold py_index.
  set (n := Z.of_nat (length l)) in *.
  destruct (Z.ltb_spec i 0).
  - destruct (Z.leb_spec 0 (i + n)); simpl; [|reflexivity].
    destruct (Z.ltb_spec (i + n) n); simpl; [lia|reflexivity].
  - destruct (Z.leb_spec 0 i); simpl; [|reflexivity].
    destruct (Z.ltb_spec i n); simpl; [lia|reflexivity].
Qed.

(** ** Rules for computations *)

Section Rules.

Variable W : World.

Lemma bind_run {A B} (m : M A) (k : A -> M B) dev h :
  bind m k dev h =
  match fst (m dev h) with
  | Normal a =>
      (fst (k a dev (h ++ snd (m dev h))),
       snd (m dev h) ++ snd (k a dev (h ++ snd (m dev h))))
  | Raise e => (Raise e, snd (m dev h))
  end.
Proof.
  unfold bind. destruct (m dev h) as [[a|e] l1]; simpl; [|reflexivity].
  destruct (k a dev (h ++ l1)); reflexivity.
Qed.

Lemma spec_weaken {A} dev (m : M A) (P P' : Event -> Prop) (R R' : A -> Prop) :
  spec dev m P R ->
  (forall ev, P ev -> P' ev) ->
  (forall a, R a -> R' a) ->
  spec dev m P' R'.
Proof.
  intros Hm HP HR h. destruct (Hm h) as [Hl Hr]. split.
  - eapply Forall_impl; [exact Hl | exact HP].
  - intros a Ha. apply HR, Hr, Ha.
Qed.

Lemma spec_ret {A} dev (a : A) (P : Event -> Prop) (R : A -> Prop) :
  R a -> spec dev (ret a) P R.
Proof.
  intros Ha h. split; [constructor|]. simpl. intros a' Ha'.
  inversion Ha'; subst. exact Ha.
Qed.

Lemma spec_lift {A} dev (r : Res A) (P : Event -> Prop) (R : A -> Prop) :
  (forall a, r = Normal a -> R a) -> spec dev (lift r) P R.
Proof.
  intros Hr h. split; [constructor|]. simpl. exact Hr.
Qed.

Lemma spec_note dev (ev : Event) (P : Event -> Prop) (R : unit -> Prop) :
  P ev -> R tt -> spec dev (note ev) P R.
Proof.
  intros Hev HR h. split; [repeat constructor; exact Hev|].
  intros []. intros _. exact HR.
Qed.

Lemma spec_call dev (ev : Event) (P : Event -> Prop) (R : unit -> Prop) :
  P ev -> R tt -> spec dev (call W ev) P R.
Proof.
  intros Hev HR h. split; [repeat constructor; exact Hev|].
  intros []. intros _. exact HR.
Qed.

Lemma spec_call_on_device dev (ev : Device -> Event) (P : Event -> Prop)
    (R : unit -> Prop) :
  P (ev dev) -> R tt -> spec dev (call_on_device W ev) P R.
Proof.
  intros Hev HR. unfold call_on_device. intros h.
  apply (spec_call dev (ev dev) P R Hev HR h).
Qed.

Lemma spec_bind {A B} dev (m : M A) (k : A -> M B) (P : Event -> Prop)
    (R1 : A -> Prop) (R : B -> Prop) :
  spec dev m P R1 ->
  (forall a, R1 a -> spec dev (k a) P R) ->
  spec dev (bind m k) P R.
Proof.
  intros Hm Hk h. rewrite bind_run. destruct (Hm h) as [Hl Hr].
  destruct (fst (m dev h)) as [a|e] eqn:Hfst; simpl.
  - destruct (Hk a (Hr a eq_refl) (h ++ snd (m dev h))) as [Hl2 Hr2].
    split; [apply Forall_app; split; assumption | exact Hr2].
  - split; [exact Hl | discriminate].
Qed.

Lemma spec_with_device {A} dev name (body : M A) (P : Event -> Prop)
    (R : A -> Prop) :
  spec (NamedDevice name) body P R -> spec dev (with_device name body) P R.
Proof.
  intros Hb h. exact (Hb h).
Qed.

Lemma spec_try_except {A} dev (catches : exn -> bool) (body : M A)
    (handler : exn -> M A) (P : Event -> Prop) (R : A -> Prop) :
  spec dev body P R ->
  (forall e, catches e = true -> spec dev (handler e) P R) ->
  spec dev (try_except catches body handler) P R.
Proof.
  intros Hb Hh h. unfold try_except. destruct (Hb h) as [Hl Hr].
  destruct (body dev h) as [[a|e] l1]; simpl in *.
  - split; assumption.
  - destruct (catches e) eqn:Hc; [|split; [assumption|discriminate]].
    destruct (Hh e Hc (h ++ l1)) as [Hl2 Hr2].
    destruct (handler e dev (h ++ l1)) as [r l2]; simpl in *.
    split; [apply Forall_app; split; assumption | exact Hr2].
Qed.

Lemma spec_for_each {A} dev (l : list A) (body : A -> M unit)
    (P : Event -> Prop) :
  (forall x, In x l -> spec dev (body x) P (fun _ => True)) ->
  spec dev (for_each l body) P (fun _ => True).
Proof.
  induction l as [|x l IH]; intros Hb; simpl.
  - apply spec_ret. exact I.
  - eapply spec_bind.
    + apply Hb. left. reflexivity.
    + intros _ _. apply IH. intros y Hy. apply Hb. right. exact Hy.
Qed.

Lemma spec_with_open {A} dev path mode (body : M A) (P : Event -> Prop)
    (R : A -> Prop) :
  P (EvOpen path mode) -> P (EvClose path) ->
  spec dev body P R ->
  spec dev (with_open W path mode body) P R.
Proof.
  intros Ho Hc Hb. unfold with_open.
  apply (spec_bind dev _ _ P (fun _ => True) R);
    [apply spec_call; [exact Ho | exact I]|].
  intros _ _ h. destruct (Hb h) as [Hl Hr].
  destruct (body dev h) as [r l]; simpl in *.
  split; [|exact Hr].
  apply Forall_app; split; [exact Hl | repeat constructor; exact Hc].
Qed.

Lemma reaches_bind {A B} dev (m : M A) (k : A -> M B) (P : Event -> Prop)
    (R : A -> Prop) (T : list Event -> Res B -> list Event -> Prop) :
  spec dev m P R ->
  (forall a, R a -> reaches dev (k a) P T) ->
  reaches dev (bind m k) P T.
Proof.
  intros Hm Hk h. rewrite bind_run. destruct (Hm h) as [Hl Hr].
  destruct (fst (m dev h)) as [a|e] eqn:Hfst; cbn [fst snd].
  - destruct (Hk a (Hr a eq_refl) (h ++ snd (m dev h)))
      as [[Hall [e He]] | (l1 & l2 & Hsplit & Hl1 & HT)].
    + left. split; [apply Forall_app; split; assumption | exists e; exact He].
    + right. exists (snd (m dev h) ++ l1), l2.
      split; [rewrite Hsplit; apply app_assoc|].
      split; [apply Forall_app; split; assumption|].
      rewrite app_assoc. exact HT.
  - left. split; [exact Hl | exists e; reflexivity].
Qed.

Lemma reaches_here {A} dev (m : M A) (P : Event -> Prop)
    (T : list Event -> Res A -> list Event -> Prop) :
  (forall h, T h (fst (m dev h)) (snd (m dev h))) ->
  reaches dev m P T.
Proof.
  intros HT h. right. exists [], (snd (m dev h)).
  split; [reflexivity|]. split; [constructor|].
  rewrite app_nil_r. apply HT.
Qed.

Lemma reaches_weaken {A} dev (m : M A) (P : Event -> Prop)
    (T T' : list Event -> Res A -> list Event -> Prop) :
  reaches dev m P T ->
  (forall h r l, T h r l -> T' h r l) ->
  reaches dev m P T'.
Proof.
  intros Hm HT h.
  destruct (Hm h) as [Hstop | (l1 & l2 & Hsplit & Hl1 & Ht)];
    [left; exact Hstop|].
  right. exists l1, l2. split; [exact Hsplit|]. split; [exact Hl1|].
  apply HT. exact Ht.
Qed.

Lemma reaches_bind_then {A B} dev (m : M A) (k : A -> M B)
    (P : Event -> Prop) (R : A -> Prop)
    (T : A -> list Event -> Res B -> list Event -> Prop) :
  spec dev m P R ->
  (forall a, R a -> reaches dev (k a) P (T a)) ->
  reaches dev (bind m k) P
    (fun h' r l2 =>
       exists a h,
         R a /\ fst (m dev h) = Normal a /\
         (exists hb, h' = (h ++ snd (m dev h)) ++ hb) /\
         T a h' r l2).
Proof.
  intros Hm Hk h. rewrite bind_run. destruct (Hm h) as [Hl Hr].
  destruct (fst (m dev h)) as [a|e] eqn:Hfst; cbn [fst snd].
  - destruct (Hk a (Hr a eq_refl) (h ++ snd (m dev h)))
      as [[Hall [e He]] | (l1 & l2 & Hsplit & Hl1 & HT)].
    + left. split; [apply Forall_app; split; assumption | exists e; exact He].
    + right. exists (snd (m dev h) ++ l1), l2.
      split; [rewrite Hsplit; apply app_assoc|].
      split; [apply Forall_app; split; assumption|].
      exists a, h. split; [exact (Hr a eq_refl)|]. split; [exact Hfst|].
      split; [exists l1; apply app_assoc|].
      rewrite app_assoc. exact HT.
  - left. split; [exact Hl | exists e; reflexivity].
Qed.

(** *** What a computation has logged when it returns *)

Lemma returns_with_any {A} dev (m : M A) (Q : A -> list Event -> Prop) :
  (forall a l, Q a l) -> returns_with dev m Q.
Proof. intros HQ h a _. apply HQ. Qed.

Lemma returns_with_ret {A} dev (a : A) (Q : A -> list Event -> Prop) :
  Q a [] -> returns_with dev (ret a) Q.
Proof. intros HQ h a' Ha. inversion Ha; subst. exact HQ. Qed.

Lemma returns_with_weaken {A} dev (m : M A) (Q Q' : A -> list Event -> Prop) :
  returns_with dev m Q ->
  (forall a l, Q a l -> Q' a l) ->
  returns_with dev m Q'.
Proof. intros Hm HQ h a Ha. apply HQ, Hm, Ha. Qed.

Lemma returns_with_call dev (ev : Event) (Q : unit -> list Event -> Prop) :
  Q tt [ev] -> returns_with dev (call W ev) Q.
Proof. intros HQ h [] _. exact HQ. Qed.

Lemma returns_with_call_on_device dev (ev : Device -> Event)
    (Q : unit -> list Event -> Prop) :
  Q tt [ev dev] -> returns_with dev (call_on_device W ev) Q.
Proof. intros HQ h [] _. exact HQ. Qed.

Lemma returns_with_bind {A B} dev (m : M A) (k : A -> M B)
    (Q1 : A -> list Event -> Prop) (Q : B -> list Event -> Prop) :
  returns_with dev m Q1 ->
  (forall a l1, Q1 a l1 -> returns_with dev (k a) (fun b l2 => Q b (l1 ++ l2))) ->
  returns_with dev (bind m k) Q.
Proof.
  intros Hm Hk h b. rewrite bind_run.
  destruct (fst (m dev h)) as [a|e] eqn:Hfst; cbn [fst snd]; [|discriminate].
  intros Hb. exact (Hk a _ (Hm h a Hfst) _ b Hb).
Qed.

Lemma returns_with_device {A} dev name (body : M A)
    (Q : A -> list Event -> Prop) :
  returns_with (NamedDevice name) body Q ->
  returns_with dev (with_device name body) Q.
Proof. intros Hb h a Ha. exact (Hb h a Ha). Qed.

End Rules.

(** ** The calls of each part of the script *)

Section Calls.

Variable W : World.

Lemma spec_seq {A B} dev (m : M A) (k : M B) (P : Event -> Prop)
    (R : B -> Prop) :
  spec dev m P (fun _ => True) ->
  spec dev k P R ->
  spec dev (bind m (fun _ => k)) P R.
Proof.
  intros Hm Hk. eapply spec_bind; [exact Hm|]. intros _ _. exact Hk.
Qed.

Lemma spec_emit dev (ev : Event) (P : Event -> Prop) :
  P ev -> spec dev (call W ev) P (fun _ => True).
Proof. intros Hev. apply spec_call; [exact Hev | exact I]. Qed.

Lemma spec_emit_on_device dev (ev : Device -> Event) (P : Event -> Prop) :
  P (ev dev) -> spec dev (call_on_device W ev) P (fun _ => True).
Proof. intros Hev. apply spec_call_on_device; [exact Hev | exact I]. Qed.

Lemma spec_say dev (ev : Event) (P : Event -> Prop) :
  P ev -> spec dev (note ev) P (fun _ => True).
Proof. intros Hev. apply spec_note; [exact Hev | exact I]. Qed.

Lemma py_index_raises {A} (l : list A) (i : Z) (e : exn) :
  py_index l i = Raise e -> e = IndexError.
Proof.
  unfold py_index.
  destruct ((0 <=? (if i <? 0 then i + Z.of_nat (length l) else i)) &&
            ((if i <? 0 then i + Z.of_nat (length l) else i)
               <? Z.of_nat (length l))); [|congruence].
  destruct (l !! _); congruence.
Qed.

(** The [try] of lines 37-40 selects the base as [selected_base] says and
    makes no call. *)
Lemma cls_model_base_run (embed_model : Model) (name : string) dev h :
  try_except is_ValueError
    (i <- lift (int_of_str W name) ;;
     k <- lift (layer_at W embed_model i) ;;
     ret (LayerOutput embed_model k))
    (fun _ =>
     k <- lift (get_layer W embed_model name) ;;
     ret (LayerOutput embed_model k)) dev h
  = (selected_base W embed_model (Some name), []).
Proof.
  unfold try_except, bind, lift, ret, int_of_str, selected_base. simpl.
  destruct (py_int W name) as [i|]; simpl.
  - destruct (layer_at W embed_model i) as [k|e] eqn:Hk; simpl; [reflexivity|].
    apply py_index_raises in Hk. subst e. reflexivity.
  - destruct (get_layer W embed_model name); reflexivity.
Qed.

Lemma cls_model_spec (embed_model : Model) (num_classes : Z)
    (cls_base : option string) dev :
  spec dev (cls_model W embed_model num_classes cls_base)
    (cls_model_call W embed_model num_classes cls_base dev)
    (fun m => exists base,
       selected_base W embed_model cls_base = Normal base /\
       with_classifier embed_model num_classes base m).
Proof.
  unfold cls_model.
  apply (spec_bind dev _ _ _
           (fun base => selected_base W embed_model cls_base = Normal base)).
  { destruct cls_base as [name|].
    - intros h. rewrite cls_model_base_run. simpl. split; [constructor|].
      intros a Ha. exact Ha.
    - apply spec_ret. reflexivity. }
  intros base Hbase. unfold apply_layer, new_model.
  apply (spec_bind dev _ _ _ (fun x => x = Call (Activation "relu" None) base)).
  { apply spec_seq; [|apply spec_ret; reflexivity].
    apply spec_emit_on_device. eapply cc_layer; [exact Hbase|]. simpl. tauto. }
  intros x1 ->.
  apply (spec_bind dev _ _ _
           (fun x => x = Call BatchNormalization
                           (Call (Activation "relu" None) base))).
  { apply spec_seq; [|apply spec_ret; reflexivity].
    apply spec_emit_on_device. eapply cc_layer; [exact Hbase|]. simpl. tauto. }
  intros x2 ->.
  apply (spec_bind dev _ _ _ (fun x => x = classifier_on num_classes base)).
  { apply spec_seq; [|apply spec_ret; reflexivity].
    apply spec_emit_on_device. eapply cc_layer; [exact Hbase|]. simpl. tauto. }
  intros x3 ->.
  apply spec_seq.
  - apply spec_emit_on_device. apply cc_model. exact Hbase.
  - apply spec_ret. exists base. split; [exact Hbase | reflexivity].
Qed.

Lemma build_or_resume_spec (args : Args) (emb : PyVal) (dg : DataGenerator) dev :
  spec dev (build_or_resume W args emb dg)
    (build_call W args emb dg dev) (built W args emb dg).
Proof.
  unfold build_or_resume, built.
  destruct (snapshot_to_resume W args) as [path|] eqn:Hsnap.
  - apply spec_seq; [apply spec_say; eapply bc_resuming; eassumption|].
    apply spec_seq; [apply spec_emit; eapply bc_custom_objects; eassumption|].
    apply spec_seq;
      [apply spec_emit_on_device; eapply bc_load_model; eassumption|].
    apply spec_ret. reflexivity.
  - apply (spec_bind dev _ _ _ (fun dim => shape1 emb = Normal dim)).
    { apply spec_lift. intros a Ha. exact Ha. }
    intros dim Hdim.
    apply spec_seq;
      [apply spec_emit_on_device; eapply bc_build_network; eassumption|].
    set (net := BuiltNetwork dim (architecture args)).
    apply (spec_bind dev _ _ _
             (fun p => p = embedding_model (loss args) net)).
    { unfold embedding_model, apply_layer, new_model.
      destruct (String.eqb (loss args) "inv_corr") eqn:Hinv.
      - apply (spec_bind dev _ _ _
                 (fun x => x = Call (Lambda l2norm "l2norm") (OutputOf net))).
        { apply spec_seq; [|apply spec_ret; reflexivity].
          apply spec_emit_on_device.
          eapply bc_normalize; [eassumption | eassumption|].
          unfold embedding_model. rewrite Hinv. reflexivity. }
        intros x ->.
        apply (spec_bind dev _ _ _
                 (fun m => m = KerasModel net
                                 [Call (Lambda l2norm "l2norm") (OutputOf net)])).
        { apply spec_seq; [|apply spec_ret; reflexivity].
          apply spec_emit_on_device.
          eapply bc_normalized; [eassumption | eassumption|].
          unfold embedding_model. rewrite Hinv. reflexivity. }
        intros m ->. apply spec_ret. reflexivity.
      - destruct (String.eqb (loss args) "softmax_corr") eqn:Hsoft.
        + apply (spec_bind dev _ _ _
                   (fun x => x = Call (Activation "softmax" (Some "softmax"))
                                      (OutputOf net))).
          { apply spec_seq; [|apply spec_ret; reflexivity].
            apply spec_emit_on_device.
            eapply bc_normalize; [eassumption | eassumption|].
            unfold embedding_model. rewrite Hinv, Hsoft. reflexivity. }
          intros x ->.
          apply (spec_bind dev _ _ _
                   (fun m => m = KerasModel net
                                   [Call (Activation "softmax" (Some "softmax"))
                                         (OutputOf net)])).
          { apply spec_seq; [|apply spec_ret; reflexivity].
            apply spec_emit_on_device.
            eapply bc_normalized; [eassumption | eassumption|].
            unfold embedding_model. rewrite Hinv, Hsoft. reflexivity. }
          intros m ->. apply spec_ret. reflexivity.
        + apply spec_ret. reflexivity. }
    intros p ->.
    destruct (float_positive (cls_weight args)) eqn:Hcw.
    + eapply spec_bind.
      * eapply spec_weaken; [apply cls_model_spec | | intros a Ha; exact Ha].
        intros ev Hev. eapply bc_classifier; eassumption.
      * intros m Hm. apply spec_ret. exists dim. split; [exact Hdim|].
        cbv zeta. cbn [fst snd]. split; [reflexivity|]. split; [reflexivity|].
        exact Hm.
    + apply (spec_bind dev _ _ _
               (fun m => m = fst (embedding_model (loss args) net)));
        [apply spec_ret; reflexivity|].
      intros m ->. apply spec_ret. exists dim. split; [exact Hdim|].
      cbv zeta. cbn [fst snd]. split; [reflexivity|]. split; [reflexivity|].
      reflexivity.
Qed.

Lemma assemble_models_spec (args : Args) (emb : PyVal) (dg : DataGenerator) dev :
  spec dev (assemble_models W args emb dg)
    (assembly_call W args emb dg dev) (assembled W args emb dg).
Proof.
  unfold assemble_models, assembled, replica_of.
  destruct ((gpus args <=? 1) || gpu_merge args) eqn:Hbranch.
  - apply (spec_bind dev _ _ _ (built W args emb dg)).
    { eapply spec_weaken;
        [apply build_or_resume_spec | | intros a Ha; exact Ha].
      intros ev Hev. apply ac_build. unfold base_device. rewrite Hbranch.
      exact Hev. }
    intros [[m em] name] Hb. simpl.
    destruct (gpus args <=? 1) eqn:Hgpus.
    + apply (spec_bind dev _ _ _ (fun par => par = m));
        [apply spec_ret; reflexivity|].
      intros par ->. apply spec_ret. simpl. split; [exact Hb | reflexivity].
    + simpl in Hbranch. rewrite Hbranch.
      apply (spec_bind dev _ _ _
               (fun par => par = MultiGpuModel m (gpus args) (Some false))).
      * apply spec_seq; [|apply spec_ret; reflexivity].
        apply spec_emit_on_device.
        pose proof (ac_replica W args emb dg dev _ Hb) as Hr.
        rewrite Hbranch in Hr. simpl in Hr. apply Hr.
        apply Z.leb_gt in Hgpus. lia.
      * intros par ->. apply spec_ret. simpl. split; [exact Hb | reflexivity].
  - apply orb_false_iff in Hbranch. destruct Hbranch as [Hgpus Hmerge].
    apply (spec_bind dev _ _ _ (built W args emb dg)).
    { apply spec_with_device.
      eapply spec_weaken;
        [apply build_or_resume_spec | | intros a Ha; exact Ha].
      intros ev Hev. apply ac_build. unfold base_device.
      rewrite Hgpus, Hmerge. exact Hev. }
    intros [[m em] name] Hb. simpl.
    apply spec_seq.
    + apply spec_emit_on_device.
      pose proof (ac_replica W args emb dg dev _ Hb) as Hr.
      rewrite Hmerge in Hr. simpl in Hr. apply Hr.
      apply Z.leb_gt in Hgpus. lia.
    + apply spec_ret. simpl. rewrite Hgpus, Hmerge.
      split; [exact Hb | reflexivity].
Qed.

Lemma set_trainable_spec (m : Model) (f : string -> bool) dev
    (P : Event -> Prop) :
  (forall k b, P (EvSetTrainable m k b)) ->
  spec dev (set_trainable W m f) P (fun _ => True).
Proof.
  intros HP. unfold set_trainable. apply spec_for_each.
  intros x _. apply spec_say. apply HP.
Qed.

Lemma configure_callbacks_spec (args : Args) (emb : PyVal)
    (dg : DataGenerator) (ms : Models) dev :
  spec dev (configure_callbacks W args dg ms)
    (fun ev => training_call W args emb dg ms ev /\ is_save ev = false)
    (fun r => r = (callbacks_of W args dg ms, num_epochs_of W args dg)).
Proof.
  unfold configure_callbacks, callbacks_of, num_epochs_of.
  apply spec_seq; [apply spec_emit; split; [apply tc_lr_schedule | reflexivity]|].
  set (sched := lr_schedule_of W (lr_schedule args) (dg_num_train dg)
                               (batch_size args) args).
  apply (spec_bind dev _ _ _
           (fun cbs => cbs = fst sched ++
                             match if_set (log_dir args) with
                             | Some dir => [TensorBoard dir false]
                             | None => []
                             end)).
  - destruct (if_set (log_dir args)) as [dir|] eqn:Hdir.
    + apply spec_seq; [|apply spec_ret; reflexivity].
      destruct (path_isdir W dir) eqn:Hisdir.
      * apply spec_emit. split; [eapply tc_rmtree; eassumption | reflexivity].
      * apply spec_ret. exact I.
    + apply spec_ret. rewrite app_nil_r. reflexivity.
  - intros cbs ->. apply spec_ret.
    destruct (if_set (snapshot args)) as [path|].
    + rewrite <- app_assoc. reflexivity.
    + rewrite !app_nil_r. reflexivity.
Qed.

Lemma pretrain_spec (args : Args) (emb : PyVal) (dg : DataGenerator)
    (ms : Models) dev :
  spec dev
    (pretrain W args dg ms (batch_transform_kwargs args emb dg)
       (fst (select_loss_metric (loss args) emb))
       (snd (select_loss_metric (loss args) emb)))
    (fun ev => training_call W args emb dg ms ev /\ is_save ev = false)
    (fun _ => True).
Proof.
  unfold pretrain.
  destruct (if_set (finetune args)) as [path|] eqn:Hft;
    [|apply spec_ret; exact I].
  assert (Hset : if_set (finetune args) <> None) by congruence.
  apply spec_seq; [apply spec_say; split; [apply tc_print; discriminate | reflexivity]|].
  apply spec_seq; [apply spec_emit; split; [apply tc_load_weights; exact Hft | reflexivity]|].
  destruct (0 <? finetune_init args); [|apply spec_ret; exact I].
  apply spec_seq; [apply spec_say; split; [apply tc_print; discriminate | reflexivity]|].
  apply spec_seq;
    [apply set_trainable_spec; intros;
     split; [apply tc_set_trainable; exact Hset | reflexivity]|].
  apply (spec_bind dev _ _ _ (fun _ => True));
    [apply spec_lift; intros; exact I|]. intros em _.
  apply (spec_bind dev _ _ _ (fun _ => True));
    [apply spec_lift; intros; exact I|]. intros k _.
  apply spec_seq; [apply spec_say; split; [apply tc_set_trainable; exact Hset | reflexivity]|].
  apply spec_seq;
    [unfold compile_model; apply spec_emit;
     split; [apply tc_pretrain_compile; exact Hset | reflexivity]|].
  apply spec_seq; [apply spec_emit; split; [apply tc_pretrain_fit; exact Hset | reflexivity]|].
  apply spec_seq;
    [apply set_trainable_spec; intros;
     split; [apply tc_set_trainable; exact Hset | reflexivity]|].
  apply spec_say. split; [apply tc_print; discriminate | reflexivity].
Qed.

Lemma train_spec (args : Args) (emb : PyVal) (dg : DataGenerator)
    (ms : Models) dev :
  spec dev
    (train W args dg ms (batch_transform_kwargs args emb dg)
       (fst (select_loss_metric (loss args) emb))
       (snd (select_loss_metric (loss args) emb))
       (callbacks_of W args dg ms) (num_epochs_of W args dg))
    (fun ev => training_call W args emb dg ms ev /\ is_save ev = false)
    (fun _ => True).
Proof.
  unfold train.
  apply (spec_bind dev _ _ _
           (fun d => compute_decay (max_decay args) (dg_num_train dg)
                       (batch_size args) (epochs args)
                       (num_epochs_of W args dg) = Normal d)).
  { apply spec_lift. intros a Ha. exact Ha. }
  intros decay Hdecay.
  apply spec_seq;
    [unfold compile_model; apply spec_emit;
     split; [apply tc_compile; exact Hdecay | reflexivity]|].
  apply spec_emit. split; [apply tc_fit | reflexivity].
Qed.

Lemma evaluate_spec (args : Args) (emb : PyVal) (dg : DataGenerator)
    (ms : Models) dev :
  spec dev (evaluate W args dg ms (batch_transform_kwargs args emb dg))
    (fun ev => training_call W args emb dg ms ev /\ is_save ev = false)
    (fun _ => True).
Proof.
  unfold evaluate.
  apply spec_seq; [apply spec_emit; split; [apply tc_evaluate | reflexivity]|].
  apply spec_seq; [apply spec_say; split; [apply tc_print; discriminate | reflexivity]|].
  destruct (float_positive (cls_weight args)) eqn:Hcw;
    [|apply spec_ret; exact I].
  apply spec_seq; [apply spec_emit; split; [apply tc_predict; exact Hcw | reflexivity]|].
  apply spec_seq; [apply spec_emit; split; [apply tc_average_accuracy; exact Hcw | reflexivity]|].
  apply spec_say. split; [apply tc_print; discriminate | reflexivity].
Qed.

Lemma dump_artifacts_spec (args : Args) (emb : PyVal) (dg : DataGenerator)
    (ms : Models) dev :
  spec dev (dump_artifacts W args dg ms)
    (training_call W args emb dg ms) (fun _ => True).
Proof.
  unfold dump_artifacts, dump_weights, dump_model, dump_features.
  apply spec_seq.
  { destruct (if_set (weight_dump args)) as [path|] eqn:Hw;
      [|apply spec_ret; exact I].
    apply spec_try_except.
    - apply spec_emit. apply tc_save_weights. exact Hw.
    - intros e _. apply spec_say. apply tc_print. discriminate. }
  apply spec_seq.
  { destruct (if_set (model_dump args)) as [path|] eqn:Hm;
      [|apply spec_ret; exact I].
    apply spec_try_except.
    - apply spec_emit. apply tc_save. exact Hm.
    - intros e _. apply spec_say. apply tc_print. discriminate. }
  destruct (if_set (feature_dump args)) as [path|] eqn:Hf;
    [|apply spec_ret; exact I].
  apply spec_seq; [apply spec_emit; eapply tc_predict_features; exact Hf|].
  apply spec_with_open.
  - apply tc_open_dump. exact Hf.
  - apply tc_close_dump. exact Hf.
  - apply spec_emit. apply tc_pickle_dump. exact Hf.
Qed.

Lemma run_training_spec (args : Args) (emb : PyVal) (dg : DataGenerator)
    (ms : Models) dev :
  spec dev (run_training W args emb dg ms)
    (training_call W args emb dg ms) (fun _ => True).
Proof.
  unfold run_training.
  apply spec_seq.
  { destruct (no_progress args) eqn:Hnp; [apply spec_ret; exact I|].
    apply spec_emit. apply tc_summary. exact Hnp. }
  cbv zeta.
  apply spec_seq;
    [eapply spec_weaken;
       [apply pretrain_spec | intros ev [Hev _]; exact Hev
       | intros a Ha; exact Ha]|].
  eapply spec_bind;
    [eapply spec_weaken;
       [apply (configure_callbacks_spec args emb)
       | intros ev [Hev _]; exact Hev | intros a Ha; exact Ha]|].
  intros sched ->. cbn [fst snd].
  apply spec_seq;
    [eapply spec_weaken;
       [apply train_spec | intros ev [Hev _]; exact Hev
       | intros a Ha; exact Ha]|].
  apply spec_seq;
    [eapply spec_weaken;
       [apply evaluate_spec | intros ev [Hev _]; exact Hev
       | intros a Ha; exact Ha]|].
  apply dump_artifacts_spec.
Qed.

Lemma load_class_embeddings_spec (args : Args) dev :
  spec dev (load_class_embeddings W args) (setup_call W args) (loaded W args).
Proof.
  unfold load_class_embeddings.
  apply spec_with_open; [apply sc_open | apply sc_close |].
  apply spec_seq; [apply spec_emit; apply sc_pickle_load|].
  apply (spec_bind dev _ _ _
           (fun l => py_getitem (pickle_content W (embedding args))
                                "ind2label" = Normal l)).
  { apply spec_lift. intros a Ha. exact Ha. }
  intros labels Hlabels.
  apply (spec_bind dev _ _ _
           (fun v => py_getitem (pickle_content W (embedding args))
                                "embedding" = Normal v)).
  { apply spec_lift. intros a Ha. exact Ha. }
  intros emb Hemb. apply spec_ret. split; assumption.
Qed.

(** Every call of a run is one the script makes, with the arguments the
    script computes. *)
Lemma main_spec (parsed : Args) dev :
  dev = DefaultDevice ->
  spec dev (main W parsed) (run_call W parsed) (fun _ => True).
Proof.
  intros ->. unfold main. cbv zeta.
  set (args := default_val_batch_size parsed).
  apply spec_seq; [apply spec_emit; apply rc_setup; apply sc_session|].
  apply (spec_bind _ _ _ _ (loaded W args)).
  { eapply spec_weaken;
      [apply load_class_embeddings_spec | | intros a Ha; exact Ha].
    intros ev Hev. apply rc_setup. exact Hev. }
  intros e He.
  apply (spec_bind _ _ _ _ (fun dg => dg = data_of W args (snd e))).
  { unfold load_dataset.
    apply spec_seq; [|apply spec_ret; reflexivity].
    apply spec_emit. apply rc_setup. apply sc_data_generator. exact He. }
  intros dg ->.
  apply (spec_bind _ _ _ _ (assembled W args (fst e) (data_of W args (snd e)))).
  { eapply spec_weaken;
      [apply assemble_models_spec | | intros a Ha; exact Ha].
    intros ev Hev. eapply rc_assembly; eassumption. }
  intros ms Hms.
  eapply spec_weaken; [apply run_training_spec | | intros a Ha; exact Ha].
  intros ev Hev. eapply rc_training; eassumption.
Qed.

Lemma run_calls (parsed : Args) :
  Forall (run_call W parsed) (snd (run W parsed)).
Proof.
  unfold run. exact (proj1 (main_spec parsed DefaultDevice eq_refl [])).
Qed.

End Calls.

(** ** Claim C8 *)

Lemma layer_at_Normal (W : World) (m : Model) (i : Z) (k : nat) :
  layer_at W m i = Normal k <->
  (0 <= i < Z.of_nat (length (layer_names W m)) /\ k = Z.to_nat i) \/
  (- Z.of_nat (length (layer_names W m)) <= i < 0 /\
   k = Z.to_nat (i + Z.of_nat (length (layer_names W m)))).
Proof.
  unfold layer_at, py_index. rewrite length_seq.
  set (n := Z.of_nat (length (layer_names W m))).
  set (j := if i <? 0 then i + n else i).
  assert (Hj : j = if i <? 0 then i + n else i) by reflexivity.
  destruct ((0 <=? j) && (j <? n)) eqn:Hrange.
  - apply andb_true_iff in Hrange. destruct Hrange as [H0 Hn].
    apply Z.leb_le in H0. apply Z.ltb_lt in Hn.
    assert (Hlook : seq 0 (length (layer_names W m)) !! Z.to_nat j
                    = Some (Z.to_nat j)).
    { apply lookup_seq. split; [reflexivity|]. subst n. lia. }
    rewrite Hlook. split.
    + intros Hk. inversion Hk; subst k.
      destruct (Z.ltb_spec i 0); [right | left]; split; (lia || congruence).
    + intros [[Hi ->] | [Hi ->]].
      * destruct (Z.ltb_spec i 0); [lia|]. congruence.
      * destruct (Z.ltb_spec i 0); [|lia]. congruence.
  - split; [discriminate|].
    apply andb_false_iff in Hrange.
    assert (Hout : ~ (0 <= j < n)).
    { destruct Hrange as [H | H];
        [apply Z.leb_gt in H | apply Z.ltb_ge in H]; lia. }
    intros [[Hi _] | [Hi _]]; exfalso; apply Hout; rewrite Hj;
      destruct (Z.ltb_spec i 0); lia.
Qed.

Lemma get_layer_Normal (W : World) (m : Model) (name : string) (k : nat) :
  get_layer W m name = Normal k <->
  layer_names W m !! k = Some name /\
  forall j, (j < k)%nat -> layer_names W m !! j <> Some name.
Proof.
  unfold get_layer.
  destruct (list_find (fun n => n = name) (layer_names W m))
    as [[i x]|] eqn:Hfind.
  - apply list_find_Some in Hfind. destruct Hfind as (Hi & -> & Hbefore).
    split.
    + intros Hk. inversion Hk; subst k. split; [exact Hi|].
      intros j Hj Hname. exact (Hbefore j name Hname Hj eq_refl).
    + intros [Hk Hfirst]. f_equal.
      destruct (Nat.lt_trichotomy i k) as [Hlt | [Heq | Hgt]].
      * exfalso. exact (Hfirst i Hlt Hi).
      * exact Heq.
      * exfalso. exact (Hbefore k name Hk Hgt eq_refl).
  - split; [discriminate|]. intros [Hk _]. exfalso.
    apply list_find_None in Hfind.
    rewrite Forall_forall in Hfind.
    apply (Hfind name); [|reflexivity].
    eapply list_elem_of_lookup_2. exact Hk.
Qed.

(** When no call fails, [cls_model] returns as soon as [cls_base] selects
    a tensor. *)
Lemma cls_model_returns (W : World) (embed_model : Model) (num_classes : Z)
    (cls_base : option string) dev h :
  (forall h' ev, raises W h' ev = None) ->
  fst (cls_model W embed_model num_classes cls_base dev h) =
  res_bind (selected_base W embed_model cls_base) (fun base =>
    Normal (KerasModel embed_model
              [OutputOf embed_model; classifier_on num_classes base])).
Proof.
  intros Hquiet. unfold cls_model.
  rewrite bind_run.
  assert (Hbase : forall h0,
    match cls_base with
    | Some name =>
        try_except is_ValueError
          (i <- lift (int_of_str W name) ;;
           k <- lift (layer_at W embed_model i) ;;
           ret (LayerOutput embed_model k))
          (fun _ =>
           k <- lift (get_layer W embed_model name) ;;
           ret (LayerOutput embed_model k))
    | None => ret (OutputOf embed_model)
    end dev h0 = (selected_base W embed_model cls_base, [])).
  { intros h0. destruct cls_base as [name|];
      [apply cls_model_base_run | reflexivity]. }
  rewrite Hbase. simpl.
  destruct (selected_base W embed_model cls_base) as [base|e]; simpl;
    [|reflexivity].
  unfold apply_layer, new_model, call_on_device, call, bind, ret.
  rewrite !Hquiet. reflexivity.
Qed.

(** C8.  Whenever [cls_model] returns, the model has exactly two outputs:
    the first is [embed_model.output] itself, also when [cls_base] selects
    an interior layer, and the second is the classifier (ReLU, batch
    normalisation, softmax layer ['prob']) on the selected tensor.  The
    tensor is the final output for [None]; for a string that parses as an
    integer it is the output of the layer at that index (negative indices
    from the end, [IndexError] out of range), and otherwise of the first
    layer of that name.  The calls made are those of the classifier and of
    the new model; when none of them fails [cls_model] returns if and only
    if [cls_base] selects a tensor. *)
Theorem cls_model_two_outputs (W : World) (embed_model : Model)
    (num_classes : Z) (cls_base : option string) (dev : Device)
    (h : list Event) :
  (forall m,
     fst (cls_model W embed_model num_classes cls_base dev h) = Normal m ->
     exists base,
       selected_base W embed_model cls_base = Normal base /\
       m = KerasModel embed_model
             [OutputOf embed_model;
              Call (Dense num_classes "softmax" (L2 f_5e_4) "prob")
                (Call BatchNormalization
                   (Call (Activation "relu" None) base))]) /\
  (cls_base = None ->
     selected_base W embed_model cls_base = Normal (OutputOf embed_model)) /\
  (forall name i t,
     cls_base = Some name -> py_int W name = Some i ->
     (selected_base W embed_model cls_base = Normal t <->
      exists k, t = LayerOutput embed_model k /\
        ((0 <= i < Z.of_nat (length (layer_names W embed_model)) /\
          k = Z.to_nat i) \/
         (- Z.of_nat (length (layer_names W embed_model)) <= i < 0 /\
          k = Z.to_nat (i + Z.of_nat (length (layer_names W embed_model))))))) /\
  (forall name t,
     cls_base = Some name -> py_int W name = None ->
     (selected_base W embed_model cls_base = Normal t <->
      exists k, t = LayerOutput embed_model k /\
        layer_names W embed_model !! k = Some name /\
        forall j, (j < k)%nat -> layer_names W embed_model !! j <> Some name)) /\
  Forall (cls_model_call W embed_model num_classes cls_base dev)
         (snd (cls_model W embed_model num_classes cls_base dev h)) /\
  ((forall h' ev, raises W h' ev = None) ->
   fst (cls_model W embed_model num_classes cls_base dev h) =
   res_bind (selected_base W embed_model cls_base) (fun base =>
     Normal (KerasModel embed_model
               [OutputOf embed_model; classifier_on num_classes base]))).
Proof.
  destruct (cls_model_spec W embed_model num_classes cls_base dev h)
    as [Hcalls Hret].
  split; [|split; [|split; [|split; [|split]]]].
  - intros m Hm. destruct (Hret m Hm) as (base & Hbase & Hwith).
    exists base. split; [exact Hbase | exact Hwith].
  - intros ->. reflexivity.
  - intros name i t -> Hint. unfold selected_base. rewrite Hint. split.
    + destruct (layer_at W embed_model i) as [k|e] eqn:Hk; simpl;
        [|discriminate].
      intros Ht. inversion Ht; subst t. exists k. split; [reflexivity|].
      apply layer_at_Normal. exact Hk.
    + intros (k & -> & Hk). apply layer_at_Normal in Hk. rewrite Hk.
      reflexivity.
  - intros name t -> Hint. unfold selected_base. rewrite Hint. split.
    + destruct (get_layer W embed_model name) as [k|e] eqn:Hk; simpl;
        [|discriminate].
      intros Ht. inversion Ht; subst t. exists k. split; [reflexivity|].
      apply get_layer_Normal. exact Hk.
    + intros (k & -> & Hk). apply get_layer_Normal in Hk. rewrite Hk.
      reflexivity.
  - exact Hcalls.
  - apply cls_model_returns.
Qed.

(** ** Claim C2 *)

Lemma substring_all (s : string) : String.substring 0 (String.length s) s = s.
Proof.
  induction s as [|c s IH]; simpl; [reflexivity|]. rewrite IH. reflexivity.
Qed.

Lemma substring_split (s : string) (a b : nat) :
  (a + b)%nat = String.length s ->
  s = (String.substring 0 a s ++ String.substring a b s)%string.
Proof.
  revert a b. induction s as [|c s IH]; intros a b Hab; simpl in Hab.
  - destruct a, b; try discriminate. reflexivity.
  - destruct a as [|a]; simpl.
    + destruct b as [|b]; [discriminate|]. simpl in Hab.
      injection Hab as Hb. subst b. rewrite substring_all. reflexivity.
    + simpl in Hab. injection Hab as Hab.
      change (String c s
              = String c (String.substring 0 a s ++ String.substring a b s)).
      f_equal. apply IH. exact Hab.
Qed.

Lemma substring_suffix (p s : string) :
  String.substring (String.length p) (String.length s) (p ++ s)%string = s.
Proof.
  induction p as [|c p IH]; simpl.
  - apply substring_all.
  - exact IH.
Qed.

Lemma length_append (p s : string) :
  String.length (p ++ s)%string = (String.length p + String.length s)%nat.
Proof.
  induction p as [|c p IH]; simpl; [reflexivity|]. rewrite IH. reflexivity.
Qed.

(** [endswith] decides whether the string ends with the suffix. *)
Lemma endswith_iff (s suffix : string) :
  endswith s suffix = true <-> exists p, s = (p ++ suffix)%string.
Proof.
  unfold endswith. rewrite andb_true_iff, Nat.leb_le, String.eqb_eq. split.
  - intros [Hle Hsub].
    exists (String.substring 0 (String.length s - String.length suffix) s).
    rewrite <- Hsub at 2. apply substring_split. lia.
  - intros [p ->]. rewrite length_append. split; [lia|].
    replace (String.length p + String.length suffix - String.length suffix)%nat
      with (String.length p) by lia.
    apply substring_suffix.
Qed.

Lemma default_val_batch_size_loss (parsed : Args) :
  loss (default_val_batch_size parsed) = loss parsed.
Proof. unfold default_val_batch_size. destruct (val_batch_size parsed); reflexivity. Qed.

Lemma default_val_batch_size_cls_weight (parsed : Args) :
  cls_weight (default_val_batch_size parsed) = cls_weight parsed.
Proof. unfold default_val_batch_size. destruct (val_batch_size parsed); reflexivity. Qed.

Lemma default_val_batch_size_embedding (parsed : Args) :
  embedding (default_val_batch_size parsed) = embedding parsed.
Proof. unfold default_val_batch_size. destruct (val_batch_size parsed); reflexivity. Qed.

(** The [compile] calls of a run pass the loss and the metric that
    [select_loss_metric] chooses for [--loss] and the loaded embedding. *)
Lemma run_compiles_selected (W : World) (parsed : Args) m opt sp :
  In (EvCompile m opt sp) (snd (run W parsed)) ->
  exists emb name,
    py_getitem (pickle_content W (embedding parsed)) "embedding" = Normal emb /\
    sp = compile_spec (cls_weight parsed) name
           (fst (select_loss_metric (loss parsed) emb))
           (snd (select_loss_metric (loss parsed) emb)).
Proof.
  intros Hin. pose proof (run_calls W parsed) as Hall.
  rewrite List.Forall_forall in Hall. specialize (Hall _ Hin).
  inversion Hall as [ev Hs | e ev He Ha | e ms ev He Hms Ht]; subst.
  - inversion Hs.
  - inversion Ha as [ev' Hb | b Hb Hg]; subst.
    inversion Hb as [| | | | | | ? ev' ? ? ? Hc]; subst. inversion Hc.
  - destruct He as [_ Hemb]. rewrite default_val_batch_size_embedding in Hemb.
    exists (fst e), (embedding_layer_name ms). split; [exact Hemb|].
    inversion Ht; subst;
      rewrite default_val_batch_size_loss, default_val_batch_size_cls_weight;
      reflexivity.
Qed.

(** C2.  The training loss is [utils.inv_correlation] when the name given
    to [--loss] ends with ['_corr'] and [utils.squared_distance] otherwise,
    in particular for ['mse']; the metric is ['accuracy'] exactly for
    ['softmax_corr'], [utils.nn_accuracy] with dot-product similarity for
    the other names that end with ['_corr'], and [utils.nn_accuracy] with
    distances otherwise; the four names [--loss] accepts are evaluated.
    Every [compile] call of a run passes this loss
    and this metric, for the embedding loaded from the pickle. *)
Theorem loss_and_metric_selection (W : World) (parsed : Args)
    (name : string) (emb : PyVal) :
  ((exists p, name = (p ++ "_corr")%string) ->
     fst (select_loss_metric name emb) = inv_correlation) /\
  (~ (exists p, name = (p ++ "_corr")%string) ->
     select_loss_metric name emb = (squared_distance, nn_accuracy emb false)) /\
  select_loss_metric "mse" emb = (squared_distance, nn_accuracy emb false) /\
  select_loss_metric "inv_corr" emb = (inv_correlation, nn_accuracy emb true) /\
  select_loss_metric "unnorm_corr" emb
    = (inv_correlation, nn_accuracy emb true) /\
  select_loss_metric "softmax_corr" emb
    = (inv_correlation, NamedMetric "accuracy") /\
  (snd (select_loss_metric name emb) = NamedMetric "accuracy" <->
     name = "softmax_corr") /\
  ((exists p, name = (p ++ "_corr")%string) -> name <> "softmax_corr" ->
     snd (select_loss_metric name emb) = nn_accuracy emb true) /\
  (forall m opt sp,
     In (EvCompile m opt sp) (snd (run W parsed)) ->
     exists loaded_emb layer,
       py_getitem (pickle_content W (embedding parsed)) "embedding"
         = Normal loaded_emb /\
       sp = compile_spec (cls_weight parsed) layer
              (fst (select_loss_metric (loss parsed) loaded_emb))
              (snd (select_loss_metric (loss parsed) loaded_emb))).
Proof.
  unfold select_loss_metric.
  split; [|split; [|split; [|split; [|split; [|split; [|split; [|split]]]]]]].
  - intros Hends. apply endswith_iff in Hends. rewrite Hends. reflexivity.
  - intros Hnot. destruct (endswith name "_corr") eqn:Hends; [|reflexivity].
    exfalso. apply Hnot. apply endswith_iff. exact Hends.
  - reflexivity.
  - reflexivity.
  - reflexivity.
  - reflexivity.
  - split.
    + destruct (endswith name "_corr"); simpl; [|discriminate].
      destruct (String.eqb_spec name "softmax_corr"); [tauto | discriminate].
    + intros ->. reflexivity.
  - intros Hends Hne. apply endswith_iff in Hends. rewrite Hends. simpl.
    destruct (String.eqb_spec name "softmax_corr"); [contradiction|].
    reflexivity.
  - intros m opt sp Hin. apply (run_compiles_selected W parsed m opt sp Hin).
Qed.

(** ** Defaulting the validation batch size changes nothing else *)

Ltac by_default :=
  unfold default_val_batch_size;
  match goal with
  | |- context [val_batch_size ?p] => destruct (val_batch_size p)
  end; reflexivity.

Lemma loaded_default (W : World) (parsed : Args) :
  loaded W (default_val_batch_size parsed) = loaded W parsed.
Proof. by_default. Qed.

Lemma data_of_default (W : World) (parsed : Args) :
  data_of W (default_val_batch_size parsed) = data_of W parsed.
Proof. by_default. Qed.

Lemma built_default (W : World) (parsed : Args) :
  built W (default_val_batch_size parsed) = built W parsed.
Proof. by_default. Qed.

Lemma replica_of_default (parsed : Args) :
  replica_of (default_val_batch_size parsed) = replica_of parsed.
Proof. by_default. Qed.

Lemma base_device_default (parsed : Args) :
  base_device (default_val_batch_size parsed) = base_device parsed.
Proof. by_default. Qed.

Lemma snapshot_to_resume_default (W : World) (parsed : Args) :
  snapshot_to_resume W (default_val_batch_size parsed)
  = snapshot_to_resume W parsed.
Proof. by_default. Qed.

Lemma default_val_batch_size_gpus (parsed : Args) :
  gpus (default_val_batch_size parsed) = gpus parsed.
Proof. by_default. Qed.

Lemma default_val_batch_size_gpu_merge (parsed : Args) :
  gpu_merge (default_val_batch_size parsed) = gpu_merge parsed.
Proof. by_default. Qed.

Lemma default_val_batch_size_snapshot (parsed : Args) :
  snapshot (default_val_batch_size parsed) = snapshot parsed.
Proof. by_default. Qed.

Lemma default_val_batch_size_architecture (parsed : Args) :
  architecture (default_val_batch_size parsed) = architecture parsed.
Proof. by_default. Qed.

Lemma default_val_batch_size_batch_size (parsed : Args) :
  batch_size (default_val_batch_size parsed) = batch_size parsed.
Proof. by_default. Qed.


(** ** Reading the calls of a run *)

(** A call on the trained model is a call of [run_training], made on the
    [par_model] that [assemble_models] returned. *)
Lemma run_trained_model (W : World) (parsed : Args) (ev : Event) (pm : Model) :
  In ev (snd (run W parsed)) ->
  trained_model ev = Some pm ->
  exists e ms,
    loaded W parsed e /\
    assembled W (default_val_batch_size parsed) (fst e)
      (data_of W parsed (snd e)) ms /\
    training_call W (default_val_batch_size parsed) (fst e)
      (data_of W parsed (snd e)) ms ev /\
    pm = par_model ms.
Proof.
  intros Hin Hpm. pose proof (run_calls W parsed) as Hall.
  rewrite List.Forall_forall in Hall. specialize (Hall _ Hin).
  inversion Hall as [ev' Hs | e ev' He Ha | e ms ev' He Hms Ht]; subst.
  - inversion Hs; subst; discriminate.
  - inversion Ha as [ev' Hb | b Hb Hg]; subst; [|discriminate].
    inversion Hb as [| | | | | | ? ev' ? ? ? Hc]; subst; try discriminate.
    inversion Hc; subst; discriminate.
  - rewrite loaded_default in He. rewrite data_of_default in Hms, Ht.
    exists e, ms. split; [exact He|]. split; [exact Hms|].
    split; [exact Ht|].
    inversion Ht; subst; simpl in Hpm; congruence.
Qed.

(** A graph-building call is a call of [assemble_models]. *)
Lemma run_construction (W : World) (parsed : Args) (ev : Event) :
  In ev (snd (run W parsed)) ->
  construction_device ev <> None ->
  exists e,
    loaded W parsed e /\
    assembly_call W (default_val_batch_size parsed) (fst e)
      (data_of W parsed (snd e)) DefaultDevice ev.
Proof.
  intros Hin Hdev. pose proof (run_calls W parsed) as Hall.
  rewrite List.Forall_forall in Hall. specialize (Hall _ Hin).
  inversion Hall as [ev' Hs | e ev' He Ha | e ms ev' He Hms Ht]; subst.
  - inversion Hs; subst; simpl in Hdev; congruence.
  - rewrite loaded_default in He. rewrite data_of_default in Ha.
    exists e. split; assumption.
  - inversion Ht; subst; simpl in Hdev; congruence.
Qed.

(** The base model is not a replica. *)
Lemma built_base_of (W : World) (args : Args) (emb : PyVal)
    (dg : DataGenerator) (b : Model * option Model * string) :
  built W args emb dg b -> base_of (fst (fst b)) = fst (fst b).
Proof.
  unfold built. destruct (snapshot_to_resume W args).
  - intros ->. reflexivity.
  - intros (dim & _ & _ & _ & Hm).
    destruct (float_positive (cls_weight args)).
    + destruct Hm as (base & _ & ->). reflexivity.
    + rewrite Hm. unfold embedding_model.
      destruct (String.eqb (loss args) "inv_corr"); [reflexivity|].
      destruct (String.eqb (loss args) "softmax_corr"); reflexivity.
Qed.

Lemma base_of_replica_of (W : World) (args : Args) (emb : PyVal)
    (dg : DataGenerator) (b : Model * option Model * string) :
  built W args emb dg b ->
  base_of (replica_of args (fst (fst b))) = fst (fst b).
Proof.
  intros Hb. unfold replica_of. destruct (gpus args <=? 1); [|reflexivity].
  eapply built_base_of. exact Hb.
Qed.

(** ** What has happened when the training starts *)

Section BeforeTraining.

Variable W : World.

Lemma logged_first {A B} dev (m : M A) (k : A -> M B) (ev : Event) :
  returns_with dev m (fun _ l => In ev l) ->
  returns_with dev (bind m k) (fun _ l => In ev l).
Proof.
  intros Hm. eapply returns_with_bind; [exact Hm|].
  intros a l1 Hin. apply returns_with_any. intros b l2.
  apply in_or_app. left. exact Hin.
Qed.

Lemma logged_later {A B} dev (m : M A) (k : A -> M B) (ev : Event) :
  (forall a, returns_with dev (k a) (fun _ l => In ev l)) ->
  returns_with dev (bind m k) (fun _ l => In ev l).
Proof.
  intros Hk.
  apply (returns_with_bind dev m k (fun _ _ => True));
    [apply returns_with_any; intros; exact I|].
  intros a l1 _. eapply returns_with_weaken; [apply Hk|].
  intros b l2 Hin. apply in_or_app. right. exact Hin.
Qed.

Lemma logged_call dev (ev : Event) :
  returns_with dev (call W ev) (fun _ l => In ev l).
Proof. apply returns_with_call. left. reflexivity. Qed.

Lemma logged_call_on_device dev (ev : Device -> Event) :
  returns_with dev (call_on_device W ev) (fun _ l => In (ev dev) l).
Proof. apply returns_with_call_on_device. left. reflexivity. Qed.

(** When [cls_model] returns it has made exactly the three layer calls of
    the classifier and the call for the new model, in this order. *)
Lemma cls_model_log (embed_model : Model) (num_classes : Z)
    (cls_base : option string) dev :
  returns_with dev (cls_model W embed_model num_classes cls_base)
    (fun m l =>
       exists base,
         selected_base W embed_model cls_base = Normal base /\
         m = KerasModel embed_model
               [OutputOf embed_model; classifier_on num_classes base] /\
         l = map (fun c => EvCallLayer dev (fst c) (snd c))
                 (classifier_calls num_classes base)
             ++ [EvNewModel dev embed_model
                   [OutputOf embed_model; classifier_on num_classes base]]).
Proof.
  intros h m. unfold cls_model. rewrite bind_run.
  assert (Hbase :
    match cls_base with
    | Some name =>
        try_except is_ValueError
          (i <- lift (int_of_str W name) ;;
           k <- lift (layer_at W embed_model i) ;;
           ret (LayerOutput embed_model k))
          (fun _ =>
           k <- lift (get_layer W embed_model name) ;;
           ret (LayerOutput embed_model k))
    | None => ret (OutputOf embed_model)
    end dev h = (selected_base W embed_model cls_base, [])).
  { destruct cls_base as [name|];
      [apply cls_model_base_run | reflexivity]. }
  rewrite Hbase. cbn [fst snd].
  destruct (selected_base W embed_model cls_base) as [base|e];
    [|discriminate].
  unfold apply_layer, new_model, call_on_device, call, bind, ret.
  repeat match goal with
         | |- context [raises W ?h0 ?ev] => destruct (raises W h0 ev)
         end; cbn [fst snd]; try discriminate.
  intros Hm. inversion Hm; subst m. exists base.
  split; [reflexivity|]. split; reflexivity.
Qed.

(** A run that resumes has loaded the snapshot when the models are
    assembled. *)
Lemma build_or_resume_loads (args : Args) (emb : PyVal) (dg : DataGenerator)
    dev path :
  snapshot_to_resume W args = Some path ->
  returns_with dev (build_or_resume W args emb dg)
    (fun _ l => In (EvLoadModel dev path (architecture args)) l).
Proof.
  intros Hsnap. unfold build_or_resume. rewrite Hsnap.
  apply logged_later. intros _. apply logged_later. intros _.
  apply logged_first.
  apply (logged_call_on_device dev
           (fun d => EvLoadModel d path (architecture args))).
Qed.

(** A run that builds its model has called [utils.build_network], and for
    a positive [--cls_weight] made the layers of the classifier and the
    model with the two outputs. *)
Lemma build_or_resume_builds (args : Args) (emb : PyVal) (dg : DataGenerator)
    dev :
  snapshot_to_resume W args = None ->
  returns_with dev (build_or_resume W args emb dg)
    (fun b l =>
       (exists dim, In (EvBuildNetwork dev dim (architecture args)) l) /\
       (float_positive (cls_weight args) = true ->
        exists em base,
          selected_base W em (cls_base args) = Normal base /\
          fst (fst b) = KerasModel em
            [OutputOf em; classifier_on (dg_num_classes dg) base] /\
          Forall (fun c => In (EvCallLayer dev (fst c) (snd c)) l)
                 (classifier_calls (dg_num_classes dg) base) /\
          In (EvNewModel dev em
                [OutputOf em; classifier_on (dg_num_classes dg) base]) l)).
Proof.
  intros Hsnap. unfold build_or_resume. rewrite Hsnap.
  apply (returns_with_bind dev _ _ (fun _ _ => True));
    [apply returns_with_any; intros; exact I|].
  intros dim l0 _.
  apply (returns_with_bind dev _ _
           (fun _ l => In (EvBuildNetwork dev dim (architecture args)) l)).
  { apply (logged_call_on_device dev
             (fun d => EvBuildNetwork d dim (architecture args))). }
  intros _ l1 Hbuild.
  apply (returns_with_bind dev _ _ (fun _ _ => True));
    [apply returns_with_any; intros; exact I|].
  intros p l2 _.
  assert (Hdim : forall l3 : list Event,
            exists d,
              In (EvBuildNetwork dev d (architecture args))
                 (l0 ++ l1 ++ l2 ++ l3 ++ [])).
  { intros l3. exists dim. rewrite !in_app_iff. tauto. }
  destruct (float_positive (cls_weight args)).
  - eapply returns_with_bind; [apply cls_model_log|].
    intros m l3 (base & Hbase & Hm & Hl3).
    apply returns_with_ret. cbn [fst snd]. split; [apply Hdim|].
    intros _. exists (fst p), base.
    split; [exact Hbase|]. split; [exact Hm|]. subst l3. split.
    + apply Forall_forall. intros c Hc. rewrite !in_app_iff.
      right. right. right. left. left. apply in_map_iff.
      exists c. split; [reflexivity|]. apply list_elem_of_In. exact Hc.
    + rewrite !in_app_iff. right. right. right. left. right.
      left. reflexivity.
  - apply (returns_with_bind dev _ _ (fun _ _ => True));
      [apply returns_with_any; intros; exact I|].
    intros m l3 _. apply returns_with_ret. split; [apply Hdim|].
    discriminate.
Qed.

(** When [assemble_models] returns, the snapshot was loaded or the network
    built on the device of the base model, and the replica was made when
    there is more than one GPU. *)
Lemma assemble_models_log (args : Args) (emb : PyVal) (dg : DataGenerator)
    dev :
  returns_with dev (assemble_models W args emb dg)
    (fun ms l =>
       (forall path, snapshot_to_resume W args = Some path ->
          In (EvLoadModel (base_device args dev) path (architecture args)) l) /\
       (snapshot_to_resume W args = None ->
          (exists dim,
             In (EvBuildNetwork (base_device args dev) dim (architecture args))
                l) /\
          (float_positive (cls_weight args) = true ->
           exists em base,
             selected_base W em (cls_base args) = Normal base /\
             model ms = KerasModel em
               [OutputOf em; classifier_on (dg_num_classes dg) base] /\
             Forall (fun c => In (EvCallLayer (base_device args dev)
                                    (fst c) (snd c)) l)
                    (classifier_calls (dg_num_classes dg) base) /\
             In (EvNewModel (base_device args dev) em
                   [OutputOf em; classifier_on (dg_num_classes dg) base]) l)) /\
       (1 < gpus args ->
          In (EvMultiGpuModel dev (model ms) (gpus args)
                (if gpu_merge args then Some false else None)) l)).
Proof.
  pose (Q := fun (d : Device) (b : Model * option Model * string)
                 (l : list Event) =>
    (forall path, snapshot_to_resume W args = Some path ->
       In (EvLoadModel d path (architecture args)) l) /\
    (snapshot_to_resume W args = None ->
       (exists dim, In (EvBuildNetwork d dim (architecture args)) l) /\
       (float_positive (cls_weight args) = true ->
        exists em base,
          selected_base W em (cls_base args) = Normal base /\
          fst (fst b) = KerasModel em
            [OutputOf em; classifier_on (dg_num_classes dg) base] /\
          Forall (fun c => In (EvCallLayer d (fst c) (snd c)) l)
                 (classifier_calls (dg_num_classes dg) base) /\
          In (EvNewModel d em
                [OutputOf em; classifier_on (dg_num_classes dg) base]) l))).
  assert (Hbuild : forall d, returns_with d (build_or_resume W args emb dg) (Q d)).
  { intros d h b Hb. split.
    - intros path Hsnap.
      exact (build_or_resume_loads args emb dg d path Hsnap h b Hb).
    - intros Hsnap. exact (build_or_resume_builds args emb dg d Hsnap h b Hb). }
  assert (Hmono : forall d b l l', Q d b l -> Q d b (l ++ l')).
  { intros d b l l' [Hload Hbuilt]. split.
    - intros path Hsnap. apply in_or_app. left. apply Hload, Hsnap.
    - intros Hsnap. destruct (Hbuilt Hsnap) as [[dim Hdim] Hcls]. split.
      + exists dim. apply in_or_app. left. exact Hdim.
      + intros Hcw. destruct (Hcls Hcw) as (em & base & H1 & H2 & H3 & H4).
        exists em, base. split; [exact H1|]. split; [exact H2|]. split.
        * eapply Forall_impl; [exact H3|]. intros c Hc.
          apply in_or_app. left. exact Hc.
        * apply in_or_app. left. exact H4. }
  unfold assemble_models, base_device.
  destruct ((gpus args <=? 1) || gpu_merge args) eqn:Hbranch.
  - eapply returns_with_bind; [apply Hbuild|].
    intros b l1 Hb.
    destruct (gpus args <=? 1) eqn:Hgpus.
    + apply (returns_with_bind dev _ _ (fun _ _ => True));
        [apply returns_with_any; intros; exact I|].
      intros par l2 _. apply returns_with_ret. cbn [model].
      destruct (Hmono _ _ _ (l2 ++ []) Hb) as [H1 H2].
      split; [exact H1|]. split; [exact H2|].
      intros Hg. apply Z.leb_le in Hgpus. lia.
    + simpl in Hbranch. rewrite Hbranch.
      apply (returns_with_bind dev _ _
               (fun _ l => In (EvMultiGpuModel dev (fst (fst b)) (gpus args)
                                 (Some false)) l)).
      { apply logged_first.
        apply (logged_call_on_device dev
                 (fun d => EvMultiGpuModel d (fst (fst b)) (gpus args)
                             (Some false))). }
      intros par l2 Hrep. apply returns_with_ret. cbn [model].
      destruct (Hmono _ _ _ (l2 ++ []) Hb) as [H1 H2].
      split; [exact H1|]. split; [exact H2|].
      intros _. rewrite !in_app_iff. right. left. exact Hrep.
  - apply orb_false_iff in Hbranch. destruct Hbranch as [Hgpus Hmerge].
    eapply returns_with_bind;
      [apply returns_with_device; apply Hbuild|].
    intros b l1 Hb.
    apply (returns_with_bind dev _ _
             (fun _ l => In (EvMultiGpuModel dev (fst (fst b)) (gpus args)
                               None) l)).
    { apply (logged_call_on_device dev
               (fun d => EvMultiGpuModel d (fst (fst b)) (gpus args) None)). }
    intros _ l2 Hrep. apply returns_with_ret. cbn [model]. rewrite Hmerge.
    destruct (Hmono _ _ _ (l2 ++ []) Hb) as [H1 H2].
    split; [exact H1|]. split; [exact H2|].
    intros _. rewrite !in_app_iff. right. left. exact Hrep.
Qed.

(** A run makes no call on the trained model before [assemble_models] has
    returned the models; what follows is [run_training] on them. *)
Lemma main_reaches_training (parsed : Args) :
  reaches DefaultDevice (main W parsed)
    (fun ev => trained_model ev = None)
    (fun h' r l2 =>
       exists e ms h,
         loaded W parsed e /\
         fst (assemble_models W (default_val_batch_size parsed) (fst e)
                (data_of W parsed (snd e)) DefaultDevice h) = Normal ms /\
         (exists hb,
            h' = (h ++ snd (assemble_models W (default_val_batch_size parsed)
                              (fst e) (data_of W parsed (snd e))
                              DefaultDevice h)) ++ hb) /\
         l2 = snd (run_training W (default_val_batch_size parsed) (fst e)
                     (data_of W parsed (snd e)) ms DefaultDevice h')).
Proof.
  unfold main. cbv zeta.
  set (args := default_val_batch_size parsed).
  apply (reaches_bind _ _ _ _ (fun _ => True));
    [apply spec_emit; reflexivity|].
  intros _ _.
  apply (reaches_bind _ _ _ _ (loaded W args)).
  { eapply spec_weaken;
      [apply load_class_embeddings_spec | | intros a Ha; exact Ha].
    intros ev Hev. inversion Hev; reflexivity. }
  intros e He.
  apply (reaches_bind _ _ _ _ (fun dg => dg = data_of W args (snd e))).
  { unfold load_dataset.
    apply spec_seq; [apply spec_emit; reflexivity | apply spec_ret; reflexivity]. }
  intros dg ->.
  eapply reaches_weaken.
  - apply (reaches_bind_then _ _ _ _ (fun _ => True)
             (fun ms h' r l2 =>
                l2 = snd (run_training W args (fst e) (data_of W args (snd e))
                            ms DefaultDevice h'))).
    + eapply spec_weaken; [apply assemble_models_spec | | intros; exact I].
      intros ev Hev. inversion Hev as [ev' Hb | b Hb Hg]; subst; [|reflexivity].
      inversion Hb as [| | | | | | ? ev' ? ? ? Hc]; subst; try reflexivity.
      inversion Hc; reflexivity.
    + intros ms _. apply reaches_here. intros h. reflexivity.
  - intros h' r l2 (ms & h & _ & Hms & Hh & Hl2). subst args.
    rewrite loaded_default in He. rewrite data_of_default in Hms, Hh, Hl2.
    exists e, ms, h. auto.
Qed.

(** A call on the trained model is made after [assemble_models] returned:
    on the [par_model] it returned, and with its calls in the log. *)
Lemma run_assembled (parsed : Args) (ev : Event) (pm : Model) :
  In ev (snd (run W parsed)) ->
  trained_model ev = Some pm ->
  exists e ms h,
    loaded W parsed e /\
    fst (assemble_models W (default_val_batch_size parsed) (fst e)
           (data_of W parsed (snd e)) DefaultDevice h) = Normal ms /\
    assembled W (default_val_batch_size parsed) (fst e)
      (data_of W parsed (snd e)) ms /\
    (forall x,
       In x (snd (assemble_models W (default_val_batch_size parsed) (fst e)
                    (data_of W parsed (snd e)) DefaultDevice h)) ->
       In x (snd (run W parsed))) /\
    pm = par_model ms.
Proof.
  intros Hin Hpm. unfold run in *.
  destruct (main_reaches_training parsed [])
    as [[Hall _] | (l1 & l2 & Hsplit & Hpre & (e & ms & h & He & Hms & [hb Hh] & Hl2))].
  { rewrite List.Forall_forall in Hall. specialize (Hall _ Hin). congruence. }
  simpl in Hh, Hl2. exists e, ms, h.
  split; [exact He|]. split; [exact Hms|].
  split; [exact (proj2 (assemble_models_spec W _ _ _ _ h) ms Hms)|]. split.
  - intros x Hx. rewrite Hsplit. apply in_or_app. left.
    rewrite Hh. rewrite !in_app_iff. tauto.
  - rewrite Hsplit in Hin. apply in_app_or in Hin. destruct Hin as [Hin | Hin].
    + rewrite List.Forall_forall in Hpre. specialize (Hpre _ Hin). congruence.
    + rewrite Hl2 in Hin.
      pose proof (proj1 (run_training_spec W (default_val_batch_size parsed)
                           (fst e) (data_of W parsed (snd e)) ms
                           DefaultDevice l1)) as Hcalls.
      rewrite List.Forall_forall in Hcalls. specialize (Hcalls _ Hin).
      inversion Hcalls; subst; simpl in Hpm; congruence.
Qed.

(** What the log of a run holds once a call on the trained model [pm] is
    made: the snapshot was loaded, or the network was built (and for a
    positive [--cls_weight] extended by the classifier), on the device of
    the base model; and with more than one GPU the replica was made. *)
Lemma run_assembly_logged (parsed : Args) (ev : Event) (pm : Model) :
  In ev (snd (run W parsed)) ->
  trained_model ev = Some pm ->
  (forall path,
     snapshot_to_resume W parsed = Some path ->
     In (EvLoadModel (base_device parsed DefaultDevice) path
           (architecture parsed)) (snd (run W parsed))) /\
  (snapshot_to_resume W parsed = None ->
     (exists dim,
        In (EvBuildNetwork (base_device parsed DefaultDevice) dim
              (architecture parsed)) (snd (run W parsed))) /\
     (float_positive (cls_weight parsed) = true ->
      exists e em base,
        loaded W parsed e /\
        selected_base W em (cls_base parsed) = Normal base /\
        base_of pm = KerasModel em
          [OutputOf em;
           classifier_on (dg_num_classes (data_of W parsed (snd e))) base] /\
        Forall (fun c => In (EvCallLayer (base_device parsed DefaultDevice)
                               (fst c) (snd c)) (snd (run W parsed)))
               (classifier_calls
                  (dg_num_classes (data_of W parsed (snd e))) base) /\
        In (EvNewModel (base_device parsed DefaultDevice) em
              [OutputOf em;
               classifier_on (dg_num_classes (data_of W parsed (snd e))) base])
           (snd (run W parsed)))) /\
  (1 < gpus parsed ->
     In (EvMultiGpuModel DefaultDevice (base_of pm) (gpus parsed)
           (if gpu_merge parsed then Some false else None))
        (snd (run W parsed))).
Proof.
  intros Hin Hpm.
  destruct (run_assembled parsed ev pm Hin Hpm)
    as (e & ms & h & He & Hms & [Hb Hpar] & Hincl & ->).
  pose proof (assemble_models_log (default_val_batch_size parsed) (fst e)
                (data_of W parsed (snd e)) DefaultDevice h ms Hms)
    as (Hload & Hbuilt & Hrep).
  pose proof (base_of_replica_of _ _ _ _ _ Hb) as Hbase.
  cbn [fst snd] in Hbase. rewrite <- Hpar in Hbase.
  rewrite snapshot_to_resume_default, base_device_default,
          default_val_batch_size_architecture in *.
  rewrite default_val_batch_size_gpus, default_val_batch_size_gpu_merge in Hrep.
  rewrite default_val_batch_size_cls_weight in Hbuilt.
  split; [|split].
  - intros path Hsnap. apply Hincl, Hload, Hsnap.
  - intros Hsnap. destruct (Hbuilt Hsnap) as [[dim Hdim] Hcls]. split.
    + exists dim. apply Hincl, Hdim.
    + intros Hcw. destruct (Hcls Hcw) as (em & base & H1 & H2 & H3 & H4).
      exists e, em, base. split; [exact He|].
      split.
      { replace (cls_base parsed)
          with (cls_base (default_val_batch_size parsed)); [exact H1|].
        unfold default_val_batch_size.
        destruct (val_batch_size parsed); reflexivity. } split; [rewrite Hbase; exact H2|]. split.
      * eapply Forall_impl; [exact H3|]. intros c Hc. apply Hincl, Hc.
      * apply Hincl, H4.
  - intros Hg. rewrite Hbase. apply Hincl, Hrep, Hg.
Qed.

End BeforeTraining.

(** ** Claim C1 *)

(** The sequences of a run transform their batches with the embedding
    matrix loaded from the pickle, and with the number of classes exactly
    when [--cls_weight] is positive (lines 148-151). *)
Lemma run_sequences (W : World) (parsed : Args) (ev : Event) (s : Sequence)
    (kw : TransformKwargs) :
  In ev (snd (run W parsed)) ->
  In s (event_sequences ev) ->
  sequence_kwargs s = Some kw ->
  exists e,
    loaded W parsed e /\
    kw = batch_transform_kwargs parsed (fst e) (data_of W parsed (snd e)).
Proof.
  intros Hin Hseq Hkw.
  pose proof (run_calls W parsed) as Hall.
  rewrite List.Forall_forall in Hall. specialize (Hall _ Hin).
  inversion Hall as [ev' Hs | e ev' He Ha | e ms ev' He Hms Ht]; subst.
  - inversion Hs; subst; simpl in Hseq; contradiction.
  - inversion Ha as [ev' Hb | b Hb Hg]; subst; [|simpl in Hseq; contradiction].
    inversion Hb as [| | | | | | ? ev' ? ? ? Hc]; subst;
      try (simpl in Hseq; contradiction).
    inversion Hc; subst; simpl in Hseq; contradiction.
  - rewrite loaded_default in He. rewrite data_of_default in *.
    exists e. split; [exact He|].
    assert (Hbk : batch_transform_kwargs (default_val_batch_size parsed)
                    (fst e) (data_of W parsed (snd e))
                  = batch_transform_kwargs parsed (fst e)
                      (data_of W parsed (snd e))).
    { unfold batch_transform_kwargs.
      rewrite default_val_batch_size_cls_weight. reflexivity. }
    inversion Ht; subst; simpl in Hseq;
      repeat match goal with
             | H : _ \/ _ |- _ => destruct H
             | H : False |- _ => contradiction
             end;
      subst s; simpl in Hkw; try discriminate;
      inversion Hkw; subst kw; exact Hbk.
Qed.

(** C1.  For a batch [(X, y)] whose labels index the rows of the loaded
    embedding matrix, [transform_inputs] returns [X] unchanged together
    with the regression target [embedding[y]]: a matrix with the columns
    of the embedding and one row per image, the row at position [i] being
    the row of the embedding at the label [y[i]], counted from the end
    when the label is negative.  Without [num_classes] the result is
    [(X, embedding[y])]; with [num_classes = n] it is
    [(X, [embedding[y], to_categorical(y, n)])], as far as
    [to_categorical] returns.  In every run the training and validation
    sequences call it with the embedding matrix loaded from the pickle,
    and with the number of classes of the data set when [--cls_weight] is
    positive and [None] otherwise. *)
Theorem transform_inputs_targets
    (to_categorical : list Z -> Z -> Res ndarray)
    (XT : Type) (X : XT) (y : list Z) (a : ndarray)
    (W : World) (parsed : Args) :
  Forall (fun l => - Z.of_nat (length (nd_rows a)) <= l
                   < Z.of_nat (length (nd_rows a))) y ->
  (exists t,
     take_rows (VArray a) y = Normal (VArray t) /\
     nd_cols t = nd_cols a /\
     length (nd_rows t) = length y /\
     (forall i l, y !! i = Some l ->
        exists row,
          nd_rows a !! Z.to_nat (if l <? 0
                                 then l + Z.of_nat (length (nd_rows a))
                                 else l) = Some row /\
          py_index (nd_rows a) l = Normal row /\
          nd_rows t !! i = Some row) /\
     transform_inputs to_categorical X y (VArray a) None
       = Normal (X, EmbeddingTarget (VArray t)) /\
     (forall n c, to_categorical y n = Normal c ->
        transform_inputs to_categorical X y (VArray a) (Some n)
          = Normal (X, EmbeddingAndClassTargets (VArray t) c)) /\
     (forall n r, transform_inputs to_categorical X y (VArray a) (Some n)
                    = Normal r ->
        fst r = X /\ regression_target (snd r) = VArray t)) /\
  (forall ev s kw,
     In ev (snd (run W parsed)) ->
     In s (event_sequences ev) ->
     sequence_kwargs s = Some kw ->
     exists e,
       loaded W parsed e /\
       kw_embedding kw = fst e /\
       kw_num_classes kw
         = (if float_positive (cls_weight parsed)
            then Some (dg_num_classes (data_of W parsed (snd e)))
            else None)).
Proof.
  intros Hy. split.
  - destruct (res_map_total (py_index (nd_rows a)) y) as [rs Hrs].
    { eapply Forall_impl; [exact Hy|]. intros l Hl. simpl in Hl.
      apply py_index_in_range. exact Hl. }
    destruct (res_map_Normal _ _ _ Hrs) as [Hlen Hrows].
    exists {| nd_cols := nd_cols a; nd_rows := rs |}.
    assert (Ht : take_rows (VArray a) y
                 = Normal (VArray {| nd_cols := nd_cols a; nd_rows := rs |})).
    { unfold take_rows. rewrite Hrs. reflexivity. }
    split; [exact Ht|]. split; [reflexivity|]. split; [exact Hlen|]. split.
    { intros i l Hl. destruct (Hrows i l Hl) as (row & Hrow & Hi).
      exists row. split; [exact (py_index_position _ _ _ Hrow)|].
      split; [exact Hrow | exact Hi]. }
    unfold transform_inputs. rewrite Ht. simpl.
    split; [reflexivity|]. split.
    + intros n c Hc. rewrite Hc. reflexivity.
    + intros n r Hr. destruct (to_categorical y n); simpl in Hr; [|discriminate].
      inversion Hr; subst. split; reflexivity.
  - intros ev s kw Hin Hseq Hkw.
    destruct (run_sequences W parsed ev s kw Hin Hseq Hkw) as (e & He & ->).
    exists e. split; [exact He|]. split; reflexivity.
Qed.

Lemma transform_inputs_targets_witness :
  (exists t,
     take_rows (VArray sample_embedding) [2; 0; -1] = Normal (VArray t) /\
     nd_cols t = nd_cols sample_embedding /\
     length (nd_rows t) = length [2; 0; -1] /\
     (forall i l, [2; 0; -1] !! i = Some l ->
        exists row,
          nd_rows sample_embedding
            !! Z.to_nat (if l <? 0
                         then l + Z.of_nat (length (nd_rows sample_embedding))
                         else l) = Some row /\
          py_index (nd_rows sample_embedding) l = Normal row /\
          nd_rows t !! i = Some row) /\
     transform_inputs one_hot "images" [2; 0; -1] (VArray sample_embedding) None
       = Normal ("images", EmbeddingTarget (VArray t)) /\
     (forall n c, one_hot [2; 0; -1] n = Normal c ->
        transform_inputs one_hot "images" [2; 0; -1] (VArray sample_embedding)
                         (Some n)
          = Normal ("images", EmbeddingAndClassTargets (VArray t) c)) /\
     (forall n r, transform_inputs one_hot "images" [2; 0; -1]
                    (VArray sample_embedding) (Some n) = Normal r ->
        fst r = "images" /\ regression_target (snd r) = VArray t)) /\
  (forall ev s kw,
     In ev (snd (run sample_world default_args)) ->
     In s (event_sequences ev) ->
     sequence_kwargs s = Some kw ->
     exists e,
       loaded sample_world default_args e /\
       kw_embedding kw = fst e /\
       kw_num_classes kw
         = (if float_positive (cls_weight default_args)
            then Some (dg_num_classes (data_of sample_world default_args (snd e)))
            else None)).
Proof.
  apply (transform_inputs_targets one_hot string "images" [2; 0; -1]
           sample_embedding sample_world default_args).
  repeat constructor; simpl; lia.
Defined.

(** The targets of the sample batch: the rows 2, 0 and 2 of the sample
    matrix, each a different row of it, and with three classes their
    one-hot vectors next to them. *)
Example transform_inputs_sample :
  transform_inputs one_hot "images" [2; 0; -1] (VArray sample_embedding) None
    = Normal ("images",
              EmbeddingTarget
                (VArray {| nd_cols := 2;
                           nd_rows := [[0.5; 0.5]; [1; 0]; [0.5; 0.5]]%float |})) /\
  transform_inputs one_hot "images" [1; 0] (VArray sample_embedding) (Some 3)
    = Normal ("images",
              EmbeddingAndClassTargets
                (VArray {| nd_cols := 2;
                           nd_rows := [[0; 1]; [1; 0]]%float |})
                {| nd_cols := 3;
                   nd_rows := [[0; 1; 0]; [1; 0; 0]]%float |}) /\
  transform_inputs one_hot "images" [3] (VArray sample_embedding) None
    = Raise IndexError.
Proof. repeat split; vm_compute; reflexivity. Qed.

(** ** Claim C10 *)



(** ** Claim C6 *)

Lemma build_call_device (W : World) (args : Args) (emb : PyVal)
    (dg : DataGenerator) (dev : Device) (ev : Event) :
  build_call W args emb dg dev ev ->
  builds_base_model ev = true ->
  construction_device ev = Some dev.
Proof.
  intros Hb Hev.
  inversion Hb as [| | | | | | ? ev' ? ? ? Hc]; subst;
    try reflexivity; try discriminate.
  inversion Hc; subst; reflexivity.
Qed.

(** C6.  In every run the model that is compiled, fitted, evaluated and
    used for prediction is the base model itself when [--gpus] is at most
    1; otherwise it is the multi-GPU replica of the base model, made with
    [cpu_merge = False] when [--gpu_merge] is set and without that argument
    when it is not.  The calls that make the base model are placed on the
    device of the run, except with more than one GPU and no [--gpu_merge],
    where they are placed on ['/cpu:0']; the replica is always made on the
    device of the run, and with more than one GPU it has been made, by a
    logged [multi_gpu_model] call, in every run that reaches a call on the
    trained model. *)
Theorem fitted_model_and_devices (W : World) (parsed : Args) :
  (forall ev pm,
     In ev (snd (run W parsed)) ->
     trained_model ev = Some pm ->
     exists e b,
       loaded W parsed e /\
       built W parsed (fst e) (data_of W parsed (snd e)) b /\
       base_of pm = fst (fst b) /\
       (gpus parsed <= 1 -> pm = fst (fst b)) /\
       (1 < gpus parsed -> gpu_merge parsed = true ->
        pm = MultiGpuModel (fst (fst b)) (gpus parsed) (Some false)) /\
       (1 < gpus parsed -> gpu_merge parsed = false ->
        pm = MultiGpuModel (fst (fst b)) (gpus parsed) None)) /\
  (forall ev,
     In ev (snd (run W parsed)) ->
     builds_base_model ev = true ->
     construction_device ev =
     Some (if (gpus parsed <=? 1) || gpu_merge parsed then DefaultDevice
           else NamedDevice "/cpu:0")) /\
  (forall dev m g c,
     In (EvMultiGpuModel dev m g c) (snd (run W parsed)) ->
     1 < gpus parsed /\ g = gpus parsed /\ dev = DefaultDevice /\
     c = (if gpu_merge parsed then Some false else None) /\
     exists e b,
       loaded W parsed e /\
       built W parsed (fst e) (data_of W parsed (snd e)) b /\
       m = fst (fst b)) /\
  (forall ev pm,
     In ev (snd (run W parsed)) ->
     trained_model ev = Some pm ->
     1 < gpus parsed ->
     In (EvMultiGpuModel DefaultDevice (base_of pm) (gpus parsed)
           (if gpu_merge parsed then Some false else None))
        (snd (run W parsed))).
Proof.
  split; [|split; [|split]].
  - intros ev pm Hin Hpm.
    destruct (run_trained_model W parsed ev pm Hin Hpm)
      as (e & ms & He & [Hb Hpar] & _ & ->).
    rewrite built_default in Hb. rewrite replica_of_default in Hpar.
    exists e, (model ms, embed_model ms, embedding_layer_name ms).
    split; [exact He|]. split; [exact Hb|]. cbn [fst snd].
    rewrite Hpar. split; [exact (base_of_replica_of _ _ _ _ _ Hb)|].
    unfold replica_of.
    split; [|split].
    + intros Hg. apply Z.leb_le in Hg. rewrite Hg. reflexivity.
    + intros Hg ->.
      replace (gpus parsed <=? 1) with false
        by (symmetry; apply Z.leb_gt; lia). reflexivity.
    + intros Hg ->.
      replace (gpus parsed <=? 1) with false
        by (symmetry; apply Z.leb_gt; lia). reflexivity.
  - intros ev Hin Hev.
    assert (Hdev : construction_device ev <> None)
      by (destruct ev; simpl in *; congruence).
    destruct (run_construction W parsed ev Hin Hdev) as (e & He & Ha).
    inversion Ha as [ev' Hb | b Hb Hg]; subst; [|discriminate].
    rewrite (build_call_device _ _ _ _ _ _ Hb Hev).
    rewrite base_device_default. reflexivity.
  - intros dev m g c Hin.
    destruct (run_construction W parsed _ Hin) as (e & He & Ha);
      [simpl; congruence|].
    inversion Ha as [ev' Hb | b Hb Hg]; subst.
    + inversion Hb as [| | | | | | ? ev' ? ? ? Hc]; subst. inversion Hc.
    + rewrite default_val_batch_size_gpus in *.
      rewrite default_val_batch_size_gpu_merge.
      rewrite built_default in Hb.
      split; [exact Hg|]. split; [reflexivity|]. split; [reflexivity|].
      split; [reflexivity|]. exists e, b. split; [exact He|].
      split; [exact Hb | reflexivity].
  - intros ev pm Hin Hpm.
    exact (proj2 (proj2 (run_assembly_logged W parsed ev pm Hin Hpm))).
Qed.

(** ** Claim C3 *)

Lemma embedding_model_no_classifier (loss_name : string) (net : Model) :
  (forall m outs, net <> KerasModel m outs) ->
  ~ has_classifier (fst (embedding_model loss_name net)).
Proof.
  intros Hnet (em & n & base & Hwith). unfold with_classifier in Hwith.
  unfold embedding_model in Hwith.
  destruct (String.eqb loss_name "inv_corr"); [discriminate|].
  destruct (String.eqb loss_name "softmax_corr"); [discriminate|].
  simpl in Hwith. exact (Hnet _ _ Hwith).
Qed.

Lemma embedding_layer_not_prob (loss_name : string) (net : Model) :
  snd (embedding_model loss_name net) <> "prob".
Proof.
  unfold embedding_model.
  destruct (String.eqb loss_name "inv_corr"); [discriminate|].
  destruct (String.eqb loss_name "softmax_corr"); discriminate.
Qed.

Lemma built_layer_not_prob (W : World) (args : Args) (emb : PyVal)
    (dg : DataGenerator) (b : Model * option Model * string) :
  built W args emb dg b -> snd b <> "prob".
Proof.
  unfold built. destruct (snapshot_to_resume W args).
  - intros ->. discriminate.
  - intros (dim & _ & _ & -> & _). apply embedding_layer_not_prob.
Qed.

(** A model that was built has a classifier exactly when [--cls_weight]
    is positive. *)
Lemma built_classifier (W : World) (args : Args) (emb : PyVal)
    (dg : DataGenerator) (b : Model * option Model * string) :
  built W args emb dg b ->
  snapshot_to_resume W args = None ->
  (has_classifier (fst (fst b)) <-> float_positive (cls_weight args) = true) /\
  (float_positive (cls_weight args) = true ->
   exists em base,
     selected_base W em (cls_base args) = Normal base /\
     fst (fst b) = KerasModel em
       [OutputOf em;
        Call (Dense (dg_num_classes dg) "softmax" (L2 f_5e_4) "prob")
          (Call BatchNormalization (Call (Activation "relu" None) base))]).
Proof.
  unfold built. intros Hb Hsnap. rewrite Hsnap in Hb.
  destruct Hb as (dim & _ & _ & _ & Hm).
  destruct (float_positive (cls_weight args)).
  - destruct Hm as (base & Hbase & Hwith). split.
    + split; [reflexivity|]. intros _. eexists _, _, base. exact Hwith.
    + intros _. eexists _, base. split; [exact Hbase | exact Hwith].
  - split; [|discriminate]. split; [|discriminate].
    rewrite Hm. intros Hhas. exfalso.
    eapply embedding_model_no_classifier; [|exact Hhas]. discriminate.
Qed.

(** C3, as the code has it.  In every run that builds its model (there is
    no snapshot to resume from), the trained model has a classification
    head if and only if [--cls_weight] is positive; the head is the one
    [cls_model] appends: a ReLU activation, batch normalisation and a
    softmax layer named ['prob'], next to the unchanged embedding output,
    and the three layer calls and the call that makes the two-output model
    are in the log; in no run is such a layer made unless [--cls_weight] is
    positive.  In every run with a positive [--cls_weight] each [compile]
    call weights the cross-entropy of ['prob'] by [cls_weight] and the loss
    of one other output by 1.0, and in a run that builds its model that
    output is the embedding output; otherwise there is one loss and no
    weights. *)
Theorem classifier_head_when_built (W : World) (parsed : Args) :
  (forall ev pm,
     In ev (snd (run W parsed)) ->
     trained_model ev = Some pm ->
     snapshot_to_resume W parsed = None ->
     (has_classifier (base_of pm) <->
      float_positive (cls_weight parsed) = true) /\
     (float_positive (cls_weight parsed) = true ->
      exists e em base,
        loaded W parsed e /\
        selected_base W em (cls_base parsed) = Normal base /\
        base_of pm = KerasModel em
          [OutputOf em;
           Call (Dense (dg_num_classes (data_of W parsed (snd e))) "softmax"
                       (L2 f_5e_4) "prob")
             (Call BatchNormalization
                (Call (Activation "relu" None) base))] /\
        Forall (fun c => In (EvCallLayer (base_device parsed DefaultDevice)
                               (fst c) (snd c)) (snd (run W parsed)))
               (classifier_calls
                  (dg_num_classes (data_of W parsed (snd e))) base) /\
        In (EvNewModel (base_device parsed DefaultDevice) em
              [OutputOf em;
               classifier_on (dg_num_classes (data_of W parsed (snd e))) base])
           (snd (run W parsed)))) /\
  (forall dev n act reg x,
     In (EvCallLayer dev (Dense n act reg "prob") x) (snd (run W parsed)) ->
     float_positive (cls_weight parsed) = true /\
     snapshot_to_resume W parsed = None) /\
  (forall m opt sp,
     In (EvCompile m opt sp) (snd (run W parsed)) ->
     if float_positive (cls_weight parsed) then
       exists name l losses weights metrics,
         sp = PerOutput losses weights metrics /\
         name <> "prob" /\
         weights !! "prob" = Some (cls_weight parsed) /\
         weights !! name = Some 1%float /\
         losses !! "prob" = Some (NamedLoss "categorical_crossentropy") /\
         losses !! name = Some l /\
         (l = inv_correlation \/ l = squared_distance) /\
         (snapshot_to_resume W parsed = None ->
          forall net, name = snd (embedding_model (loss parsed) net))
     else exists l metrics, sp = SingleOutput l metrics).
Proof.
  split; [|split].
  - intros ev pm Hin Hpm Hsnap.
    destruct (run_trained_model W parsed ev pm Hin Hpm)
      as (e & ms & He & [Hb Hpar] & _ & Heq).
    rewrite built_default in Hb. rewrite replica_of_default in Hpar.
    pose proof (base_of_replica_of _ _ _ _ _ Hb) as Hbase0.
    cbn [fst snd] in Hbase0. rewrite <- Hpar, <- Heq in Hbase0.
    destruct (built_classifier _ _ _ _ _ Hb Hsnap) as [Hiff _].
    cbn [fst snd] in *. split; [rewrite Hbase0; exact Hiff|].
    intros Hcw.
    destruct (run_assembly_logged W parsed ev pm Hin Hpm) as (_ & Hbuilt & _).
    exact (proj2 (Hbuilt Hsnap) Hcw).
  - intros dev n act reg x Hin.
    destruct (run_construction W parsed _ Hin) as (e & He & Ha);
      [simpl; congruence|].
    inversion Ha as [ev' Hb | b Hb Hg]; subst.
    inversion Hb as [| | | | dim l x' Hsnap Hdim Hem | | dim ev' Hsnap Hdim Hcw Hc];
      subst.
    + exfalso. unfold embedding_model in Hem.
      destruct (String.eqb (loss (default_val_batch_size parsed)) "inv_corr");
        [discriminate|].
      destruct (String.eqb (loss (default_val_batch_size parsed)) "softmax_corr");
        discriminate.
    + rewrite default_val_batch_size_cls_weight in Hcw.
      rewrite snapshot_to_resume_default in Hsnap. split; assumption.
  - intros m opt sp Hin.
    destruct (run_trained_model W parsed _ m Hin eq_refl)
      as (e & ms & He & [Hb Hpar] & Ht & _).
    pose proof (built_layer_not_prob _ _ _ _ _ Hb) as Hname.
    cbn [snd] in Hname.
    assert (Hsp : sp = compile_spec (cls_weight parsed)
                         (embedding_layer_name ms)
                         (fst (select_loss_metric (loss parsed) (fst e)))
                         (snd (select_loss_metric (loss parsed) (fst e)))).
    { inversion Ht; subst;
        rewrite default_val_batch_size_loss,
                default_val_batch_size_cls_weight; reflexivity. }
    rewrite Hsp. unfold compile_spec.
    destruct (float_positive (cls_weight parsed)).
    + eexists (embedding_layer_name ms), _, _, _, _.
      split; [reflexivity|]. split; [exact Hname|].
      split; [apply lookup_insert_eq|].
      split; [rewrite lookup_insert_ne by congruence;
              apply lookup_singleton_eq|].
      split; [apply lookup_insert_eq|].
      split; [rewrite lookup_insert_ne by congruence;
              apply lookup_singleton_eq|].
      split.
      * unfold select_loss_metric.
        destruct (endswith (loss parsed) "_corr"); [left | right]; reflexivity.
      * intros Hsnap net. rewrite built_default in Hb.
        unfold built in Hb. rewrite Hsnap in Hb.
        destruct Hb as (dim & _ & _ & Hn & _). cbn [fst snd] in Hn.
        rewrite Hn. unfold embedding_model.
        destruct (String.eqb (loss parsed) "inv_corr"); [reflexivity|].
        destruct (String.eqb (loss parsed) "softmax_corr"); reflexivity.
    + eexists _, _. reflexivity.
Qed.

(** C3 as stated fails on a run that resumes from a snapshot: with
    [--cls_weight 0.5] and the snapshot [snap.h5] in place the run
    completes, the model that is compiled, fitted, evaluated and used for
    prediction is the loaded one, which has no classification head, and no
    layer is made at all. *)
Lemma classifier_not_appended_on_resume :
  float_positive (cls_weight resume_args) = true /\
  fst (run sample_world resume_args) = Normal tt /\
  omap trained_model (snd (run sample_world resume_args))
    = [LoadedModel "snap.h5" "simple"; LoadedModel "snap.h5" "simple";
       LoadedModel "snap.h5" "simple"; LoadedModel "snap.h5" "simple"] /\
  omap called_layer (snd (run sample_world resume_args)) = [] /\
  ~ has_classifier (LoadedModel "snap.h5" "simple").
Proof.
  split; [vm_compute; reflexivity|].
  split; [vm_compute; reflexivity|].
  split; [vm_compute; reflexivity|].
  split; [vm_compute; reflexivity|].
  intros (em & n & base & Hwith). discriminate Hwith.
Qed.

(** Without the snapshot the same arguments build the network, normalise
    its output and append the classifier. *)
Example classifier_appended_when_built :
  fst (run sample_world classifier_args) = Normal tt /\
  omap called_layer (snd (run sample_world classifier_args))
    = [Lambda l2norm "l2norm"; Activation "relu" None; BatchNormalization;
       Dense 3 "softmax" (L2 f_5e_4) "prob"] /\
  Forall (fun m => has_classifier m)
         (omap trained_model (snd (run sample_world classifier_args))).
Proof.
  split; [vm_compute; reflexivity|].
  split; [vm_compute; reflexivity|].
  vm_compute. repeat constructor; eexists _, _, _; reflexivity.
Qed.

(** ** Claim C4 *)

Lemma if_set_Some (s : option string) (path : string) :
  if_set s = Some path <-> s = Some path /\ path <> "".
Proof.
  unfold if_set. destruct s as [p|]; [|split; [discriminate | intros [H _]; discriminate]].
  destruct (String.eqb_spec p "") as [-> | Hne].
  - split; [discriminate|]. intros [H Hp]. congruence.
  - split.
    + intros H. inversion H; subst. split; [reflexivity | exact Hne].
    + intros [H _]. exact H.
Qed.

(** C4, as the code has it.  When [--snapshot] names an existing file (a
    non-empty path that exists), no network is built: every call on the
    trained model is made on the model loaded from that snapshot, or on
    its replica, and the [load_model] call for that path is in the log.
    When [--snapshot] is given and is not the empty string,
    the callbacks of the training call contain a checkpoint for that path:
    [ModelCheckpoint] with at most one GPU, and otherwise
    [TemplateModelCheckpoint] on the base model. *)
Theorem snapshot_resume_and_checkpoint (W : World) (parsed : Args) :
  (forall path,
     snapshot parsed = Some path -> path <> "" ->
     path_exists W path = true ->
     forall ev,
       In ev (snd (run W parsed)) ->
       (forall dev dim arch, ev <> EvBuildNetwork dev dim arch) /\
       (forall dev l x, ev <> EvCallLayer dev l x) /\
       (forall dev p arch, ev = EvLoadModel dev p arch ->
          p = path /\ arch = architecture parsed) /\
       (forall pm, trained_model ev = Some pm ->
          base_of pm = LoadedModel path (architecture parsed) /\
          In (EvLoadModel (base_device parsed DefaultDevice) path
                (architecture parsed)) (snd (run W parsed)))) /\
  (forall path,
     snapshot parsed = Some path -> path <> "" ->
     forall pm a cbs,
       In (EvFitGenerator pm a) (snd (run W parsed)) ->
       fit_callbacks a = Some cbs ->
       In (if gpus parsed <=? 1 then ModelCheckpoint path
           else TemplateModelCheckpoint (base_of pm) path) cbs).
Proof.
  split.
  - intros path Hsnap Hne Hex ev Hin.
    assert (Hres : snapshot_to_resume W parsed = Some path).
    { unfold snapshot_to_resume.
      rewrite (proj2 (if_set_Some _ _) (conj Hsnap Hne)), Hex. reflexivity. }
    assert (Hbuild : forall e,
              assembly_call W (default_val_batch_size parsed) (fst e)
                (data_of W parsed (snd e)) DefaultDevice ev ->
              (forall dev dim arch, ev <> EvBuildNetwork dev dim arch) /\
              (forall dev l x, ev <> EvCallLayer dev l x) /\
              (forall dev p arch, ev = EvLoadModel dev p arch ->
                 p = path /\ arch = architecture parsed)).
    { intros e Ha.
      inversion Ha as [ev' Hb | b Hb Hg]; subst;
        [|repeat split; intros; discriminate].
      inversion Hb as [p Hp | p Hp | p Hp | dim Hp | dim l x Hp
                      | dim outs Hp | dim ev' Hp];
        subst; rewrite snapshot_to_resume_default in Hp;
        try congruence.
      - repeat split; intros; discriminate.
      - repeat split; intros; discriminate.
      - split; [intros; discriminate|]. split; [intros; discriminate|].
        intros dev p' arch Heq. inversion Heq; subst.
        rewrite default_val_batch_size_architecture.
        split; [congruence | reflexivity]. }
    destruct (construction_device ev) as [d|] eqn:Hdev.
    + destruct (run_construction W parsed ev Hin) as (e & He & Ha);
        [congruence|].
      destruct (Hbuild e Ha) as (H1 & H2 & H3).
      split; [exact H1|]. split; [exact H2|]. split; [exact H3|].
      intros pm Hpm. destruct ev; simpl in *; discriminate.
    + split; [intros; intros ->; discriminate|].
      split; [intros; intros ->; discriminate|].
      split; [intros; subst; discriminate|].
      intros pm Hpm. split.
      * destruct (run_trained_model W parsed ev pm Hin Hpm)
          as (e & ms & He & [Hb Hpar] & _ & ->).
        rewrite built_default in Hb. rewrite replica_of_default in Hpar.
        rewrite Hpar.
        pose proof (base_of_replica_of _ _ _ _ _ Hb) as Hbase0.
        cbn [fst snd] in Hbase0. rewrite Hbase0.
        unfold built in Hb. rewrite Hres in Hb. inversion Hb. reflexivity.
      * exact (proj1 (run_assembly_logged W parsed ev pm Hin Hpm) path Hres).
  - intros path Hsnap Hne pm a cbs Hin Hcbs.
    destruct (run_trained_model W parsed _ pm Hin eq_refl)
      as (e & ms & He & [Hb Hpar] & Ht & ->).
    rewrite built_default in Hb. rewrite replica_of_default in Hpar.
    pose proof (base_of_replica_of _ _ _ _ _ Hb) as Hbase0.
    cbn [fst snd] in Hbase0. rewrite Hpar, Hbase0.
    inversion Ht as [| | | | | Hft Hev | | | | Hev | | | | | | | | |]; subst;
      simpl in Hcbs; [discriminate|].
    inversion Hcbs; subst cbs. unfold callbacks_of.
    rewrite default_val_batch_size_snapshot.
    rewrite (proj2 (if_set_Some _ _) (conj Hsnap Hne)).
    apply in_or_app. right. apply in_or_app. right.
    unfold checkpoint_callback. rewrite default_val_batch_size_gpus.
    left. reflexivity.
Qed.

(** C4 as stated fails for [--snapshot '']: the option is given, and the
    training call receives the callback of the schedule only. *)
Lemma no_checkpoint_for_empty_snapshot :
  snapshot empty_snapshot_args = Some "" /\
  fst (run sample_world empty_snapshot_args) = Normal tt /\
  omap training_callbacks (snd (run sample_world empty_snapshot_args))
    = [[ScheduleCallback 0]].
Proof.
  split; [reflexivity|].
  split; vm_compute; reflexivity.
Qed.

(** ** Claim C5 *)

(** The log of lines 101-104: the file is opened, and once it is open the
    pickle is read and the file closed; the embedding is returned only
    then. *)
Lemma load_class_embeddings_log (W : World) (args : Args) dev h :
  (snd (load_class_embeddings W args dev h) = [EvOpen (embedding args) "rb"] /\
   exists e, fst (load_class_embeddings W args dev h) = Raise e) \/
  snd (load_class_embeddings W args dev h)
    = [EvOpen (embedding args) "rb"; EvPickleLoad (embedding args);
       EvClose (embedding args)].
Proof.
  unfold load_class_embeddings, with_open, bind, call, lift, ret.
  destruct (raises W h (EvOpen (embedding args) "rb")) as [e|].
  - left. split; [reflexivity | exists e; reflexivity].
  - right.
    destruct (raises W (h ++ [EvOpen (embedding args) "rb"])
                     (EvPickleLoad (embedding args))); simpl; [reflexivity|].
    destruct (py_getitem (pickle_content W (embedding args)) "ind2label");
      simpl; [|reflexivity].
    destruct (py_getitem (pickle_content W (embedding args)) "embedding");
      reflexivity.
Qed.

(** The log of a run starts with the session and the loading of the
    embeddings; whatever follows comes after the pickle was read. *)
Lemma run_log_after_loading (W : World) (parsed : Args) :
  exists la lb,
    snd (run W parsed) = la ++ lb /\
    Forall (fun ev => construction_device ev = None) la /\
    (lb <> [] ->
     In (EvOpen (embedding parsed) "rb") la /\
     In (EvPickleLoad (embedding parsed)) la).
Proof.
  unfold run, main. cbv zeta.
  set (args := default_val_batch_size parsed).
  rewrite bind_run.
  destruct (fst (call W EvSetSession DefaultDevice [])) as [[]|e0] eqn:Hsess;
    cbn [fst snd].
  2:{ exists [EvSetSession], []. rewrite app_nil_r.
      split; [reflexivity|]. split; [repeat constructor|]. congruence. }
  rewrite bind_run.
  set (h1 := [] ++ snd (call W EvSetSession DefaultDevice [])).
  destruct (load_class_embeddings_log W args DefaultDevice h1)
    as [[Hlog [e He]] | Hlog].
  - rewrite He. cbn [fst snd]. rewrite Hlog.
    exists (snd (call W EvSetSession DefaultDevice [])
            ++ [EvOpen (embedding args) "rb"]), [].
    rewrite app_nil_r. split; [reflexivity|].
    split; [repeat constructor|]. congruence.
  - destruct (fst (load_class_embeddings W args DefaultDevice h1)) as [e|e];
      cbn [fst snd]; rewrite Hlog.
    + eexists (snd (call W EvSetSession DefaultDevice []) ++ _), _.
      split; [rewrite <- app_assoc; reflexivity|].
      split; [repeat constructor|].
      intros _. subst args. rewrite default_val_batch_size_embedding.
      simpl. tauto.
    + eexists (snd (call W EvSetSession DefaultDevice []) ++ _), [].
      rewrite app_nil_r. split; [reflexivity|].
      split; [repeat constructor|]. congruence.
Qed.

(** C5.  In every run the pickle file named by [--embedding] is opened and
    read before any call that builds or loads a model; a run gets to such
    a call only if the unpickled object is a mapping with the keys
    ['ind2label'] and ['embedding']; and the dimensionality passed to
    [utils.build_network] is the second dimension of the matrix under
    ['embedding'], next to [--architecture]. *)
Theorem embeddings_loaded_first (W : World) (parsed : Args) :
  (forall l1 ev l2,
     snd (run W parsed) = l1 ++ ev :: l2 ->
     construction_device ev <> None ->
     In (EvOpen (embedding parsed) "rb") l1 /\
     In (EvPickleLoad (embedding parsed)) l1) /\
  (forall ev,
     In ev (snd (run W parsed)) ->
     construction_device ev <> None ->
     exists d labels matrix,
       pickle_content W (embedding parsed) = PDict d /\
       d !! "ind2label" = Some labels /\
       d !! "embedding" = Some matrix) /\
  (forall dev dim arch,
     In (EvBuildNetwork dev dim arch) (snd (run W parsed)) ->
     arch = architecture parsed /\
     exists d a,
       pickle_content W (embedding parsed) = PDict d /\
       d !! "embedding" = Some (VArray a) /\
       dim = nd_cols a).
Proof.
  assert (Hdict : forall e, loaded W parsed e ->
            exists d, pickle_content W (embedding parsed) = PDict d /\
                      d !! "ind2label" = Some (snd e) /\
                      d !! "embedding" = Some (fst e)).
  { intros e [Hl He]. unfold py_getitem in *.
    destruct (pickle_content W (embedding parsed)) as [d| |];
      [|discriminate|discriminate].
    exists d. split; [reflexivity|].
    destruct (d !! "ind2label"); [|discriminate].
    destruct (d !! "embedding"); [|discriminate].
    split; congruence. }
  split; [|split].
  - intros l1 ev l2 Hlog Hdev.
    destruct (run_log_after_loading W parsed) as (la & lb & Hsplit & Hla & Hlb).
    rewrite Hsplit in Hlog.
    apply app_eq_app in Hlog.
    destruct Hlog as [l [[Hl1 Hl2] | [Hl1 Hl2]]].
    + destruct l as [|x l].
      * simpl in Hl2. rewrite app_nil_r in Hl1. subst la.
        apply Hlb. rewrite <- Hl2. discriminate.
      * exfalso. simpl in Hl2. inversion Hl2; subst x.
        rewrite Hl1 in Hla. apply Forall_app in Hla. destruct Hla as [_ Hla].
        inversion Hla; subst. contradiction.
    + assert (Hne : lb <> []) by (rewrite Hl2; destruct l; discriminate).
      destruct (Hlb Hne) as [Ho Hp]. rewrite Hl1.
      split; apply in_or_app; left; assumption.
  - intros ev Hin Hdev.
    destruct (run_construction W parsed ev Hin Hdev) as (e & He & _).
    destruct (Hdict e He) as (d & Hd & Hl & Hm). eauto 6.
  - intros dev dim arch Hin.
    destruct (run_construction W parsed _ Hin) as (e & He & Ha);
      [simpl; congruence|].
    inversion Ha as [ev' Hb | b Hb Hg]; subst.
    inversion Hb as [| | | dim' Hsnap Hdim | | | dim' ev' Hsnap Hdim Hcw Hc];
      subst.
    + split; [apply default_val_batch_size_architecture|].
      destruct (Hdict e He) as (d & Hd & _ & Hm).
      unfold shape1 in Hdim. destruct (fst e) as [a| | | |]; try discriminate.
      inversion Hdim; subst. exists d, a. auto.
    + inversion Hc.
Qed.

(** ** Claim C7 *)

Section Dumps.

Variable W : World.

(** [run_training] makes no save call before it gets to the dumps. *)
Lemma run_training_reaches_dumps (args : Args) (emb : PyVal)
    (dg : DataGenerator) (ms : Models) dev :
  reaches dev (run_training W args emb dg ms)
    (fun ev => is_save ev = false)
    (fun h r l =>
       r = fst (dump_artifacts W args dg ms dev h) /\
       l = snd (dump_artifacts W args dg ms dev h)).
Proof.
  unfold run_training.
  apply (reaches_bind dev _ _ _ (fun _ => True)).
  { destruct (no_progress args); [apply spec_ret; exact I|].
    apply spec_emit. reflexivity. }
  intros _ _. cbv zeta.
  apply (reaches_bind dev _ _ _ (fun _ => True)).
  { eapply spec_weaken;
      [apply (pretrain_spec W args emb) | intros ev [_ Hev]; exact Hev
      | intros a Ha; exact Ha]. }
  intros _ _.
  apply (reaches_bind dev _ _ _
           (fun r => r = (callbacks_of W args dg ms, num_epochs_of W args dg))).
  { eapply spec_weaken;
      [apply (configure_callbacks_spec W args emb)
      | intros ev [_ Hev]; exact Hev | intros a Ha; exact Ha]. }
  intros sched ->. cbn [fst snd].
  apply (reaches_bind dev _ _ _ (fun _ => True)).
  { eapply spec_weaken;
      [apply (train_spec W args emb) | intros ev [_ Hev]; exact Hev
      | intros a Ha; exact Ha]. }
  intros _ _.
  apply (reaches_bind dev _ _ _ (fun _ => True)).
  { eapply spec_weaken;
      [apply (evaluate_spec W args emb) | intros ev [_ Hev]; exact Hev
      | intros a Ha; exact Ha]. }
  intros _ _.
  apply reaches_here. intros h. split; reflexivity.
Qed.

Lemma assembly_call_not_save (args : Args) (emb : PyVal) (dg : DataGenerator)
    dev (ev : Event) :
  assembly_call W args emb dg dev ev -> is_save ev = false.
Proof.
  intros Ha. inversion Ha as [ev' Hb | b Hb Hg]; subst; [|reflexivity].
  inversion Hb as [| | | | | | ? ev' ? ? ? Hc]; subst; try reflexivity.
  inversion Hc; reflexivity.
Qed.

(** A run makes no save call before it gets to the dumps, which it does
    with the models it assembled. *)
Lemma main_reaches_dumps (parsed : Args) :
  reaches DefaultDevice (main W parsed)
    (fun ev => is_save ev = false)
    (fun h r l =>
       exists e ms,
         loaded W parsed e /\
         r = fst (dump_artifacts W (default_val_batch_size parsed)
                    (data_of W parsed (snd e)) ms DefaultDevice h) /\
         l = snd (dump_artifacts W (default_val_batch_size parsed)
                    (data_of W parsed (snd e)) ms DefaultDevice h)).
Proof.
  unfold main. cbv zeta.
  set (args := default_val_batch_size parsed).
  apply (reaches_bind _ _ _ _ (fun _ => True));
    [apply spec_emit; reflexivity|].
  intros _ _.
  apply (reaches_bind _ _ _ _ (loaded W args)).
  { eapply spec_weaken;
      [apply load_class_embeddings_spec | | intros a Ha; exact Ha].
    intros ev Hev. inversion Hev; reflexivity. }
  intros e He.
  apply (reaches_bind _ _ _ _ (fun dg => dg = data_of W args (snd e))).
  { unfold load_dataset.
    apply spec_seq; [apply spec_emit; reflexivity | apply spec_ret; reflexivity]. }
  intros dg ->.
  apply (reaches_bind _ _ _ _ (fun _ => True)).
  { eapply spec_weaken; [apply assemble_models_spec | | intros; exact I].
    intros ev Hev. eapply assembly_call_not_save. exact Hev. }
  intros ms _.
  eapply reaches_weaken; [apply run_training_reaches_dumps|].
  intros h r l [Hr Hl]. subst args.
  rewrite loaded_default in He. rewrite data_of_default in Hr, Hl.
  exists e, ms. split; [exact He|]. split; assumption.
Qed.

End Dumps.

Lemma dump_features_not_save (W : World) (args : Args) (dg : DataGenerator)
    (ms : Models) dev :
  spec dev (dump_features W args dg ms) (fun ev => is_save ev = false)
       (fun _ => True).
Proof.
  unfold dump_features.
  destruct (if_set (feature_dump args)) as [path|];
    [|apply spec_ret; exact I].
  apply spec_seq; [apply spec_emit; reflexivity|].
  apply spec_with_open; [reflexivity | reflexivity|].
  apply spec_emit. reflexivity.
Qed.

Lemma dump_features_attempted (W : World) (args : Args) (dg : DataGenerator)
    (ms : Models) dev h path :
  if_set (feature_dump args) = Some path ->
  exists rest,
    snd (dump_features W args dg ms dev h) =
    EvPredictGenerator (par_model ms) (FlowTest dg 1 false)
      (Some (dg_num_test dg)) :: rest.
Proof.
  intros Hf. unfold dump_features. rewrite Hf. rewrite bind_run.
  destruct (fst (call W _ dev h)); cbn [fst snd]; eexists; reflexivity.
Qed.

Lemma split_at_unique {A} (Q : A -> Prop) (la lb l1 l2 : list A) (x y : A) :
  la ++ x :: lb = l1 ++ y :: l2 ->
  Forall (fun z => ~ Q z) la ->
  Forall (fun z => ~ Q z) lb ->
  Q y ->
  la = l1 /\ x = y /\ lb = l2.
Proof.
  revert l1. induction la as [|a la IH]; intros l1 Heq Hla Hlb Hy.
  - destruct l1 as [|z l1]; simpl in Heq.
    + inversion Heq. auto.
    + exfalso. inversion Heq; subst.
      apply Forall_app in Hlb. destruct Hlb as [_ Hlb].
      inversion Hlb; subst. contradiction.
  - destruct l1 as [|z l1]; simpl in Heq.
    + exfalso. inversion Heq; subst. inversion Hla; subst. contradiction.
    + inversion Heq; subst. inversion Hla; subst.
      destruct (IH l1 H1 H3 Hlb Hy) as (-> & -> & ->). auto.
Qed.

Lemma default_val_batch_size_weight_dump (parsed : Args) :
  weight_dump (default_val_batch_size parsed) = weight_dump parsed.
Proof. by_default. Qed.

Lemma default_val_batch_size_model_dump (parsed : Args) :
  model_dump (default_val_batch_size parsed) = model_dump parsed.
Proof. by_default. Qed.

Lemma default_val_batch_size_feature_dump (parsed : Args) :
  feature_dump (default_val_batch_size parsed) = feature_dump parsed.
Proof. by_default. Qed.

(** A run makes no save call before it gets to the dumps; from there on
    its result and its calls are those of the dumps. *)
Lemma run_with_dumps (W : World) (parsed : Args) :
  Forall (fun ev => is_save ev = false) (snd (run W parsed)) \/
  exists l1 dg ms,
    Forall (fun ev => is_save ev = false) l1 /\
    run W parsed =
    (fst (dump_artifacts W (default_val_batch_size parsed) dg ms
            DefaultDevice l1),
     l1 ++ snd (dump_artifacts W (default_val_batch_size parsed) dg ms
                  DefaultDevice l1)).
Proof.
  unfold run.
  destruct (main_reaches_dumps W parsed [])
    as [[Hall _] | (l1 & l2 & Hsplit & Hpre & (e & ms & He & Hr & Hl))];
    [left; exact Hall|].
  right. simpl in Hr, Hl. exists l1, (data_of W parsed (snd e)), ms.
  split; [exact Hpre|].
  rewrite (surjective_pairing (main W parsed DefaultDevice [])).
  rewrite Hsplit, Hr, Hl. reflexivity.
Qed.

Lemma dump_weights_outcome (W : World) (args : Args) (ms : Models) dev h :
  dump_weights W args ms dev h =
  match if_set (weight_dump args) with
  | Some path => save_outcome W h (EvSaveWeights (model ms) path) MsgWeightsError
  | None => (Normal tt, [])
  end.
Proof.
  unfold dump_weights, save_outcome.
  destruct (if_set (weight_dump args)) as [path|]; [|reflexivity].
  unfold try_except, call, note.
  destruct (raises W h (EvSaveWeights (model ms) path)) as [e|];
    [|reflexivity].
  destruct (is_Exception e); reflexivity.
Qed.

Lemma dump_model_outcome (W : World) (args : Args) (ms : Models) dev h :
  dump_model W args ms dev h =
  match if_set (model_dump args) with
  | Some path => save_outcome W h (EvSave (model ms) path) MsgModelError
  | None => (Normal tt, [])
  end.
Proof.
  unfold dump_model, save_outcome.
  destruct (if_set (model_dump args)) as [path|]; [|reflexivity].
  unfold try_except, call, note.
  destruct (raises W h (EvSave (model ms) path)) as [e|];
    [|reflexivity].
  destruct (is_Exception e); reflexivity.
Qed.

Lemma save_outcome_log (W : World) (h : list Event) (ev : Event)
    (msg : exn -> Message) :
  exists tl, snd (save_outcome W h ev msg) = ev :: tl /\
             Forall (fun z => is_save z = false) tl.
Proof.
  unfold save_outcome. destruct (raises W h ev) as [e|];
    [destruct (is_Exception e)|]; eexists; (split; [reflexivity|]);
    repeat constructor.
Qed.

Lemma not_save_weights (l : list Event) :
  Forall (fun z => is_save z = false) l ->
  Forall (fun z => ~ exists m p, z = EvSaveWeights m p) l.
Proof.
  intros Hl. eapply Forall_impl; [exact Hl|].
  intros z Hz (m & p & ->). discriminate.
Qed.

Lemma not_save_model (l : list Event) :
  Forall (fun z => is_save z = false) l ->
  Forall (fun z => ~ exists m p, z = EvSave m p) l.
Proof.
  intros Hl. eapply Forall_impl; [exact Hl|].
  intros z Hz (m & p & ->). discriminate.
Qed.

Lemma dump_features_log (W : World) (args : Args) (dg : DataGenerator)
    (ms : Models) dev h :
  Forall (fun z => is_save z = false) (snd (dump_features W args dg ms dev h)).
Proof. exact (proj1 (dump_features_not_save W args dg ms dev h)). Qed.

Lemma dump_model_log (W : World) (args : Args) (ms : Models) dev h :
  Forall (fun z => ~ exists m p, z = EvSaveWeights m p)
         (snd (dump_model W args ms dev h)).
Proof.
  rewrite dump_model_outcome.
  destruct (if_set (model_dump args)) as [path|]; [|constructor].
  destruct (save_outcome_log W h (EvSave (model ms) path) MsgModelError)
    as (tl & -> & Htl).
  constructor; [intros (m & p & H); discriminate H|].
  apply not_save_weights. exact Htl.
Qed.

Lemma dump_weights_log (W : World) (args : Args) (ms : Models) dev h :
  Forall (fun z => ~ exists m p, z = EvSave m p)
         (snd (dump_weights W args ms dev h)).
Proof.
  rewrite dump_weights_outcome.
  destruct (if_set (weight_dump args)) as [path|]; [|constructor].
  destruct (save_outcome_log W h (EvSaveWeights (model ms) path)
              MsgWeightsError) as (tl & -> & Htl).
  constructor; [intros (m & p & H); discriminate H|].
  apply not_save_model. exact Htl.
Qed.

Lemma after_weights_log (W : World) (args : Args) (dg : DataGenerator)
    (ms : Models) dev h :
  Forall (fun z => ~ exists m p, z = EvSaveWeights m p)
         (snd (after_weights W args dg ms dev h)).
Proof.
  unfold after_weights. rewrite bind_run.
  destruct (fst (dump_model W args ms dev h)); cbn [snd].
  - apply Forall_app. split; [apply dump_model_log|].
    apply not_save_weights, dump_features_log.
  - apply dump_model_log.
Qed.

Lemma dump_artifacts_run (W : World) (args : Args) (dg : DataGenerator)
    (ms : Models) dev h :
  dump_artifacts W args dg ms dev h =
  match fst (dump_weights W args ms dev h) with
  | Normal _ =>
      (fst (after_weights W args dg ms dev
              (h ++ snd (dump_weights W args ms dev h))),
       snd (dump_weights W args ms dev h)
       ++ snd (after_weights W args dg ms dev
                 (h ++ snd (dump_weights W args ms dev h))))
  | Raise e => (Raise e, snd (dump_weights W args ms dev h))
  end.
Proof. unfold dump_artifacts. rewrite bind_run. reflexivity. Qed.

(** Where a run tries to save the weights: after calls that save nothing,
    on the base model; the attempt ends the run, or is followed by its
    error message, if any, and by the other dumps. *)
Lemma weights_save_in_log (W : World) (parsed : Args) k1 m p k2 :
  snd (run W parsed) = k1 ++ EvSaveWeights m p :: k2 ->
  exists dg ms,
    m = model ms /\
    match fst (save_outcome W k1 (EvSaveWeights m p) MsgWeightsError) with
    | Raise e => k2 = [] /\ fst (run W parsed) = Raise e
    | Normal _ =>
        exists wt,
          snd (save_outcome W k1 (EvSaveWeights m p) MsgWeightsError)
          = EvSaveWeights m p :: wt /\
          k2 = wt ++ snd (after_weights W (default_val_batch_size parsed) dg ms
                            DefaultDevice (k1 ++ EvSaveWeights m p :: wt)) /\
          fst (run W parsed)
          = fst (after_weights W (default_val_batch_size parsed) dg ms
                   DefaultDevice (k1 ++ EvSaveWeights m p :: wt))
    end.
Proof.
  intros Hsplit.
  destruct (run_with_dumps W parsed) as [Hnone | (l1 & dg & ms & Hpre & Hrun)].
  { exfalso. rewrite Hsplit in Hnone. apply Forall_app in Hnone.
    destruct Hnone as [_ Hnone]. inversion Hnone; subst. discriminate. }
  set (args := default_val_batch_size parsed) in *.
  exists dg, ms.
  rewrite Hrun in Hsplit |- *. cbn [fst snd] in Hsplit |- *.
  rewrite dump_artifacts_run in Hsplit |- *.
  rewrite dump_weights_outcome in Hsplit |- *.
  destruct (if_set (weight_dump args)) as [path|].
  - destruct (save_outcome_log W l1 (EvSaveWeights (model ms) path)
                MsgWeightsError) as (wt & Hlog & Hwt).
    destruct (fst (save_outcome W l1 (EvSaveWeights (model ms) path)
                     MsgWeightsError)) as [[]|e] eqn:Hres;
      cbn [fst snd] in Hsplit |- *; rewrite Hlog in Hsplit.
    + cbn [app] in Hsplit.
      apply (split_at_unique (fun z => exists m p, z = EvSaveWeights m p))
        in Hsplit.
      * destruct Hsplit as (<- & Hev & <-). inversion Hev; subst m p.
        split; [reflexivity|]. rewrite Hres, Hlog.
        exists wt. split; [reflexivity|]. split; reflexivity.
      * apply not_save_weights. exact Hpre.
      * apply Forall_app. split; [apply not_save_weights; exact Hwt|].
        apply after_weights_log.
      * eauto.
    + apply (split_at_unique (fun z => exists m p, z = EvSaveWeights m p))
        in Hsplit.
      * destruct Hsplit as (<- & Hev & <-). inversion Hev; subst m p.
        split; [reflexivity|]. rewrite Hres.
        assert (wt = []).
        { unfold save_outcome in Hres, Hlog.
          destruct (raises W l1 _) as [e'|]; [|discriminate Hres].
          destruct (is_Exception e'); [discriminate Hres|].
          simpl in Hlog. inversion Hlog. reflexivity. }
        subst wt. split; reflexivity.
      * apply not_save_weights. exact Hpre.
      * apply not_save_weights. exact Hwt.
      * eauto.
  - exfalso. cbn [fst snd] in Hsplit. simpl in Hsplit.
    assert (Hall : Forall (fun z => ~ exists m p, z = EvSaveWeights m p)
                     (l1 ++ snd (after_weights W args dg ms DefaultDevice
                                   (l1 ++ [])))).
    { apply Forall_app. split; [apply not_save_weights; exact Hpre|].
      apply after_weights_log. }
    rewrite Hsplit in Hall. apply Forall_app in Hall.
    destruct Hall as [_ Hall]. inversion Hall as [|? ? Hx _]; subst.
    apply Hx. eauto.
Qed.

(** Where a run tries to save the model: on the base model, and after the
    attempt to save the weights, if there was one, has gone on; the attempt
    ends the run, or is followed by its error message, if any, and by the
    feature dump. *)
Lemma model_save_in_log (W : World) (parsed : Args) k1 m q k2 :
  snd (run W parsed) = k1 ++ EvSave m q :: k2 ->
  exists dg ms,
    m = model ms /\
    match fst (save_outcome W k1 (EvSave m q) MsgModelError) with
    | Raise e => k2 = [] /\ fst (run W parsed) = Raise e
    | Normal _ =>
        exists mt,
          snd (save_outcome W k1 (EvSave m q) MsgModelError)
          = EvSave m q :: mt /\
          k2 = mt ++ snd (dump_features W (default_val_batch_size parsed) dg ms
                            DefaultDevice (k1 ++ EvSave m q :: mt)) /\
          fst (run W parsed)
          = fst (dump_features W (default_val_batch_size parsed) dg ms
                   DefaultDevice (k1 ++ EvSave m q :: mt))
    end.
Proof.
  intros Hsplit.
  destruct (run_with_dumps W parsed) as [Hnone | (l1 & dg & ms & Hpre & Hrun)].
  { exfalso. rewrite Hsplit in Hnone. apply Forall_app in Hnone.
    destruct Hnone as [_ Hnone]. inversion Hnone; subst. discriminate. }
  set (args := default_val_batch_size parsed) in *.
  exists dg, ms.
  rewrite Hrun in Hsplit |- *. cbn [fst snd] in Hsplit |- *.
  rewrite dump_artifacts_run in Hsplit |- *.
  pose proof (dump_weights_log W args ms DefaultDevice l1) as Hwl.
  set (wl := snd (dump_weights W args ms DefaultDevice l1)) in *.
  destruct (fst (dump_weights W args ms DefaultDevice l1)) as [[]|e];
    cbn [fst snd] in Hsplit |- *.
  - unfold after_weights in Hsplit |- *.
    rewrite bind_run in Hsplit |- *.
    rewrite dump_model_outcome in Hsplit |- *.
    destruct (if_set (model_dump args)) as [path|].
    + destruct (save_outcome_log W (l1 ++ wl) (EvSave (model ms) path)
                  MsgModelError) as (mt & Hlog & Hmt).
      assert (Hk : forall rest,
                l1 ++ wl ++ (EvSave (model ms) path :: mt) ++ rest
                = k1 ++ EvSave m q :: k2 ->
                Forall (fun z => is_save z = false) rest ->
                l1 ++ wl = k1 /\ model ms = m /\ path = q /\ mt ++ rest = k2).
      { intros rest Heq Hrest. rewrite app_assoc in Heq. cbn [app] in Heq.
        apply (split_at_unique (fun z => exists m p, z = EvSave m p)) in Heq.
        - destruct Heq as (H1 & Hev & H2). inversion Hev. auto.
        - apply Forall_app. split; [apply not_save_model; exact Hpre|].
          exact Hwl.
        - apply Forall_app. split; apply not_save_model; assumption.
        - eauto. }
      destruct (fst (save_outcome W (l1 ++ wl) (EvSave (model ms) path)
                       MsgModelError)) as [[]|e] eqn:Hres;
        cbn [fst snd] in Hsplit |- *; rewrite Hlog in Hsplit.
      * destruct (Hk _ Hsplit (dump_features_log W args dg ms _ _))
          as (<- & <- & <- & <-).
        split; [reflexivity|]. rewrite Hres, Hlog.
        exists mt. split; [reflexivity|]. split; reflexivity.
      * rewrite <- (app_nil_r (EvSave (model ms) path :: mt)) in Hsplit.
        destruct (Hk [] Hsplit (List.Forall_nil _)) as (<- & <- & <- & <-).
        split; [reflexivity|]. rewrite Hres.
        assert (mt = []).
        { unfold save_outcome in Hres, Hlog.
          destruct (raises W (l1 ++ wl) _) as [e'|]; [|discriminate Hres].
          destruct (is_Exception e'); [discriminate Hres|].
          simpl in Hlog. inversion Hlog. reflexivity. }
        subst mt. split; reflexivity.
    + exfalso. cbn [fst snd app] in Hsplit.
      assert (Hall : Forall (fun z => ~ exists m p, z = EvSave m p)
                       (l1 ++ wl ++ snd (dump_features W args dg ms
                                           DefaultDevice ((l1 ++ wl) ++ [])))).
      { apply Forall_app. split; [apply not_save_model; exact Hpre|].
        apply Forall_app. split; [exact Hwl|].
        apply not_save_model, dump_features_log. }
      rewrite Hsplit in Hall. apply Forall_app in Hall.
      destruct Hall as [_ Hall]. inversion Hall as [|? ? Hx _]; subst.
      apply Hx. eauto.
  - exfalso.
    assert (Hall : Forall (fun z => ~ exists m p, z = EvSave m p) (l1 ++ wl)).
    { apply Forall_app. split; [apply not_save_model; exact Hpre | exact Hwl]. }
    rewrite Hsplit in Hall. apply Forall_app in Hall.
    destruct Hall as [_ Hall]. inversion Hall as [|? ? Hx _]; subst.
    apply Hx. eauto.
Qed.

(** C7.  When saving the weights fails with an instance of [Exception],
    the next thing the run does is to print the error message, and likewise
    for saving the model; an exception that is no instance of [Exception]
    ([KeyboardInterrupt], [SystemExit]) is not caught: the save is the last
    call of the run, which ends with that exception.  A run that tried to
    save the weights, without such an exception, then tries to save the
    model when [--model_dump] is set; and a run that tried a save, none of
    its saves raising such an exception, then asks for the features of the
    test images when [--feature_dump] is set. *)
Theorem dumps_survive_save_failures (W : World) (parsed : Args) :
  (forall l1 m p l2 e,
     snd (run W parsed) = l1 ++ EvSaveWeights m p :: l2 ->
     raises W l1 (EvSaveWeights m p) = Some e ->
     if is_Exception e
     then exists l3, l2 = EvPrint (MsgWeightsError e) :: l3
     else l2 = [] /\ fst (run W parsed) = Raise e) /\
  (forall l1 m p l2 e,
     snd (run W parsed) = l1 ++ EvSave m p :: l2 ->
     raises W l1 (EvSave m p) = Some e ->
     if is_Exception e
     then exists l3, l2 = EvPrint (MsgModelError e) :: l3
     else l2 = [] /\ fst (run W parsed) = Raise e) /\
  (forall l1 m p l2 q,
     snd (run W parsed) = l1 ++ EvSaveWeights m p :: l2 ->
     (forall e, raises W l1 (EvSaveWeights m p) = Some e ->
                is_Exception e = true) ->
     if_set (model_dump parsed) = Some q ->
     In (EvSave m q) l2) /\
  (forall l1 ev l2 q,
     snd (run W parsed) = l1 ++ ev :: l2 ->
     is_save ev = true ->
     (forall k1 ev' k2 e,
        snd (run W parsed) = k1 ++ ev' :: k2 ->
        is_save ev' = true ->
        raises W k1 ev' = Some e ->
        is_Exception e = true) ->
     if_set (feature_dump parsed) = Some q ->
     exists pm dg,
       In (EvPredictGenerator pm (FlowTest dg 1 false) (Some (dg_num_test dg)))
          l2).
Proof.
  set (args := default_val_batch_size parsed).
  assert (Hcaught : forall h ev msg,
            (forall e, raises W h ev = Some e -> is_Exception e = true) ->
            fst (save_outcome W h ev msg) = Normal tt).
  { intros h ev msg Hexc. unfold save_outcome.
    destruct (raises W h ev) as [e|]; [|reflexivity].
    rewrite (Hexc e eq_refl). reflexivity. }
  assert (Hfeat : forall dg ms h q,
            if_set (feature_dump parsed) = Some q ->
            In (EvPredictGenerator (par_model ms) (FlowTest dg 1 false)
                  (Some (dg_num_test dg)))
               (snd (dump_features W args dg ms DefaultDevice h))).
  { intros dg ms h q Hq.
    destruct (dump_features_attempted W args dg ms DefaultDevice h q)
      as [rest ->]; [|left; reflexivity].
    subst args. rewrite default_val_batch_size_feature_dump. exact Hq. }
  split; [|split; [|split]].
  - intros l1 m p l2 e Hlog Hraise.
    destruct (weights_save_in_log W parsed l1 m p l2 Hlog)
      as (dg & ms & _ & Hcase).
    unfold save_outcome in Hcase. rewrite Hraise in Hcase.
    destruct (is_Exception e); cbn [fst snd] in Hcase.
    + destruct Hcase as (wt & Hwt & -> & _). inversion Hwt; subst wt.
      eexists. reflexivity.
    + exact Hcase.
  - intros l1 m p l2 e Hlog Hraise.
    destruct (model_save_in_log W parsed l1 m p l2 Hlog)
      as (dg & ms & _ & Hcase).
    unfold save_outcome in Hcase. rewrite Hraise in Hcase.
    destruct (is_Exception e); cbn [fst snd] in Hcase.
    + destruct Hcase as (mt & Hmt & -> & _). inversion Hmt; subst mt.
      eexists. reflexivity.
    + exact Hcase.
  - intros l1 m p l2 q Hlog Hexc Hq.
    destruct (weights_save_in_log W parsed l1 m p l2 Hlog)
      as (dg & ms & -> & Hcase).
    rewrite (Hcaught _ _ MsgWeightsError Hexc) in Hcase.
    destruct Hcase as (wt & _ & -> & _).
    apply in_or_app. right. unfold after_weights. rewrite bind_run.
    assert (Hhead : exists tl,
              snd (dump_model W args ms DefaultDevice
                     (l1 ++ EvSaveWeights (model ms) p :: wt))
              = EvSave (model ms) q :: tl).
    { rewrite dump_model_outcome. subst args.
      rewrite default_val_batch_size_model_dump, Hq.
      destruct (save_outcome_log W (l1 ++ EvSaveWeights (model ms) p :: wt)
                  (EvSave (model ms) q) MsgModelError) as (tl & -> & _).
      eexists. reflexivity. }
    destruct Hhead as [tl Htl]. fold args. rewrite Htl.
    destruct (fst (dump_model W args ms DefaultDevice _)); cbn [snd];
      left; reflexivity.
  - intros l1 ev l2 q Hlog Hsave Hexc Hq.
    destruct ev; try discriminate Hsave.
    + (* the weights *)
      destruct (weights_save_in_log W parsed l1 m path l2 Hlog)
        as (dg & ms & -> & Hcase).
      rewrite (Hcaught _ _ MsgWeightsError
                 (fun e => Hexc l1 _ l2 e Hlog eq_refl)) in Hcase.
      destruct Hcase as (wt & _ & Hl2 & _).
      exists (par_model ms), dg. rewrite Hl2.
      apply in_or_app. right. unfold after_weights. rewrite bind_run.
      fold args.
      set (h' := l1 ++ EvSaveWeights (model ms) path :: wt) in *.
      destruct (fst (dump_model W args ms DefaultDevice h')) as [[]|e]
        eqn:Hres; cbn [snd].
      * apply in_or_app. right. fold args. exact (Hfeat dg ms _ q Hq).
      * exfalso. rewrite dump_model_outcome in Hres.
        destruct (if_set (model_dump args)) as [mp|] eqn:Hmp;
          [|discriminate Hres].
        unfold save_outcome in Hres.
        destruct (raises W h' (EvSave (model ms) mp)) as [e'|] eqn:Hr;
          [|discriminate Hres].
        destruct (is_Exception e') eqn:He'; [discriminate Hres|].
        assert (Hlog' : snd (run W parsed)
                        = h' ++ EvSave (model ms) mp :: []).
        { rewrite Hlog, Hl2. unfold after_weights. rewrite bind_run.
          fold args h'. rewrite dump_model_outcome, Hmp.
          unfold save_outcome. rewrite Hr, He'. cbn [fst snd].
          subst h'. rewrite <- app_assoc. reflexivity. }
        pose proof (Hexc _ _ _ e' Hlog' eq_refl Hr). congruence.
    + (* the model *)
      destruct (model_save_in_log W parsed l1 m path l2 Hlog)
        as (dg & ms & -> & Hcase).
      rewrite (Hcaught _ _ MsgModelError
                 (fun e => Hexc l1 _ l2 e Hlog eq_refl)) in Hcase.
      destruct Hcase as (mt & _ & Hl2 & _).
      exists (par_model ms), dg. rewrite Hl2.
      apply in_or_app. right. fold args. exact (Hfeat dg ms _ q Hq).
Qed.

Lemma dumps_survive_save_failures_witness :
  exists l1 m l2,
    snd (run failing_world dump_args) = l1 ++ EvSaveWeights m "w.h5" :: l2 /\
    raises failing_world l1 (EvSaveWeights m "w.h5") = Some OSError /\
    (exists l3, l2 = EvPrint (MsgWeightsError OSError) :: l3) /\
    In (EvSave m "m.h5") l2 /\
    exists pm dg,
      In (EvPredictGenerator pm (FlowTest dg 1 false) (Some (dg_num_test dg)))
         l2.
Proof.
  exists (firstn 14 (snd (run failing_world dump_args))),
         (KerasModel (BuiltNetwork 2 "simple")
            [Call (Lambda l2norm "l2norm") (OutputOf (BuiltNetwork 2 "simple"))]),
         (skipn 15 (snd (run failing_world dump_args))).
  assert (Hlog : snd (run failing_world dump_args)
                 = firstn 14 (snd (run failing_world dump_args))
                   ++ EvSaveWeights
                        (KerasModel (BuiltNetwork 2 "simple")
                           [Call (Lambda l2norm "l2norm")
                              (OutputOf (BuiltNetwork 2 "simple"))]) "w.h5"
                   :: skipn 15 (snd (run failing_world dump_args)))
    by (vm_compute; reflexivity).
  destruct (dumps_survive_save_failures failing_world dump_args)
    as (Hweights & _ & Hmodel & Hfeatures).
  split; [exact Hlog|]. split; [reflexivity|]. split; [|split].
  - exact (Hweights _ _ _ _ OSError Hlog eq_refl).
  - apply (Hmodel _ _ _ _ "m.h5" Hlog); [|reflexivity].
    intros e He. inversion He. reflexivity.
  - apply (Hfeatures _ _ _ "f.pickle" Hlog); [reflexivity | | reflexivity].
    intros k1 ev k2 e _ Hsave He.
    destruct ev; try discriminate Hsave; inversion He; reflexivity.
Defined.

(** C7 as stated fails when a save is interrupted from the keyboard:
    [KeyboardInterrupt] is no instance of [Exception], so that [except
    Exception] does not catch it.  The run asked for the three dumps ends
    with the exception at the attempt to save the weights: no error
    message is printed, and neither the model nor the features are dumped.
    When the saves fail with instances of [Exception] the same run goes
    through all of them. *)
Lemma interrupted_save_ends_run :
  is_Exception KeyboardInterrupt = false /\
  if_set (model_dump dump_args) = Some "m.h5" /\
  if_set (feature_dump dump_args) = Some "f.pickle" /\
  fst (run interrupted_world dump_args) = Raise KeyboardInterrupt /\
  List.filter dump_step (snd (run interrupted_world dump_args))
    = [EvSaveWeights
         (KerasModel (BuiltNetwork 2 "simple")
            [Call (Lambda l2norm "l2norm") (OutputOf (BuiltNetwork 2 "simple"))])
         "w.h5"] /\
  List.filter dump_step (snd (run failing_world dump_args))
    = [EvSaveWeights
         (KerasModel (BuiltNetwork 2 "simple")
            [Call (Lambda l2norm "l2norm") (OutputOf (BuiltNetwork 2 "simple"))])
         "w.h5";
       EvPrint (MsgWeightsError OSError);
       EvSave
         (KerasModel (BuiltNetwork 2 "simple")
            [Call (Lambda l2norm "l2norm") (OutputOf (BuiltNetwork 2 "simple"))])
         "m.h5";
       EvPrint (MsgModelError (OtherException "RuntimeError"));
       EvPredictGenerator
         (KerasModel (BuiltNetwork 2 "simple")
            [Call (Lambda l2norm "l2norm") (OutputOf (BuiltNetwork 2 "simple"))])
         (FlowTest sample_data 1 false) (Some 100);
       EvOpen "f.pickle" "wb"; EvPickleDump "f.pickle" false].
Proof. repeat split; vm_compute; reflexivity. Qed.

(** In the failing world the run with the three dumps completes: both
    error messages are printed and the features are dumped. *)
Example failing_dumps_run :
  fst (run failing_world dump_args) = Normal tt /\
  In (EvPrint (MsgWeightsError OSError)) (snd (run failing_world dump_args)) /\
  In (EvPrint (MsgModelError (OtherException "RuntimeError")))
     (snd (run failing_world dump_args)) /\
  In (EvPickleDump "f.pickle" false) (snd (run failing_world dump_args)).
Proof.
  split; [vm_compute; reflexivity|].
  repeat split; vm_compute; repeat (first [left; reflexivity | right]).
Qed.

(** ** Claim C9 *)

(** A positive float is not zero: [1.0 / max_decay] does not raise. *)
Lemma float_positive_not_zero (x : float) :
  float_positive x = true -> PrimFloat.eqb x 0%float = false.
Proof.
  unfold float_positive.
  rewrite FloatAxioms.ltb_spec, FloatAxioms.eqb_spec.
  change (Prim2SF 0%float) with (S754_zero false).
  destruct (Prim2SF x) as [s | s | | s m e];
    unfold SFltb, SFeqb, SFcompare; try destruct s;
    intros H; try reflexivity; discriminate H.
Qed.

Lemma float_div_int_Normal (a : float) (n : Z) (d : float) :
  float_div_int a n = Normal d <->
  n <> 0 /\ exists b, float_of_int n = Normal b /\ d = PrimFloat.div a b.
Proof.
  unfold float_div_int. destruct (Z.eqb_spec n 0) as [-> | Hn].
  - split; [discriminate | intros [H _]; contradiction].
  - destruct (float_of_int n) as [b|e]; simpl.
    + split.
      * intros H. inversion H; subst. split; [exact Hn|]. exists b. auto.
      * intros (_ & b' & Hb & ->). inversion Hb; subst. reflexivity.
    + split; [discriminate|]. intros (_ & b' & Hb & _). discriminate.
Qed.

Lemma float_of_int_raises (n : Z) (e : exn) :
  float_of_int n = Raise e -> e = OverflowError.
Proof.
  unfold float_of_int.
  destruct (binary_normalize prec emax n 0 false); congruence.
Qed.

Lemma float_div_int_ZeroDivisionError (a : float) (n : Z) :
  float_div_int a n = Raise ZeroDivisionError <-> n = 0.
Proof.
  unfold float_div_int. destruct (Z.eqb_spec n 0) as [-> | Hn].
  - split; reflexivity.
  - split; [|contradiction].
    destruct (float_of_int n) as [b|e] eqn:Hb; simpl; [discriminate|].
    apply float_of_int_raises in Hb. subst e. discriminate.
Qed.

Lemma default_val_batch_size_max_decay (parsed : Args) :
  max_decay (default_val_batch_size parsed) = max_decay parsed.
Proof. by_default. Qed.

Lemma default_val_batch_size_epochs (parsed : Args) :
  epochs (default_val_batch_size parsed) = epochs parsed.
Proof. by_default. Qed.

(** The decay a run passes to the optimizer is the one [compute_decay]
    returns for the data set and the schedule of the run. *)
Lemma run_decay (W : World) (parsed : Args) m opt sp d :
  In (EvCompile m opt sp) (snd (run W parsed)) ->
  sgd_decay opt = Some d ->
  exists e,
    loaded W parsed e /\
    compute_decay (max_decay parsed)
      (dg_num_train (data_of W parsed (snd e))) (batch_size parsed)
      (epochs parsed)
      (num_epochs_of W (default_val_batch_size parsed)
         (data_of W parsed (snd e))) = Normal d.
Proof.
  intros Hin Hd.
  destruct (run_trained_model W parsed _ m Hin eq_refl)
    as (e & ms & He & _ & Ht & _).
  exists e. split; [exact He|].
  inversion Ht as [| | | | Hft | | | | d' Hdecay | | | | | | | | | |]; subst;
    simpl in Hd; [discriminate|].
  inversion Hd; subst d'.
  rewrite default_val_batch_size_max_decay, default_val_batch_size_epochs,
          default_val_batch_size_batch_size in Hdecay.
  exact Hdecay.
Qed.

(** The training of a run is asked for [E] epochs. *)
Lemma run_training_epochs (W : World) (parsed : Args) m a cbs :
  In (EvFitGenerator m a) (snd (run W parsed)) ->
  fit_callbacks a = Some cbs ->
  exists e,
    loaded W parsed e /\
    fit_epochs a =
    training_epochs (epochs parsed)
      (num_epochs_of W (default_val_batch_size parsed)
         (data_of W parsed (snd e))).
Proof.
  intros Hin Hcbs.
  destruct (run_trained_model W parsed _ m Hin eq_refl)
    as (e & ms & He & _ & Ht & _).
  exists e. split; [exact He|].
  inversion Ht as [| | | | | Hft Hev | | | | Hev | | | | | | | | |]; subst;
    simpl in Hcbs; [discriminate|].
  simpl. rewrite default_val_batch_size_epochs. reflexivity.
Qed.

(** C9, as the code has it.  Without a positive [--max_decay] the decay
    is 0.0.  With one, it is [(1/max_decay - 1)] divided by
    [(num_train // batch_size) * E], where [E] is [--epochs] when that is
    given and not 0 and the epoch count of the schedule otherwise.  The
    computation raises [ZeroDivisionError] exactly when [batch_size] is 0
    or that divisor is 0; for a batch size of at least 1, a non-negative
    [num_train] and a non-negative [E], the divisor is non-zero exactly
    when [batch_size] is at most [num_train] and [E] is at least 1.  In
    a run, the decay passed to the optimizer of the training is computed
    so, from the size of the training set and the epoch count of the
    schedule, and the training is asked for [E] epochs. *)
Theorem decay_computation (W : World) (parsed : Args)
    (decay_bound : float) (num_train size : Z)
    (given_epochs : option Z) (num_epochs : Z) :
  (forall e, given_epochs = Some e -> e <> 0 ->
     training_epochs given_epochs num_epochs = e) /\
  (given_epochs = None \/ given_epochs = Some 0 ->
     training_epochs given_epochs num_epochs = num_epochs) /\
  (float_positive decay_bound = false ->
     compute_decay decay_bound num_train size given_epochs num_epochs
       = Normal 0%float) /\
  (float_positive decay_bound = true ->
     (forall d,
        compute_decay decay_bound num_train size given_epochs num_epochs
          = Normal d <->
        size <> 0 /\
        (num_train / size) * training_epochs given_epochs num_epochs <> 0 /\
        exists b,
          float_of_int ((num_train / size)
                        * training_epochs given_epochs num_epochs)
            = Normal b /\
          d = PrimFloat.div
                (PrimFloat.sub (PrimFloat.div 1%float decay_bound) 1%float)
                b) /\
     (compute_decay decay_bound num_train size given_epochs num_epochs
        = Raise ZeroDivisionError <->
      size = 0 \/
      (num_train / size) * training_epochs given_epochs num_epochs = 0)) /\
  (1 <= size -> 0 <= num_train ->
   0 <= training_epochs given_epochs num_epochs ->
   ((num_train / size) * training_epochs given_epochs num_epochs <> 0 <->
    size <= num_train /\ 1 <= training_epochs given_epochs num_epochs)) /\
  (forall m opt sp d,
     In (EvCompile m opt sp) (snd (run W parsed)) ->
     sgd_decay opt = Some d ->
     exists e,
       loaded W parsed e /\
       compute_decay (max_decay parsed)
         (dg_num_train (data_of W parsed (snd e))) (batch_size parsed)
         (epochs parsed)
         (num_epochs_of W (default_val_batch_size parsed)
            (data_of W parsed (snd e))) = Normal d) /\
  (forall m a cbs,
     In (EvFitGenerator m a) (snd (run W parsed)) ->
     fit_callbacks a = Some cbs ->
     exists e,
       loaded W parsed e /\
       fit_epochs a =
       training_epochs (epochs parsed)
         (num_epochs_of W (default_val_batch_size parsed)
            (data_of W parsed (snd e)))).
Proof.
  split; [|split; [|split; [|split; [|split; [|split]]]]].
  - intros e -> He. unfold training_epochs.
    destruct (Z.eqb_spec e 0); [contradiction | reflexivity].
  - intros [-> | ->]; reflexivity.
  - intros Hpos. unfold compute_decay. rewrite Hpos. reflexivity.
  - intros Hpos. unfold compute_decay, float_div, floor_div. rewrite Hpos.
    rewrite (float_positive_not_zero _ Hpos). cbn [res_bind].
    destruct (Z.eqb_spec size 0) as [Hb | Hb]; cbn [res_bind].
    + split.
      * intros d. split; [discriminate|]. intros [H _]. contradiction.
      * split; [intros _; left; exact Hb | reflexivity].
    + split.
      * intros d. rewrite float_div_int_Normal. tauto.
      * rewrite float_div_int_ZeroDivisionError. tauto.
  - intros Hb Hn He.
    set (E := training_epochs given_epochs num_epochs) in *.
    assert (Hq : num_train / size = 0 <-> num_train < size).
    { rewrite Z.div_small_iff by lia. lia. }
    assert (Hq0 : 0 <= num_train / size)
      by (apply Z.div_pos; lia).
    split.
    + intros Hne. split; [|nia].
      destruct (Z.lt_ge_cases num_train size) as [Hlt|Hge]; [|lia].
      apply Hq in Hlt. rewrite Hlt in Hne. lia.
    + intros [Hle HE] Hz.
      apply Z.mul_eq_0 in Hz. destruct Hz as [Hz | Hz]; [|lia].
      apply Hq in Hz. lia.
  - intros m opt sp d. apply run_decay.
  - intros m a cbs. apply run_training_epochs.
Qed.

(** C9 as stated fails when [--epochs 0] is given: the claim divides by
    [(1000 // 100) * 0], while the code takes the 180 epochs of the
    schedule and returns a decay.  It also fails for a negative [--epochs]:
    with [--epochs -2] the divisor is not zero and the decay is computed,
    though [E] is below 1. *)
Lemma decay_with_zero_epochs :
  training_epochs (Some 0) 180 = 180 /\
  (1000 / 100) * 0 = 0 /\
  compute_decay 0.5%float 1000 100 (Some 0) 180
    = Normal (PrimFloat.div (PrimFloat.sub (PrimFloat.div 1 0.5) 1) 1800)%float /\
  training_epochs (Some (-2)) 180 = -2 /\
  compute_decay 0.5%float 1000 100 (Some (-2)) 180
    = Normal (PrimFloat.div (PrimFloat.sub (PrimFloat.div 1 0.5) 1) (-20))%float.
Proof.
  repeat split; vm_compute; reflexivity.
Qed.

(** * Further properties *)

(** ** What a run returns when no library call fails *)

Section Results.

Variable W : World.
Hypothesis Hsaves : only_saves_fail W.

Lemma result_ret {A} dev (a : A) : result_is dev (ret a) (Normal a).
Proof. intros h. reflexivity. Qed.

Lemma result_lift {A} dev (r : Res A) : result_is dev (lift r) r.
Proof. intros h. reflexivity. Qed.

Lemma result_note dev (ev : Event) : result_is dev (note ev) (Normal tt).
Proof. intros h. reflexivity. Qed.

Lemma result_call dev (ev : Event) :
  is_save ev = false -> result_is dev (call W ev) (Normal tt).
Proof.
  intros Hev h. unfold call. cbn [fst].
  destruct (raises W h ev) as [e|] eqn:Hr; [|reflexivity].
  destruct (Hsaves _ _ _ Hr) as [Hs _]. congruence.
Qed.

Lemma result_call_on_device dev (ev : Device -> Event) :
  is_save (ev dev) = false ->
  result_is dev (call_on_device W ev) (Normal tt).
Proof. intros Hev h. apply (result_call dev (ev dev) Hev h). Qed.

Lemma result_bind {A B} dev (m : M A) (k : A -> M B) (r : Res A)
    (g : A -> Res B) :
  result_is dev m r ->
  (forall a, r = Normal a -> result_is dev (k a) (g a)) ->
  result_is dev (bind m k) (res_bind r g).
Proof.
  intros Hm Hk h. rewrite bind_run, Hm.
  destruct r as [a|e]; cbn [fst res_bind]; [apply (Hk a eq_refl)|reflexivity].
Qed.

Lemma result_seq {A B} dev (m : M A) (k : M B) (a : A) (r : Res B) :
  result_is dev m (Normal a) ->
  result_is dev k r ->
  result_is dev (bind m (fun _ => k)) r.
Proof.
  intros Hm Hk.
  apply (result_bind dev m (fun _ => k) (Normal a) (fun _ => r) Hm).
  intros _ _. exact Hk.
Qed.

Lemma result_with_device {A} dev name (body : M A) (r : Res A) :
  result_is (NamedDevice name) body r ->
  result_is dev (with_device name body) r.
Proof. intros Hb h. exact (Hb h). Qed.

Lemma result_with_open {A} dev path mode (body : M A) (r : Res A) :
  result_is dev body r -> result_is dev (with_open W path mode body) r.
Proof.
  intros Hb. unfold with_open.
  eapply result_seq; [apply result_call; reflexivity|].
  intros h. specialize (Hb h). destruct (body dev h) as [r0 l]. exact Hb.
Qed.

Lemma result_for_each {A} dev (l : list A) (body : A -> M unit) :
  (forall x, result_is dev (body x) (Normal tt)) ->
  result_is dev (for_each l body) (Normal tt).
Proof.
  intros Hb. induction l as [|x l IH]; simpl.
  - apply result_ret.
  - eapply result_seq; [apply Hb | exact IH].
Qed.

(** A failed save is caught. *)
Lemma result_save dev (ev : Event) (msg : exn -> Message) :
  result_is dev
    (try_except is_Exception (call W ev) (fun e => note (EvPrint (msg e))))
    (Normal tt).
Proof.
  intros h. unfold try_except, call, note.
  destruct (raises W h ev) as [e|] eqn:Hr; [|reflexivity].
  destruct (Hsaves _ _ _ Hr) as [_ He]. rewrite He. reflexivity.
Qed.

Lemma cls_model_result (em : Model) (num_classes : Z)
    (cls_base : option string) dev :
  result_is dev (cls_model W em num_classes cls_base)
    (res_bind (selected_base W em cls_base) (fun base =>
     Normal (KerasModel em [OutputOf em; classifier_on num_classes base]))).
Proof.
  unfold cls_model. apply result_bind.
  - destruct cls_base as [name|]; [|apply result_ret].
    intros h. rewrite cls_model_base_run. reflexivity.
  - intros base _. unfold apply_layer, new_model.
    apply (result_bind dev _ _ (Normal (Call (Activation "relu" None) base))
             (fun _ => _)).
    { eapply result_seq; [apply result_call_on_device; reflexivity|].
      apply result_ret. }
    intros x1 Hx1. inversion Hx1; subst x1.
    apply (result_bind dev _ _
             (Normal (Call BatchNormalization
                        (Call (Activation "relu" None) base)))
             (fun _ => _)).
    { eapply result_seq; [apply result_call_on_device; reflexivity|].
      apply result_ret. }
    intros x2 Hx2. inversion Hx2; subst x2.
    apply (result_bind dev _ _ (Normal (classifier_on num_classes base))
             (fun _ => _)).
    { eapply result_seq; [apply result_call_on_device; reflexivity|].
      apply result_ret. }
    intros x3 Hx3. inversion Hx3; subst x3.
    eapply result_seq; [apply result_call_on_device; reflexivity|].
    apply result_ret.
Qed.

Lemma build_or_resume_result (args : Args) (emb : PyVal)
    (dg : DataGenerator) dev :
  result_is dev (build_or_resume W args emb dg) (build_result W args emb dg).
Proof.
  unfold build_or_resume, build_result.
  destruct (snapshot_to_resume W args) as [path|].
  - eapply result_seq; [apply result_note|].
    eapply result_seq; [apply result_call; reflexivity|].
    eapply result_seq; [apply result_call_on_device; reflexivity|].
    apply result_ret.
  - apply result_bind; [apply result_lift|]. intros dim _.
    eapply result_seq; [apply result_call_on_device; reflexivity|].
    cbv zeta. set (net := BuiltNetwork dim (architecture args)).
    apply (result_bind dev _ _ (Normal (embedding_model (loss args) net))
             (fun p =>
                res_bind (if float_positive (cls_weight args) then
                            res_bind (selected_base W (fst p) (cls_base args))
                              (fun base =>
                               Normal (KerasModel (fst p)
                                         [OutputOf (fst p);
                                          classifier_on (dg_num_classes dg)
                                                        base]))
                          else Normal (fst p))
                         (fun m => Normal (m, Some net, snd p)))).
    + unfold embedding_model, apply_layer, new_model.
      destruct (String.eqb (loss args) "inv_corr").
      * apply (result_bind dev _ _
                 (Normal (Call (Lambda l2norm "l2norm") (OutputOf net)))
                 (fun x => Normal (KerasModel net [x], "l2norm"))).
        { eapply result_seq; [apply result_call_on_device; reflexivity|].
          apply result_ret. }
        intros x _.
        apply (result_bind dev _ _ (Normal (KerasModel net [x]))
                 (fun m => Normal (m, "l2norm"))).
        { eapply result_seq; [apply result_call_on_device; reflexivity|].
          apply result_ret. }
        intros m _. apply result_ret.
      * destruct (String.eqb (loss args) "softmax_corr").
        -- apply (result_bind dev _ _
                    (Normal (Call (Activation "softmax" (Some "softmax"))
                               (OutputOf net)))
                    (fun x => Normal (KerasModel net [x], "softmax"))).
           { eapply result_seq; [apply result_call_on_device; reflexivity|].
             apply result_ret. }
           intros x _.
           apply (result_bind dev _ _ (Normal (KerasModel net [x]))
                    (fun m => Normal (m, "softmax"))).
           { eapply result_seq; [apply result_call_on_device; reflexivity|].
             apply result_ret. }
           intros m _. apply result_ret.
        -- apply result_ret.
    + intros p _. apply result_bind.
      * destruct (float_positive (cls_weight args));
          [apply cls_model_result | apply result_ret].
      * intros m _. apply result_ret.
Qed.

Lemma assemble_models_result (args : Args) (emb : PyVal)
    (dg : DataGenerator) dev :
  result_is dev (assemble_models W args emb dg)
    (assemble_result W args emb dg).
Proof.
  unfold assemble_models, assemble_result, replica_of.
  destruct ((gpus args <=? 1) || gpu_merge args) eqn:Hbranch.
  - apply result_bind; [apply build_or_resume_result|]. intros b _.
    destruct (gpus args <=? 1) eqn:Hgpus.
    + apply (result_bind dev _ _ (Normal (fst (fst b)))
               (fun par => Normal {| model := fst (fst b);
                                     embed_model := snd (fst b);
                                     embedding_layer_name := snd b;
                                     par_model := par |}));
        [apply result_ret|].
      intros par _. apply result_ret.
    + simpl in Hbranch. rewrite Hbranch.
      apply (result_bind dev _ _
               (Normal (MultiGpuModel (fst (fst b)) (gpus args) (Some false)))
               (fun par => Normal {| model := fst (fst b);
                                     embed_model := snd (fst b);
                                     embedding_layer_name := snd b;
                                     par_model := par |})).
      * eapply result_seq; [apply result_call_on_device; reflexivity|].
        apply result_ret.
      * intros par _. apply result_ret.
  - apply orb_false_iff in Hbranch. destruct Hbranch as [Hgpus Hmerge].
    apply result_bind;
      [apply result_with_device; apply build_or_resume_result|].
    intros b _. rewrite Hgpus, Hmerge.
    eapply result_seq; [apply result_call_on_device; reflexivity|].
    apply result_ret.
Qed.

Lemma set_trainable_result (m : Model) (f : string -> bool) dev :
  result_is dev (set_trainable W m f) (Normal tt).
Proof.
  unfold set_trainable. apply result_for_each. intros x. apply result_note.
Qed.

Lemma pretrain_result_is (args : Args) (dg : DataGenerator) (ms : Models)
    (kw : TransformKwargs) (the_loss : Loss) (metric : Metric) dev :
  result_is dev (pretrain W args dg ms kw the_loss metric)
    (pretrain_result W args ms).
Proof.
  unfold pretrain, pretrain_result, pretraining_requested.
  destruct (if_set (finetune args)) as [path|]; [|apply result_ret].
  eapply result_seq; [apply result_note|].
  eapply result_seq; [apply result_call; reflexivity|].
  destruct (0 <? finetune_init args); [|apply result_ret].
  eapply result_seq; [apply result_note|].
  eapply result_seq; [apply set_trainable_result|].
  apply result_bind; [apply result_lift|]. intros em _.
  apply result_bind; [apply result_lift|]. intros k _.
  eapply result_seq; [apply result_note|].
  eapply result_seq; [apply result_call; reflexivity|].
  eapply result_seq; [apply result_call; reflexivity|].
  eapply result_seq; [apply set_trainable_result|].
  apply result_note.
Qed.

Lemma configure_callbacks_result (args : Args) (dg : DataGenerator)
    (ms : Models) dev :
  result_is dev (configure_callbacks W args dg ms)
    (Normal (callbacks_of W args dg ms, num_epochs_of W args dg)).
Proof.
  set (sched := lr_schedule_of W (lr_schedule args) (dg_num_train dg)
                               (batch_size args) args).
  assert (Hres : result_is dev (configure_callbacks W args dg ms)
            (res_bind
               (Normal (match if_set (log_dir args) with
                        | Some dir => fst sched ++ [TensorBoard dir false]
                        | None => fst sched
                        end))
               (fun callbacks =>
                  Normal (match if_set (snapshot args) with
                          | Some path =>
                              callbacks ++
                              [if gpus args <=? 1 then ModelCheckpoint path
                               else TemplateModelCheckpoint (model ms) path]
                          | None => callbacks
                          end, snd sched)))).
  { unfold configure_callbacks. fold sched.
    eapply result_seq; [apply result_call; reflexivity|].
    apply result_bind.
    - destruct (if_set (log_dir args)) as [dir|]; [|apply result_ret].
      eapply result_seq; [|apply result_ret].
      destruct (path_isdir W dir);
        [apply result_call; reflexivity | apply result_ret].
    - intros cbs _. apply result_ret. }
  intros h. rewrite (Hres h). cbn [res_bind].
  unfold callbacks_of, num_epochs_of, checkpoint_callback. fold sched.
  destruct (if_set (log_dir args)), (if_set (snapshot args));
    rewrite ?app_nil_r, <- ?app_assoc; reflexivity.
Qed.

Lemma train_result (args : Args) (dg : DataGenerator) (ms : Models)
    (kw : TransformKwargs) (the_loss : Loss) (metric : Metric)
    (callbacks : list Callback) (num_epochs : Z) dev :
  result_is dev (train W args dg ms kw the_loss metric callbacks num_epochs)
    (res_bind (compute_decay (max_decay args) (dg_num_train dg)
                 (batch_size args) (epochs args) num_epochs)
              (fun _ => Normal tt)).
Proof.
  unfold train, compile_model.
  apply result_bind; [apply result_lift|]. intros decay _.
  eapply result_seq; [apply result_call; reflexivity|].
  apply result_call. reflexivity.
Qed.

Lemma evaluate_result (args : Args) (dg : DataGenerator) (ms : Models)
    (kw : TransformKwargs) dev :
  result_is dev (evaluate W args dg ms kw) (Normal tt).
Proof.
  unfold evaluate.
  eapply result_seq; [apply result_call; reflexivity|].
  eapply result_seq; [apply result_note|].
  destruct (float_positive (cls_weight args)); [|apply result_ret].
  eapply result_seq; [apply result_call; reflexivity|].
  eapply result_seq; [apply result_call; reflexivity|].
  apply result_note.
Qed.

Lemma dump_artifacts_result (args : Args) (dg : DataGenerator)
    (ms : Models) dev :
  result_is dev (dump_artifacts W args dg ms) (Normal tt).
Proof.
  unfold dump_artifacts, dump_weights, dump_model, dump_features.
  eapply result_seq.
  { destruct (if_set (weight_dump args));
      [apply result_save | apply result_ret]. }
  eapply result_seq.
  { destruct (if_set (model_dump args));
      [apply result_save | apply result_ret]. }
  destruct (if_set (feature_dump args)) as [path|]; [|apply result_ret].
  eapply result_seq; [apply result_call; reflexivity|].
  apply result_with_open. apply result_call. reflexivity.
Qed.

Lemma run_training_result (args : Args) (emb : PyVal) (dg : DataGenerator)
    (ms : Models) dev :
  result_is dev (run_training W args emb dg ms)
    (res_bind (pretrain_result W args ms) (fun _ =>
     res_bind (compute_decay (max_decay args) (dg_num_train dg)
                 (batch_size args) (epochs args) (num_epochs_of W args dg))
              (fun _ => Normal tt))).
Proof.
  set (decay := compute_decay (max_decay args) (dg_num_train dg)
                  (batch_size args) (epochs args) (num_epochs_of W args dg)).
  assert (Hres : result_is dev (run_training W args emb dg ms)
            (res_bind (pretrain_result W args ms) (fun _ =>
             res_bind (Normal (callbacks_of W args dg ms,
                               num_epochs_of W args dg)) (fun _ =>
             res_bind (res_bind decay (fun _ => Normal tt)) (fun _ =>
             Normal tt))))).
  { unfold run_training. cbv zeta.
    eapply result_seq.
    { destruct (no_progress args);
        [apply result_ret | apply result_call; reflexivity]. }
    apply result_bind; [apply pretrain_result_is|]. intros _ _.
    apply result_bind; [apply configure_callbacks_result|].
    intros sched Hsched. inversion Hsched; subst sched. cbn [fst snd].
    apply result_bind; [apply train_result|].
    intros _ _.
    eapply result_seq; [apply evaluate_result|].
    apply dump_artifacts_result. }
  intros h. rewrite (Hres h).
  destruct (pretrain_result W args ms); [|reflexivity].
  cbn [res_bind]. destruct decay; reflexivity.
Qed.

Lemma load_class_embeddings_result (args : Args) dev :
  result_is dev (load_class_embeddings W args)
    (res_bind (py_getitem (pickle_content W (embedding args)) "ind2label")
       (fun labels =>
     res_bind (py_getitem (pickle_content W (embedding args)) "embedding")
       (fun emb => Normal (emb, labels)))).
Proof.
  unfold load_class_embeddings. apply result_with_open.
  eapply result_seq; [apply result_call; reflexivity|].
  apply result_bind; [apply result_lift|]. intros labels _.
  apply result_bind; [apply result_lift|]. intros emb _.
  apply result_ret.
Qed.

(** The result of a run is the first error of the script itself. *)
Lemma main_result (parsed : Args) dev :
  result_is dev (main W parsed) (run_result W parsed).
Proof.
  unfold main, run_result. cbv zeta.
  set (args := default_val_batch_size parsed).
  eapply result_seq; [apply result_call; reflexivity|].
  intros h. rewrite bind_run, load_class_embeddings_result.
  destruct (py_getitem (pickle_content W (embedding args)) "ind2label")
    as [labels|e]; [|reflexivity].
  cbn [res_bind].
  destruct (py_getitem (pickle_content W (embedding args)) "embedding")
    as [emb|e]; [|reflexivity].
  cbn [res_bind fst snd].
  apply (result_bind dev _ _ (Normal (data_of W args labels)) (fun dg => _)).
  { unfold load_dataset.
    eapply result_seq; [apply result_call; reflexivity|]. apply result_ret. }
  intros dg Hdg. inversion Hdg; subst dg.
  apply result_bind; [apply assemble_models_result|].
  intros ms _. apply run_training_result.
Qed.

End Results.

(** ** Which runs complete *)

Lemma raises_nothing (W : World) (h : list Event) (ev : Event) :
  only_saves_fail W -> is_save ev = false -> raises W h ev = None.
Proof.
  intros Hsaves Hev. destruct (raises W h ev) as [e|] eqn:Hr; [|reflexivity].
  destruct (Hsaves _ _ _ Hr) as [Hs _]. congruence.
Qed.

Lemma pretraining_requested_default (parsed : Args) :
  pretraining_requested (default_val_batch_size parsed)
  = pretraining_requested parsed.
Proof. by_default. Qed.

(** The result of a run, in terms of the parsed arguments. *)
Lemma run_result_parsed (W : World) (parsed : Args) :
  run_result W parsed =
  res_bind (py_getitem (pickle_content W (embedding parsed)) "ind2label")
    (fun labels =>
  res_bind (py_getitem (pickle_content W (embedding parsed)) "embedding")
    (fun emb =>
  res_bind (assemble_result W parsed emb (data_of W parsed labels)) (fun ms =>
  res_bind (pretrain_result W parsed ms) (fun _ =>
  res_bind (compute_decay (max_decay parsed)
              (dg_num_train (data_of W parsed labels)) (batch_size parsed)
              (epochs parsed)
              (num_epochs_of W (default_val_batch_size parsed)
                 (data_of W parsed labels))) (fun _ =>
  Normal tt))))).
Proof.
  unfold run_result, default_val_batch_size.
  destruct (val_batch_size parsed); reflexivity.
Qed.

(** [build_result] computes what [built] describes. *)
Lemma build_result_Normal (W : World) (args : Args) (emb : PyVal)
    (dg : DataGenerator) (b : Model * option Model * string) :
  build_result W args emb dg = Normal b <-> built W args emb dg b.
Proof.
  unfold build_result, built.
  destruct (snapshot_to_resume W args) as [path|].
  - split; [intros H; inversion H; reflexivity | intros ->; reflexivity].
  - destruct (shape1 emb) as [dim|e]; cbn [res_bind].
    + cbv zeta.
      set (em := embedding_model (loss args) (BuiltNetwork dim (architecture args))).
      destruct (float_positive (cls_weight args)).
      * destruct (selected_base W (fst em) (cls_base args)) as [base|e]
          eqn:Hsel; cbn [res_bind].
        -- split.
           ++ intros H. inversion H; subst b. exists dim.
              split; [reflexivity|]. cbn [fst snd].
              split; [reflexivity|]. split; [reflexivity|].
              exists base. split; [exact Hsel | reflexivity].
           ++ intros (dim' & Hdim & Hnet & Hname & base' & Hbase & Hwith).
              inversion Hdim; subst dim'. fold em in Hbase, Hnet, Hname, Hwith.
              assert (base' = base) by congruence. subst base'.
              unfold with_classifier in Hwith.
              destruct b as [[m em'] name]. cbn [fst snd] in *.
              subst. reflexivity.
        -- split; [discriminate|].
           intros (dim' & Hdim & _ & _ & base' & Hbase & _).
           inversion Hdim; subst dim'. fold em in Hbase. congruence.
      * split.
        -- intros H. inversion H; subst b. exists dim.
           split; [reflexivity|]. cbn [fst snd]. auto.
        -- intros (dim' & Hdim & Hnet & Hname & Hm).
           inversion Hdim; subst dim'. fold em in Hnet, Hname, Hm.
           destruct b as [[m em'] name]. cbn [fst snd] in *.
           subst. reflexivity.
    + split; [discriminate|]. intros (dim & Hdim & _). discriminate Hdim.
Qed.

Lemma last_layer_Normal (W : World) (m : Model) :
  (exists k, layer_at W m (-1) = Normal k) <-> layer_names W m <> [].
Proof.
  split.
  - intros [k Hk]. apply layer_at_Normal in Hk.
    intros Hnil. rewrite Hnil in Hk. simpl in Hk. lia.
  - intros Hne. exists (Z.to_nat (-1 + Z.of_nat (length (layer_names W m)))).
    apply layer_at_Normal. right. split; [|reflexivity].
    destruct (layer_names W m); [contradiction|]. simpl length. lia.
Qed.

Lemma pretrain_result_Normal (W : World) (args : Args) (ms : Models) :
  pretrain_result W args ms = Normal tt <->
  (pretraining_requested args = true ->
   exists em, embed_model ms = Some em /\ layer_names W em <> []).
Proof.
  unfold pretrain_result.
  destruct (pretraining_requested args); [|split; [discriminate | reflexivity]].
  destruct (embed_model ms) as [em|]; cbn [res_bind].
  - destruct (layer_at W em (-1)) as [k|e] eqn:Hk; cbn [res_bind].
    + split; [|reflexivity]. intros _ _. exists em. split; [reflexivity|].
      apply last_layer_Normal. exists k. exact Hk.
    + split; [discriminate|]. intros H.
      destruct (H eq_refl) as (em' & Hem & Hne). inversion Hem; subst em'.
      apply last_layer_Normal in Hne. destruct Hne as [k Hk'].
      congruence.
  - split; [discriminate|]. intros H.
    destruct (H eq_refl) as (em' & Hem & _). discriminate Hem.
Qed.

(** A run in which no call fails but the saves completes when each of its
    own computations returns: the two lookups, the shape, the base of the
    classifier, the last layer and the decay. *)
Lemma run_completes_when (W : World) (parsed : Args) :
  only_saves_fail W ->
  (fst (run W parsed) = Normal tt <->
   exists labels emb,
     py_getitem (pickle_content W (embedding parsed)) "ind2label"
       = Normal labels /\
     py_getitem (pickle_content W (embedding parsed)) "embedding"
       = Normal emb /\
     (snapshot_to_resume W parsed = None ->
      exists dim,
        shape1 emb = Normal dim /\
        (float_positive (cls_weight parsed) = true ->
         exists base,
           selected_base W
             (fst (embedding_model (loss parsed)
                     (BuiltNetwork dim (architecture parsed))))
             (cls_base parsed) = Normal base) /\
        (pretraining_requested parsed = true ->
         layer_names W (BuiltNetwork dim (architecture parsed)) <> [])) /\
     (pretraining_requested parsed = true ->
      snapshot_to_resume W parsed = None) /\
     exists decay,
       compute_decay (max_decay parsed)
         (dg_num_train (data_of W parsed labels)) (batch_size parsed)
         (epochs parsed)
         (num_epochs_of W (default_val_batch_size parsed)
            (data_of W parsed labels)) = Normal decay).
Proof.
  intros Hsaves. unfold run.
  rewrite (main_result W Hsaves parsed DefaultDevice []), run_result_parsed.
  destruct (py_getitem (pickle_content W (embedding parsed)) "ind2label")
    as [labels|e1]; cbn [res_bind];
    [|split; [discriminate | intros (l & e & H & _); discriminate H]].
  destruct (py_getitem (pickle_content W (embedding parsed)) "embedding")
    as [emb|e2]; cbn [res_bind];
    [|split; [discriminate | intros (l & e & _ & H & _); discriminate H]].
  set (dg := data_of W parsed labels).
  unfold assemble_result.
  destruct (build_result W parsed emb dg) as [b|e3] eqn:Hb; cbn [res_bind].
  - apply build_result_Normal in Hb.
    set (ms := {| model := fst (fst b); embed_model := snd (fst b);
                  embedding_layer_name := snd b;
                  par_model := replica_of parsed (fst (fst b)) |}).
    assert (Hpre : pretrain_result W parsed ms = Normal tt <->
              (pretraining_requested parsed = true ->
               snapshot_to_resume W parsed = None /\
               forall dim, shape1 emb = Normal dim ->
                 layer_names W (BuiltNetwork dim (architecture parsed)) <> [])).
    { rewrite pretrain_result_Normal. subst ms. cbn [embed_model].
      unfold built in Hb.
      destruct (snapshot_to_resume W parsed) as [path|].
      - subst b. cbn [fst snd]. split.
        + intros H Hreq. destruct (H Hreq) as (em & Hem & _). discriminate Hem.
        + intros H Hreq. destruct (H Hreq) as [Hsnap _]. discriminate Hsnap.
      - destruct Hb as (dim & Hdim & Hnet & _). cbv zeta in Hnet.
        rewrite Hnet. split.
        + intros H Hreq. destruct (H Hreq) as (em & Hem & Hne).
          inversion Hem; subst em. split; [reflexivity|].
          intros dim' Hdim'. congruence.
        + intros H Hreq. destruct (H Hreq) as [_ Hne].
          eexists. split; [reflexivity|]. apply Hne. exact Hdim. }
    split.
    + intros Hrun. exists labels, emb.
      split; [reflexivity|]. split; [reflexivity|].
      destruct (pretrain_result W parsed ms) as [[]|e4] eqn:Hp;
        [|discriminate Hrun].
      cbn [res_bind] in Hrun.
      destruct (compute_decay (max_decay parsed) (dg_num_train dg)
                  (batch_size parsed) (epochs parsed)
                  (num_epochs_of W (default_val_batch_size parsed) dg))
        as [d|e5] eqn:Hd; [|discriminate Hrun].
      pose proof (proj1 Hpre eq_refl) as Hreq.
      split; [|split; [intros H; exact (proj1 (Hreq H)) | exists d; exact Hd]].
      intros Hsnap. unfold built in Hb. rewrite Hsnap in Hb.
      destruct Hb as (dim & Hdim & _ & _ & Hcls). cbv zeta in Hcls.
      exists dim. split; [exact Hdim|]. split.
      * intros Hcw. rewrite Hcw in Hcls.
        destruct Hcls as (base & Hbase & _). exists base. exact Hbase.
      * intros H. exact (proj2 (Hreq H) dim Hdim).
    + intros (l & e & Hl & He & Hbuild & Hnot & d & Hd).
      inversion Hl; subst l. inversion He; subst e. fold dg in Hd.
      assert (Hp : pretrain_result W parsed ms = Normal tt).
      { apply Hpre. intros Hreq. split; [exact (Hnot Hreq)|].
        intros dim Hdim. destruct (Hbuild (Hnot Hreq)) as (dim' & Hdim' & _ & H).
        assert (dim' = dim) by congruence. subst dim'. exact (H Hreq). }
      rewrite Hp. cbn [res_bind]. rewrite Hd. reflexivity.
  - split; [discriminate|].
    intros (l & e & Hl & He & Hbuild & Hnot & d & Hd).
    inversion Hl; subst l. inversion He; subst e. exfalso.
    assert (Hnone : forall b, ~ built W parsed emb dg b).
    { intros b Hbuilt. apply build_result_Normal in Hbuilt. congruence. }
    destruct (snapshot_to_resume W parsed) as [path|] eqn:Hsnap.
    + apply (Hnone (LoadedModel path (architecture parsed), None, "embedding")).
      unfold built. rewrite Hsnap. reflexivity.
    + destruct (Hbuild eq_refl) as (dim & Hdim & Hcls & _).
      set (em := embedding_model (loss parsed)
                   (BuiltNetwork dim (architecture parsed))) in *.
      destruct (float_positive (cls_weight parsed)) eqn:Hcw.
      * destruct (Hcls eq_refl) as [base Hbase].
        apply (Hnone (KerasModel (fst em)
                        [OutputOf (fst em);
                         classifier_on (dg_num_classes dg) base],
                      Some (BuiltNetwork dim (architecture parsed)), snd em)).
        unfold built. rewrite Hsnap. exists dim. split; [exact Hdim|].
        cbn [fst snd]. split; [reflexivity|]. split; [reflexivity|].
        rewrite Hcw. exists base. split; [exact Hbase | reflexivity].
      * apply (Hnone (fst em, Some (BuiltNetwork dim (architecture parsed)),
                      snd em)).
        unfold built. rewrite Hsnap. exists dim. split; [exact Hdim|].
        cbn [fst snd]. split; [reflexivity|]. split; [reflexivity|].
        rewrite Hcw. reflexivity.
Qed.

Lemma shape1_Normal (emb : PyVal) (dim : nat) :
  shape1 emb = Normal dim <-> exists a, emb = VArray a /\ dim = nd_cols a.
Proof.
  unfold shape1. split.
  - destruct emb as [a| | | |]; try discriminate.
    intros H. inversion H. exists a. auto.
  - intros (a & -> & ->). reflexivity.
Qed.

(** X1.  In a world where no call fails but the saves (and those
    with instances of [Exception]), a run completes if and only if
    - the pickle holds ['ind2label'] and ['embedding'];
    - when there is no snapshot to resume from, the embedding is an array
      of two dimensions or more (an array of fewer dimensions has no
      [shape[1]], nor has a list or [None]), [--cls_base] selects a layer
      of the embedding model when [--cls_weight] is positive, and the
      network has a layer when the pre-training is asked for;
    - the pre-training is not asked for together with a resume;
    - the decay can be computed. *)
Theorem run_completes_iff (W : World) (parsed : Args) :
  only_saves_fail W ->
  (fst (run W parsed) = Normal tt <->
   exists labels emb,
     py_getitem (pickle_content W (embedding parsed)) "ind2label"
       = Normal labels /\
     py_getitem (pickle_content W (embedding parsed)) "embedding"
       = Normal emb /\
     (snapshot_to_resume W parsed = None ->
      exists a,
        emb = VArray a /\
        (float_positive (cls_weight parsed) = true ->
         exists base,
           selected_base W
             (fst (embedding_model (loss parsed)
                     (BuiltNetwork (nd_cols a) (architecture parsed))))
             (cls_base parsed) = Normal base) /\
        (pretraining_requested parsed = true ->
         layer_names W (BuiltNetwork (nd_cols a) (architecture parsed))
         <> [])) /\
     (pretraining_requested parsed = true ->
      snapshot_to_resume W parsed = None) /\
     exists decay,
       compute_decay (max_decay parsed)
         (dg_num_train (data_of W parsed labels)) (batch_size parsed)
         (epochs parsed)
         (num_epochs_of W (default_val_batch_size parsed)
            (data_of W parsed labels)) = Normal decay).
Proof.
  intros Hsaves. rewrite (run_completes_when W parsed Hsaves). split.
  - intros (labels & emb & Hl & He & Hbuild & Hnot & Hdecay).
    exists labels, emb. split; [exact Hl|]. split; [exact He|].
    split; [|split; [exact Hnot | exact Hdecay]].
    intros Hsnap. destruct (Hbuild Hsnap) as (dim & Hdim & Hcls & Hlast).
    apply shape1_Normal in Hdim. destruct Hdim as (a & -> & ->).
    exists a. split; [reflexivity|]. split; assumption.
  - intros (labels & emb & Hl & He & Hbuild & Hnot & Hdecay).
    exists labels, emb. split; [exact Hl|]. split; [exact He|].
    split; [|split; [exact Hnot | exact Hdecay]].
    intros Hsnap. destruct (Hbuild Hsnap) as (a & -> & Hcls & Hlast).
    exists (nd_cols a). split; [reflexivity|]. split; assumption.
Qed.

Lemma run_completes_iff_witness :
  fst (run failing_world (finetune_args None None)) = Normal tt <->
  exists labels emb,
    py_getitem (pickle_content failing_world
                  (embedding (finetune_args None None))) "ind2label"
      = Normal labels /\
    py_getitem (pickle_content failing_world
                  (embedding (finetune_args None None))) "embedding"
      = Normal emb /\
    (snapshot_to_resume failing_world (finetune_args None None) = None ->
     exists a,
       emb = VArray a /\
       (float_positive (cls_weight (finetune_args None None)) = true ->
        exists base,
          selected_base failing_world
            (fst (embedding_model (loss (finetune_args None None))
                    (BuiltNetwork (nd_cols a)
                       (architecture (finetune_args None None)))))
            (cls_base (finetune_args None None)) = Normal base) /\
       (pretraining_requested (finetune_args None None) = true ->
        layer_names failing_world
          (BuiltNetwork (nd_cols a) (architecture (finetune_args None None)))
        <> [])) /\
    (pretraining_requested (finetune_args None None) = true ->
     snapshot_to_resume failing_world (finetune_args None None) = None) /\
    exists decay,
      compute_decay (max_decay (finetune_args None None))
        (dg_num_train (data_of failing_world (finetune_args None None) labels))
        (batch_size (finetune_args None None))
        (epochs (finetune_args None None))
        (num_epochs_of failing_world
           (default_val_batch_size (finetune_args None None))
           (data_of failing_world (finetune_args None None) labels))
      = Normal decay.
Proof.
  apply (run_completes_iff failing_world (finetune_args None None)).
  intros h ev e H. destruct ev; simpl in H; try discriminate H;
    inversion H; split; reflexivity.
Defined.

(** A one-dimensional embedding stops a run that builds its network, at
    [embedding.shape[1]] and before any model is made; a run that resumes
    from its snapshot never reads the shape and completes. *)
Example vector_embedding_runs :
  run vector_world default_args =
  (Raise IndexError,
   [EvSetSession; EvOpen "emb.pickle" "rb"; EvPickleLoad "emb.pickle";
    EvClose "emb.pickle";
    EvGetDataGenerator "CIFAR-100" "/data" (VList ["cat"; "dog"; "fox"])]) /\
  fst (run vector_world resume_args) = Normal tt.
Proof. split; vm_compute; reflexivity. Qed.

(** ** A pickle without the keys *)

Lemma load_class_embeddings_run (W : World) (args : Args) dev h :
  only_saves_fail W ->
  load_class_embeddings W args dev h =
  (res_bind (py_getitem (pickle_content W (embedding args)) "ind2label")
     (fun labels =>
   res_bind (py_getitem (pickle_content W (embedding args)) "embedding")
     (fun emb => Normal (emb, labels))),
   [EvOpen (embedding args) "rb"; EvPickleLoad (embedding args);
    EvClose (embedding args)]).
Proof.
  intros Hsaves.
  unfold load_class_embeddings, with_open, bind, call, lift, ret.
  rewrite !(raises_nothing W _ _ Hsaves) by reflexivity.
  destruct (py_getitem (pickle_content W (embedding args)) "ind2label");
    [|reflexivity].
  destruct (py_getitem (pickle_content W (embedding args)) "embedding");
    reflexivity.
Qed.

Lemma py_getitem_raises (obj : PyObj) (key : string) (e : exn) :
  py_getitem obj key = Raise e ->
  e = match obj with
      | PDict _ => KeyError
      | PArray => IndexError
      | PNotDict => TypeError
      end.
Proof.
  unfold py_getitem. destruct obj as [d| |]; [destruct (d !! key)| |];
    intros H; inversion H; reflexivity.
Qed.

(** X2.  When the unpickled object is a plain [dict] that lacks
    ['ind2label'] or ['embedding'], or is no [dict] at all, and opening and
    reading the pickle do not fail, the run stops right after the pickle was
    read:
    with [KeyError] for the [dict], with [IndexError] for a bare numpy
    array, which takes no string as an index, and with [TypeError] for an
    object without subscripts.  The file is closed, and no data set is
    loaded and no model made. *)
Theorem missing_pickle_key_stops_run (W : World) (parsed : Args) :
  only_saves_fail W ->
  (forall d, pickle_content W (embedding parsed) = PDict d ->
             d !! "ind2label" = None \/ d !! "embedding" = None) ->
  run W parsed =
  (Raise match pickle_content W (embedding parsed) with
         | PDict _ => KeyError
         | PArray => IndexError
         | PNotDict => TypeError
         end,
   [EvSetSession; EvOpen (embedding parsed) "rb";
    EvPickleLoad (embedding parsed); EvClose (embedding parsed)]).
Proof.
  intros Hsaves Hmissing.
  set (args := default_val_batch_size parsed).
  set (obj := pickle_content W (embedding parsed)) in *.
  assert (Hlookup :
            res_bind (py_getitem obj "ind2label") (fun labels =>
            res_bind (py_getitem obj "embedding") (fun emb =>
            Normal (emb, labels)))
            = Raise match obj with
                    | PDict _ => KeyError
                    | PArray => IndexError
                    | PNotDict => TypeError
                    end).
  { destruct obj as [d| |] eqn:Hobj; [|reflexivity|reflexivity].
    unfold py_getitem.
    destruct (d !! "ind2label") as [labels|] eqn:Hl; [|reflexivity].
    destruct (d !! "embedding") as [emb|] eqn:He; [|reflexivity].
    exfalso. destruct (Hmissing d eq_refl); congruence. }
  assert (Hload : forall dev h,
            load_class_embeddings W args dev h =
            (Raise match obj with
                   | PDict _ => KeyError
                   | PArray => IndexError
                   | PNotDict => TypeError
                   end,
             [EvOpen (embedding parsed) "rb";
              EvPickleLoad (embedding parsed); EvClose (embedding parsed)])).
  { assert (Hemb : embedding args = embedding parsed)
      by apply default_val_batch_size_embedding.
    intros dev h. rewrite load_class_embeddings_run by exact Hsaves.
    rewrite Hemb. fold obj. rewrite Hlookup. reflexivity. }
  assert (Hcall : call W EvSetSession DefaultDevice []
                  = (Normal tt, [EvSetSession])).
  { unfold call. rewrite (raises_nothing W _ _ Hsaves) by reflexivity.
    reflexivity. }
  unfold run, main. cbv zeta. fold args.
  rewrite bind_run, Hcall. cbn [fst snd].
  rewrite bind_run, Hload. reflexivity.
Qed.

Lemma missing_pickle_key_stops_run_witness :
  run labels_only_world default_args =
  (Raise KeyError,
   [EvSetSession; EvOpen "emb.pickle" "rb"; EvPickleLoad "emb.pickle";
    EvClose "emb.pickle"]) /\
  run array_pickle_world default_args =
  (Raise IndexError,
   [EvSetSession; EvOpen "emb.pickle" "rb"; EvPickleLoad "emb.pickle";
    EvClose "emb.pickle"]).
Proof.
  split.
  - apply (missing_pickle_key_stops_run labels_only_world default_args).
    + intros h ev e H. discriminate H.
    + intros d Hd. right. inversion Hd. reflexivity.
  - apply (missing_pickle_key_stops_run array_pickle_world default_args).
    + intros h ev e H. discriminate H.
    + intros d Hd. discriminate Hd.
Defined.

(** ** The pre-training *)

Section Pretraining.

Variable W : World.

Ltac plain := split; [reflexivity | intros; discriminate].

Lemma set_trainable_layers (m : Model) (f : string -> bool) dev
    (P : Event -> Prop) :
  (forall k name, layer_names W m !! k = Some name ->
                  P (EvSetTrainable m k (f name))) ->
  spec dev (set_trainable W m f) P (fun _ => True).
Proof.
  intros HP. unfold set_trainable. apply spec_for_each.
  intros x Hx. apply spec_say.
  apply list_elem_of_In, elem_of_lookup_imap_1 in Hx.
  destruct Hx as (k & name & -> & Hk). cbn [fst snd]. apply HP. exact Hk.
Qed.

Lemma pretrain_guard (args : Args) (dg : DataGenerator) (ms : Models)
    (kw : TransformKwargs) (the_loss : Loss) (metric : Metric) dev :
  spec dev (pretrain W args dg ms kw the_loss metric)
    (pretraining_guard W args ms)
    (fun _ => pretraining_requested args = true -> embed_model ms <> None).
Proof.
  unfold pretrain, pretraining_guard.
  assert (Hquiet : forall ev,
            is_pretraining ev = false ->
            after_embed_model_read ev = false ->
            (forall m k, ev <> EvSetTrainable m k false) ->
            pretraining_guard W args ms ev).
  { intros ev H1 H2 H3. split; [rewrite H1; discriminate|].
    split; [rewrite H2; discriminate|].
    intros m k Hev. exfalso. exact (H3 m k Hev). }
  unfold pretraining_guard in Hquiet.
  destruct (if_set (finetune args)) as [path|] eqn:Hft.
  2:{ apply spec_ret. unfold pretraining_requested. rewrite Hft. discriminate. }
  apply spec_seq;
    [apply spec_say; apply Hquiet; [reflexivity | reflexivity | discriminate]|].
  apply spec_seq;
    [apply spec_emit; apply Hquiet; [reflexivity | reflexivity | discriminate]|].
  destruct (0 <? finetune_init args) eqn:Hinit.
  2:{ apply spec_ret. unfold pretraining_requested. rewrite Hft, Hinit.
      discriminate. }
  assert (Hreq : pretraining_requested args = true).
  { unfold pretraining_requested. rewrite Hft. exact Hinit. }
  apply spec_seq;
    [apply spec_say; apply Hquiet; [reflexivity | reflexivity | discriminate]|].
  apply spec_seq.
  { apply set_trainable_layers. intros k name Hk.
    split; [discriminate|]. split; [discriminate|].
    intros m k' Hev. injection Hev as Hm Hk' Hf. subst m k'.
    split; [exact Hreq|]. split; [reflexivity|].
    exists name. split; [exact Hk|].
    apply orb_false_iff in Hf. destruct Hf as [He Hp].
    split; [apply String.eqb_neq, He | apply String.eqb_neq, Hp]. }
  apply (spec_bind dev _ _ _ (fun em => embed_model ms = Some em)).
  { apply spec_lift. intros em Hem.
    destruct (embed_model ms); [congruence | discriminate]. }
  intros em Hem.
  assert (Hbound : embed_model ms <> None) by congruence.
  apply (spec_bind dev _ _ _ (fun _ => True));
    [apply spec_lift; intros; exact I|].
  intros k _.
  apply spec_seq;
    [apply spec_say; apply Hquiet; [reflexivity | reflexivity | discriminate]|].
  apply spec_seq.
  { unfold compile_model. apply spec_emit.
    split; [intros _; exact Hreq|]. split; [intros _ _; exact Hbound|].
    discriminate. }
  apply spec_seq.
  { apply spec_emit.
    split; [intros _; exact Hreq|]. split; [intros _ _; exact Hbound|].
    discriminate. }
  apply spec_seq.
  { apply set_trainable_layers. intros k' name Hk.
    apply Hquiet; [reflexivity | reflexivity | discriminate]. }
  apply spec_note; [|intros _; exact Hbound].
  apply Hquiet; [reflexivity | reflexivity | discriminate].
Qed.

Lemma configure_callbacks_plain (args : Args) (dg : DataGenerator)
    (ms : Models) dev :
  spec dev (configure_callbacks W args dg ms) plain_call (fun _ => True).
Proof.
  unfold configure_callbacks.
  apply spec_seq; [apply spec_emit; plain|].
  apply (spec_bind dev _ _ _ (fun _ => True)).
  - destruct (if_set (log_dir args)) as [dir|]; [|apply spec_ret; exact I].
    apply spec_seq; [|apply spec_ret; exact I].
    destruct (path_isdir W dir); [apply spec_emit; plain | apply spec_ret; exact I].
  - intros cbs _. apply spec_ret. exact I.
Qed.

Lemma train_plain (args : Args) (dg : DataGenerator) (ms : Models)
    (kw : TransformKwargs) (the_loss : Loss) (metric : Metric)
    (callbacks : list Callback) (num_epochs : Z) dev :
  spec dev (train W args dg ms kw the_loss metric callbacks num_epochs)
    plain_call (fun _ => True).
Proof.
  unfold train, compile_model.
  apply (spec_bind dev _ _ _ (fun _ => True));
    [apply spec_lift; intros; exact I|].
  intros decay _.
  apply spec_seq; [apply spec_emit; plain|].
  apply spec_emit. plain.
Qed.

Lemma evaluate_plain (args : Args) (dg : DataGenerator) (ms : Models)
    (kw : TransformKwargs) dev :
  spec dev (evaluate W args dg ms kw) plain_call (fun _ => True).
Proof.
  unfold evaluate.
  apply spec_seq; [apply spec_emit; plain|].
  apply spec_seq; [apply spec_say; plain|].
  destruct (float_positive (cls_weight args)); [|apply spec_ret; exact I].
  apply spec_seq; [apply spec_emit; plain|].
  apply spec_seq; [apply spec_emit; plain|].
  apply spec_say. plain.
Qed.

Lemma dump_artifacts_plain (args : Args) (dg : DataGenerator) (ms : Models)
    dev :
  spec dev (dump_artifacts W args dg ms) plain_call (fun _ => True).
Proof.
  unfold dump_artifacts, dump_weights, dump_model, dump_features.
  apply spec_seq.
  { destruct (if_set (weight_dump args)); [|apply spec_ret; exact I].
    apply spec_try_except; [apply spec_emit; plain|].
    intros e _. apply spec_say. plain. }
  apply spec_seq.
  { destruct (if_set (model_dump args)); [|apply spec_ret; exact I].
    apply spec_try_except; [apply spec_emit; plain|].
    intros e _. apply spec_say. plain. }
  destruct (if_set (feature_dump args)) as [path|]; [|apply spec_ret; exact I].
  apply spec_seq; [apply spec_emit; plain|].
  apply spec_with_open; [plain | plain | apply spec_emit; plain].
Qed.

Lemma run_training_guard (args : Args) (emb : PyVal) (dg : DataGenerator)
    (ms : Models) dev :
  spec dev (run_training W args emb dg ms)
    (pretraining_guard W args ms)
    (fun _ => pretraining_requested args = true -> embed_model ms <> None).
Proof.
  assert (Hplain : forall ev,
            (pretraining_requested args = true -> embed_model ms <> None) ->
            plain_call ev -> pretraining_guard W args ms ev).
  { intros ev Hret [H1 H2]. split; [rewrite H1; discriminate|].
    split; [intros _; exact Hret|].
    intros m k Hev. exfalso. exact (H2 m k Hev). }
  unfold run_training. cbv zeta.
  apply spec_seq.
  { destruct (no_progress args); [apply spec_ret; exact I|].
    apply spec_emit. split; [discriminate|]. split; [discriminate|].
    discriminate. }
  eapply spec_bind; [apply pretrain_guard|]. intros u Hret. cbv beta in Hret.
  apply (spec_bind dev _ _ _ (fun _ => True)).
  { eapply spec_weaken;
      [apply configure_callbacks_plain | intros ev0; exact (Hplain ev0 Hret) | intros; exact I]. }
  intros sched _.
  apply spec_seq.
  { eapply spec_weaken;
      [apply train_plain | intros ev0; exact (Hplain ev0 Hret) | intros; exact I]. }
  apply spec_seq.
  { eapply spec_weaken;
      [apply evaluate_plain | intros ev0; exact (Hplain ev0 Hret) | intros; exact I]. }
  eapply spec_weaken;
    [apply dump_artifacts_plain | intros ev0; exact (Hplain ev0 Hret) | intros a _; exact Hret].
Qed.

Lemma assembled_embed_model (args : Args) (emb : PyVal) (dg : DataGenerator)
    (ms : Models) :
  assembled W args emb dg ms ->
  embed_model ms <> None -> snapshot_to_resume W args = None.
Proof.
  intros [Hb _] Hem. unfold built in Hb.
  destruct (snapshot_to_resume W args); [|reflexivity].
  inversion Hb. congruence.
Qed.

(** The calls of a run obey the guard of the pre-training, and a run that
    completes did not ask for the pre-training together with a resume. *)
Lemma main_guard (parsed : Args) :
  spec DefaultDevice (main W parsed)
    (fun ev =>
       (after_embed_model_read ev = true ->
        pretraining_requested parsed = true ->
        snapshot_to_resume W parsed = None) /\
       (is_pretraining ev = true -> pretraining_requested parsed = true) /\
       (forall m k, ev = EvSetTrainable m k false ->
          pretraining_requested parsed = true /\
          (exists e b,
             loaded W parsed e /\
             built W parsed (fst e) (data_of W parsed (snd e)) b /\
             m = fst (fst b)) /\
          exists name,
            layer_names W m !! k = Some name /\
            name <> "embedding" /\ name <> "prob"))
    (fun _ => pretraining_requested parsed = true ->
              snapshot_to_resume W parsed = None).
Proof.
  unfold main. cbv zeta.
  set (args := default_val_batch_size parsed).
  set (P := fun ev : Event => _).
  assert (Hother : forall ev,
            after_embed_model_read ev = false -> plain_call ev -> P ev).
  { intros ev H1 [H2 H3]. subst P. cbv beta.
    split; [rewrite H1; discriminate|].
    split; [rewrite H2; discriminate|].
    intros m k Hev. exfalso. exact (H3 m k Hev). }
  apply spec_seq; [apply spec_emit; apply Hother; [reflexivity | plain]|].
  apply (spec_bind _ _ _ _ (loaded W args)).
  { eapply spec_weaken;
      [apply load_class_embeddings_spec | | intros a Ha; exact Ha].
    intros ev Hev. inversion Hev; apply Hother; first [reflexivity | plain]. }
  intros e He.
  apply (spec_bind _ _ _ _ (fun dg => dg = data_of W args (snd e))).
  { unfold load_dataset.
    apply spec_seq; [|apply spec_ret; reflexivity].
    apply spec_emit. apply Hother; [reflexivity | plain]. }
  intros dg ->.
  apply (spec_bind _ _ _ _ (assembled W args (fst e) (data_of W args (snd e)))).
  { eapply spec_weaken;
      [apply assemble_models_spec | | intros a Ha; exact Ha].
    intros ev Hev. inversion Hev as [ev' Hb | b Hb Hg]; subst;
      [|apply Hother; [reflexivity | plain]].
    inversion Hb as [| | | | | | ? ev' ? ? ? Hc]; subst;
      try (apply Hother; [reflexivity | plain]).
    inversion Hc; subst; apply Hother; first [reflexivity | plain]. }
  intros ms Hms.
  pose proof (assembled_embed_model _ _ _ _ Hms) as Hbound.
  subst args.
  rewrite snapshot_to_resume_default in Hbound.
  rewrite loaded_default in He. rewrite data_of_default in *.
  eapply spec_weaken; [apply run_training_guard | |].
  - intros ev (H1 & H2 & H3). rewrite pretraining_requested_default in *.
    subst P. cbv beta.
    split; [intros Ha Hreq; exact (Hbound (H2 Ha Hreq))|].
    split; [exact H1|].
    intros m k Hev. destruct (H3 m k Hev) as (Hreq & Hm & Hname).
    split; [exact Hreq|]. split; [|exact Hname].
    destruct Hms as [Hb _]. rewrite built_default in Hb.
    exists e, (model ms, embed_model ms, embedding_layer_name ms).
    split; [exact He|]. split; [exact Hb | exact Hm].
  - intros u Hret Hreq. cbv beta in Hret.
    rewrite pretraining_requested_default in Hret.
    exact (Hbound (Hret Hreq)).
Qed.

End Pretraining.

Lemma is_pretraining_after (ev : Event) :
  is_pretraining ev = true -> after_embed_model_read ev = true.
Proof. destruct ev; simpl; congruence. Qed.

Lemma default_val_batch_size_finetune_init (parsed : Args) :
  finetune_init (default_val_batch_size parsed) = finetune_init parsed.
Proof. by_default. Qed.

(** X3.  A run that resumes from a snapshot while the
    pre-training is asked for ([--finetune] set and [finetune_init > 0])
    never completes and never gets as far as compiling, fitting, evaluating
    or dumping anything: line 167 reads [embed_model], which only a run
    that builds its network binds.  When no call fails and the pickle is in
    order, the error is [NameError]. *)
Theorem resumed_run_cannot_pretrain (W : World) (parsed : Args)
    (path : string) :
  snapshot_to_resume W parsed = Some path ->
  pretraining_requested parsed = true ->
  (exists e, fst (run W parsed) = Raise e) /\
  Forall (fun ev => after_embed_model_read ev = false) (snd (run W parsed)) /\
  (only_saves_fail W ->
   (exists e, loaded W parsed e) ->
   fst (run W parsed) = Raise NameError).
Proof.
  intros Hsnap Hreq.
  destruct (main_guard W parsed []) as [Hcalls Hret]. fold (run W parsed) in *.
  split; [|split].
  - destruct (fst (run W parsed)) as [[]|e] eqn:Hrun; [|exists e; reflexivity].
    exfalso. specialize (Hret tt eq_refl Hreq). congruence.
  - eapply Forall_impl; [exact Hcalls|]. intros ev (H1 & _).
    destruct (after_embed_model_read ev); [|reflexivity].
    specialize (H1 eq_refl Hreq). congruence.
  - intros Hsaves (e & Hl & He). unfold run.
    rewrite (main_result W Hsaves parsed DefaultDevice []), run_result_parsed.
    rewrite Hl, He. cbn [res_bind].
    unfold assemble_result, build_result. rewrite Hsnap. cbn [res_bind].
    unfold pretrain_result. rewrite Hreq. reflexivity.
Qed.

Lemma resumed_run_cannot_pretrain_witness :
  (exists e,
     fst (run sample_world (finetune_args (Some "snap.h5") None)) = Raise e) /\
  Forall (fun ev => after_embed_model_read ev = false)
         (snd (run sample_world (finetune_args (Some "snap.h5") None))) /\
  (only_saves_fail sample_world ->
   (exists e, loaded sample_world (finetune_args (Some "snap.h5") None) e) ->
   fst (run sample_world (finetune_args (Some "snap.h5") None))
   = Raise NameError).
Proof.
  apply (resumed_run_cannot_pretrain sample_world
           (finetune_args (Some "snap.h5") None) "snap.h5");
    vm_compute; reflexivity.
Defined.

(** What the resumed run does before it stops: it loads the snapshot and
    the pre-trained weights and freezes three layers. *)
Example resumed_pretraining_log :
  run sample_world (finetune_args (Some "snap.h5") None) =
  (Raise NameError,
   [EvSetSession; EvOpen "emb.pickle" "rb"; EvPickleLoad "emb.pickle";
    EvClose "emb.pickle";
    EvGetDataGenerator "CIFAR-100" "/data" (VList ["cat"; "dog"; "fox"]);
    EvPrint (MsgResuming "snap.h5"); EvGetCustomObjects "simple";
    EvLoadModel DefaultDevice "snap.h5" "simple";
    EvSummary (LoadedModel "snap.h5" "simple");
    EvPrint (MsgLoadingWeights "pre.h5");
    EvLoadWeights (LoadedModel "snap.h5" "simple") "pre.h5";
    EvPrint MsgPretraining;
    EvSetTrainable (LoadedModel "snap.h5" "simple") 0 false;
    EvSetTrainable (LoadedModel "snap.h5" "simple") 1 false;
    EvSetTrainable (LoadedModel "snap.h5" "simple") 2 true;
    EvSetTrainable (LoadedModel "snap.h5" "simple") 3 false]).
Proof. vm_compute. reflexivity. Qed.

(** X4.  A [compile] call without [decay] and a [fit_generator]
    call without callbacks are made only by the pre-training: only when
    [--finetune] is set, [finetune_init > 0] and the network was built
    rather than resumed; such a fit runs for [finetune_init] epochs and
    passes no [initial_epoch]. *)
Theorem pretraining_calls (W : World) (parsed : Args) :
  Forall (fun ev =>
            is_pretraining ev = true ->
            pretraining_requested parsed = true /\
            snapshot_to_resume W parsed = None /\
            forall pm a, ev = EvFitGenerator pm a ->
              fit_epochs a = finetune_init parsed /\
              fit_initial_epoch a = None)
         (snd (run W parsed)).
Proof.
  destruct (main_guard W parsed []) as [Hcalls _]. fold (run W parsed) in *.
  apply List.Forall_forall. intros ev Hin Hpre.
  rewrite List.Forall_forall in Hcalls.
  destruct (Hcalls ev Hin) as (H1 & H2 & _).
  pose proof (H2 Hpre) as Hreq.
  split; [exact Hreq|].
  split; [exact (H1 (is_pretraining_after ev Hpre) Hreq)|].
  intros pm a ->.
  destruct (run_trained_model W parsed _ pm Hin eq_refl)
    as (e & ms & _ & _ & Ht & _).
  inversion Ht; subst.
  - cbn [pretrain_fit_args fit_epochs fit_initial_epoch].
    split; [apply default_val_batch_size_finetune_init | reflexivity].
  - discriminate Hpre.
Qed.

(** X5.  A layer is made untrainable only by the pre-training, in
    the base model, and only when its name is neither ['embedding'] nor
    ['prob']. *)
Theorem frozen_layers (W : World) (parsed : Args) :
  Forall (fun ev =>
            forall m k, ev = EvSetTrainable m k false ->
              pretraining_requested parsed = true /\
              (exists e b,
                 loaded W parsed e /\
                 built W parsed (fst e) (data_of W parsed (snd e)) b /\
                 m = fst (fst b)) /\
              exists name,
                layer_names W m !! k = Some name /\
                name <> "embedding" /\ name <> "prob")
         (snd (run W parsed)).
Proof.
  destruct (main_guard W parsed []) as [Hcalls _]. fold (run W parsed) in *.
  eapply Forall_impl; [exact Hcalls|].
  intros ev (_ & _ & H3). exact H3.
Qed.

(** A run that builds its network and pre-trains it: the pre-training
    compiles and fits for 8 epochs, the layers frozen meanwhile are the
    input, the convolution and the normalisation, and the run completes. *)
Example pretraining_run :
  fst (run sample_world (finetune_args None None)) = Normal tt /\
  omap (fun ev => match ev with
                  | EvSetTrainable _ k false => Some k
                  | _ => None
                  end) (snd (run sample_world (finetune_args None None)))
    = [0; 1; 3]%nat /\
  omap (fun ev => match ev with
                  | EvFitGenerator _ a => Some (fit_epochs a, fit_callbacks a)
                  | _ => None
                  end) (snd (run sample_world (finetune_args None None)))
    = [(8, None); (180, Some [ScheduleCallback 0])].
Proof. repeat split; vm_compute; reflexivity. Qed.

(** ** Invariants of the log *)

(** An invariant [J] of logs that holds of the empty log, is kept by
    concatenation and holds of every single call that is [ok] holds of the
    log of a run, once it is known of the places where the script makes a
    call that is not [ok] by itself: compiling and fitting, and reading or
    writing a pickle in a [with] block. *)
Section Traces.

Variable W : World.
Variable J : list Event -> Prop.
Variable ok : Event -> Prop.
Hypothesis J_nil : J [].
Hypothesis J_app : forall l1 l2, J l1 -> J l2 -> J (l1 ++ l2).
Hypothesis J_one : forall ev, ok ev -> J [ev].
Hypothesis ok_unpaired : forall ev, paired_call ev = false -> ok ev.

Lemma traces_ret {A} dev (a : A) : traces dev (ret a) J.
Proof. intros h. exact J_nil. Qed.

Lemma traces_lift {A} dev (r : Res A) : traces dev (lift r) J.
Proof. intros h. exact J_nil. Qed.

Lemma traces_note dev (ev : Event) :
  paired_call ev = false -> traces dev (note ev) J.
Proof. intros Hev h. apply J_one, ok_unpaired, Hev. Qed.

Lemma traces_call dev (ev : Event) :
  paired_call ev = false -> traces dev (call W ev) J.
Proof. intros Hev h. apply J_one, ok_unpaired, Hev. Qed.

Lemma traces_call_on_device dev (ev : Device -> Event) :
  paired_call (ev dev) = false -> traces dev (call_on_device W ev) J.
Proof. intros Hev h. apply J_one, ok_unpaired, Hev. Qed.

Lemma traces_bind {A B} dev (m : M A) (k : A -> M B) :
  traces dev m J -> (forall a, traces dev (k a) J) -> traces dev (bind m k) J.
Proof.
  intros Hm Hk h. rewrite bind_run.
  destruct (fst (m dev h)) as [a|e]; cbn [snd]; [|apply Hm].
  apply J_app; [apply Hm | apply Hk].
Qed.

Lemma traces_with_device {A} dev name (body : M A) :
  traces (NamedDevice name) body J -> traces dev (with_device name body) J.
Proof. intros Hb h. exact (Hb h). Qed.

Lemma traces_for_each {A} dev (l : list A) (body : A -> M unit) :
  (forall x, traces dev (body x) J) -> traces dev (for_each l body) J.
Proof.
  intros Hb. induction l as [|x l IH]; simpl.
  - apply traces_ret.
  - apply traces_bind; [apply Hb | intros _; exact IH].
Qed.

Lemma traces_try_except {A} dev (catches : exn -> bool) (body : M A)
    (handler : exn -> M A) :
  traces dev body J ->
  (forall e, traces dev (handler e) J) ->
  traces dev (try_except catches body handler) J.
Proof.
  intros Hb Hh h. unfold try_except. specialize (Hb h).
  destruct (body dev h) as [[a|e] l1]; cbn [snd] in *; [exact Hb|].
  destruct (catches e); [|exact Hb].
  specialize (Hh e (h ++ l1)).
  destruct (handler e dev (h ++ l1)) as [r l2]. cbn [snd] in *.
  apply J_app; assumption.
Qed.

Ltac calls :=
  repeat first
    [ apply traces_ret
    | apply traces_lift
    | apply traces_note; reflexivity
    | apply traces_call; reflexivity
    | apply traces_call_on_device; reflexivity
    | apply traces_bind; [|intros ?] ].

Lemma set_trainable_traces (m : Model) (f : string -> bool) dev :
  traces dev (set_trainable W m f) J.
Proof.
  unfold set_trainable. apply traces_for_each.
  intros x. apply traces_note. reflexivity.
Qed.

Lemma cls_model_traces (em : Model) (num_classes : Z)
    (cls_base : option string) dev :
  traces dev (cls_model W em num_classes cls_base) J.
Proof.
  unfold cls_model, apply_layer, new_model.
  apply traces_bind; [|intros base; calls].
  destruct cls_base as [name|]; [|apply traces_ret].
  intros h. rewrite cls_model_base_run. exact J_nil.
Qed.

Lemma build_or_resume_traces (args : Args) (emb : PyVal)
    (dg : DataGenerator) dev :
  traces dev (build_or_resume W args emb dg) J.
Proof.
  unfold build_or_resume, apply_layer, new_model.
  destruct (snapshot_to_resume W args); [calls|].
  apply traces_bind; [apply traces_lift|]. intros dim.
  apply traces_bind; [apply traces_call_on_device; reflexivity|]. intros _.
  apply traces_bind.
  { destruct (String.eqb (loss args) "inv_corr");
      [|destruct (String.eqb (loss args) "softmax_corr")]; calls. }
  intros p. apply traces_bind; [|intros ?; apply traces_ret].
  destruct (float_positive (cls_weight args));
    [apply cls_model_traces | apply traces_ret].
Qed.

Lemma assemble_models_traces (args : Args) (emb : PyVal)
    (dg : DataGenerator) dev :
  traces dev (assemble_models W args emb dg) J.
Proof.
  unfold assemble_models.
  destruct ((gpus args <=? 1) || gpu_merge args).
  - apply traces_bind; [apply build_or_resume_traces|]. intros b.
    apply traces_bind; [|intros ?; apply traces_ret].
    destruct (gpus args <=? 1); calls.
  - apply traces_bind;
      [apply traces_with_device, build_or_resume_traces|]. intros b.
    calls.
Qed.

(** The places where the script makes a paired call. *)
Hypothesis compile_fit_then : forall A dev pm opt sp a (k : M A),
  traces dev k J ->
  traces dev (call W (EvCompile pm opt sp) ;;
              call W (EvFitGenerator pm a) ;; k) J.
Hypothesis compile_fit : forall dev pm opt sp a,
  traces dev (call W (EvCompile pm opt sp) ;;
              call W (EvFitGenerator pm a)) J.
Hypothesis pickle_read : forall A dev path (rest : M A),
  (forall h, snd (rest dev h) = []) ->
  traces dev (with_open W path "rb" (call W (EvPickleLoad path) ;; rest)) J.
Hypothesis pickle_written : forall dev path first_only,
  traces dev (with_open W path "wb" (call W (EvPickleDump path first_only))) J.

Lemma pretrain_traces (args : Args) (dg : DataGenerator) (ms : Models)
    (kw : TransformKwargs) (the_loss : Loss) (metric : Metric) dev :
  traces dev (pretrain W args dg ms kw the_loss metric) J.
Proof.
  unfold pretrain, compile_model.
  destruct (if_set (finetune args)); [|apply traces_ret].
  apply traces_bind; [apply traces_note; reflexivity|]. intros _.
  apply traces_bind; [apply traces_call; reflexivity|]. intros _.
  destruct (0 <? finetune_init args); [|apply traces_ret].
  apply traces_bind; [apply traces_note; reflexivity|]. intros _.
  apply traces_bind; [apply set_trainable_traces|]. intros _.
  apply traces_bind; [apply traces_lift|]. intros em.
  apply traces_bind; [apply traces_lift|]. intros k.
  apply traces_bind; [apply traces_note; reflexivity|]. intros _.
  apply compile_fit_then.
  apply traces_bind; [apply set_trainable_traces|]. intros _.
  apply traces_note. reflexivity.
Qed.

Lemma run_training_traces (args : Args) (emb : PyVal) (dg : DataGenerator)
    (ms : Models) dev :
  traces dev (run_training W args emb dg ms) J.
Proof.
  unfold run_training. cbv zeta.
  apply traces_bind; [destruct (no_progress args); calls|].
  intros _. apply traces_bind; [apply pretrain_traces|]. intros _.
  apply traces_bind.
  { unfold configure_callbacks.
    apply traces_bind; [apply traces_call; reflexivity|]. intros _.
    apply traces_bind; [|intros ?; apply traces_ret].
    destruct (if_set (log_dir args)) as [dir|]; [|apply traces_ret].
    apply traces_bind; [|intros ?; apply traces_ret].
    destruct (path_isdir W dir); calls. }
  intros sched. apply traces_bind.
  { unfold train, compile_model.
    apply traces_bind; [apply traces_lift|]. intros decay.
    apply compile_fit. }
  intros _. apply traces_bind.
  { unfold evaluate.
    apply traces_bind; [apply traces_call; reflexivity|]. intros _.
    apply traces_bind; [apply traces_note; reflexivity|]. intros _.
    destruct (float_positive (cls_weight args)); calls. }
  intros _. unfold dump_artifacts, dump_weights, dump_model, dump_features.
  apply traces_bind.
  { destruct (if_set (weight_dump args)); [|apply traces_ret].
    apply traces_try_except; [apply traces_call; reflexivity|].
    intros e. apply traces_note. reflexivity. }
  intros _. apply traces_bind.
  { destruct (if_set (model_dump args)); [|apply traces_ret].
    apply traces_try_except; [apply traces_call; reflexivity|].
    intros e. apply traces_note. reflexivity. }
  intros _. destruct (if_set (feature_dump args)); [|apply traces_ret].
  apply traces_bind; [apply traces_call; reflexivity|]. intros _.
  apply pickle_written.
Qed.

Lemma main_traces (parsed : Args) dev : traces dev (main W parsed) J.
Proof.
  unfold main. cbv zeta.
  apply traces_bind; [apply traces_call; reflexivity|]. intros _.
  apply traces_bind.
  { unfold load_class_embeddings. apply pickle_read. intros h.
    unfold bind, lift, ret.
    destruct (py_getitem _ "ind2label"); [|reflexivity].
    destruct (py_getitem _ "embedding"); reflexivity. }
  intros e. apply traces_bind.
  { unfold load_dataset. calls. }
  intros dg. apply traces_bind; [apply assemble_models_traces|].
  intros ms. apply run_training_traces.
Qed.

End Traces.

(** *** Compiling before fitting *)

Lemma compiled_before_fit_any (last : option Event) (l : list Event) :
  compiled_before_fit None l -> compiled_before_fit last l.
Proof.
  destruct l as [|ev l]; [intros; exact I|].
  simpl. intros [Hev Hl]. split; [|exact Hl].
  destruct ev; try exact I. contradiction.
Qed.

Lemma compiled_before_fit_app (last : option Event) (l1 l2 : list Event) :
  compiled_before_fit last l1 ->
  compiled_before_fit None l2 ->
  compiled_before_fit last (l1 ++ l2).
Proof.
  revert last. induction l1 as [|ev l1 IH]; intros last H1 H2.
  - apply compiled_before_fit_any. exact H2.
  - simpl in *. destruct H1 as [Hev Hl1]. split; [exact Hev|].
    apply IH; assumption.
Qed.

Lemma compiled_before_fit_split (last : option Event) (l1 l2 : list Event)
    (pm : Model) (a : FitArgs) :
  compiled_before_fit last (l1 ++ EvFitGenerator pm a :: l2) ->
  (l1 = [] /\ exists opt sp, last = Some (EvCompile pm opt sp)) \/
  (exists l0 opt sp, l1 = l0 ++ [EvCompile pm opt sp]).
Proof.
  revert last. induction l1 as [|ev l1 IH]; intros last H.
  - left. split; [reflexivity|]. simpl in H. destruct H as [H _].
    destruct last as [[]|]; try contradiction. subst. eauto.
  - right. simpl in H. destruct H as [_ H].
    destruct (IH _ H) as [[-> (opt & sp & Heq)] | (l0 & opt & sp & ->)].
    + inversion Heq; subst ev. exists [], opt, sp. reflexivity.
    + exists (ev :: l0), opt, sp. reflexivity.
Qed.

Lemma main_compiled_before_fit (W : World) (parsed : Args) dev :
  traces dev (main W parsed) (compiled_before_fit None).
Proof.
  assert (Hone : forall ev, (forall pm a, ev <> EvFitGenerator pm a) ->
                            compiled_before_fit None [ev]).
  { intros ev Hev. simpl. split; [|exact I].
    destruct ev; try exact I. exact (Hev _ _ eq_refl). }
  assert (Hcall : forall dev0 ev h, snd (call W ev dev0 h) = [ev])
    by reflexivity.
  apply (main_traces W (compiled_before_fit None)
           (fun ev => forall pm a, ev <> EvFitGenerator pm a)).
  - exact I.
  - apply compiled_before_fit_app.
  - exact Hone.
  - intros ev Hev pm a ->. discriminate Hev.
  - intros A dev0 pm opt sp a k Hk h. rewrite bind_run, Hcall.
    destruct (fst (call W (EvCompile pm opt sp) dev0 h)); cbn [snd];
      [|simpl; auto].
    rewrite bind_run, Hcall.
    destruct (fst (call W (EvFitGenerator pm a) dev0 _)); cbn [snd];
      [|simpl; auto].
    simpl. split; [exact I|]. split; [reflexivity|].
    apply compiled_before_fit_any. apply Hk.
  - intros dev0 pm opt sp a h. rewrite bind_run, Hcall.
    destruct (fst (call W (EvCompile pm opt sp) dev0 h)); cbn [snd];
      simpl; auto.
  - intros A dev0 path rest Hrest h. unfold with_open.
    rewrite bind_run, Hcall.
    destruct (fst (call W (EvOpen path "rb") dev0 h)); cbn [snd];
      [|simpl; auto].
    rewrite bind_run, Hcall.
    destruct (fst (call W (EvPickleLoad path) dev0 _)); cbn [snd];
      [rewrite Hrest|]; simpl; auto.
  - intros dev0 path first_only h. unfold with_open.
    rewrite bind_run, Hcall.
    destruct (fst (call W (EvOpen path "wb") dev0 h)); cbn [snd];
      simpl; auto.
Qed.

(** X6.  In the log of every run each [fit_generator] call comes
    immediately after a [compile] call on the same model: nothing is
    fitted that was not just compiled. *)
Theorem fit_follows_compile (W : World) (parsed : Args) :
  compiled_before_fit None (snd (run W parsed)) /\
  forall l1 pm a l2,
    snd (run W parsed) = l1 ++ EvFitGenerator pm a :: l2 ->
    exists l0 opt sp, l1 = l0 ++ [EvCompile pm opt sp].
Proof.
  pose proof (main_compiled_before_fit W parsed DefaultDevice []) as H.
  fold (run W parsed) in H. split; [exact H|].
  intros l1 pm a l2 Heq. rewrite Heq in H.
  destruct (compiled_before_fit_split _ _ _ _ _ H)
    as [[_ (opt & sp & Hlast)] | Hex]; [discriminate Hlast | exact Hex].
Qed.

(** *** Pickles are read and written in [with] blocks *)

Lemma in_open_block_any (last : option Event) (l : list Event) :
  in_open_block None l -> in_open_block last l.
Proof.
  destruct l as [|ev l]; [intros; exact I|].
  simpl. intros [Hev Hl]. split; [|exact Hl].
  destruct ev; try exact I; destruct Hev as [Hev _]; discriminate Hev.
Qed.

Lemma in_open_block_app (last : option Event) (l1 l2 : list Event) :
  in_open_block last l1 ->
  in_open_block None l2 ->
  in_open_block last (l1 ++ l2).
Proof.
  revert last. induction l1 as [|ev l1 IH]; intros last H1 H2.
  - apply in_open_block_any. exact H2.
  - simpl in *. destruct H1 as [Hev Hl1]. split; [|apply IH; assumption].
    destruct ev; try exact I;
      destruct Hev as [Hlast [l'' ->]];
      (split; [exact Hlast | eexists; reflexivity]).
Qed.

Lemma in_open_block_split (last : option Event) (l1 l2 : list Event)
    (ev : Event) (p mode : string) :
  (ev = EvPickleLoad p /\ mode = "rb") \/
  (exists b, ev = EvPickleDump p b) /\ mode = "wb" ->
  in_open_block last (l1 ++ ev :: l2) ->
  ((l1 = [] /\ last = Some (EvOpen p mode)) \/
   (exists l0, l1 = l0 ++ [EvOpen p mode])) /\
  exists l3, l2 = EvClose p :: l3.
Proof.
  intros Hev. revert last. induction l1 as [|x l1 IH]; intros last H.
  - simpl in H. destruct H as [H _].
    destruct Hev as [[-> ->] | [[b ->] ->]]; destruct H as [Hlast Hl2];
      (split; [left; split; [reflexivity | exact Hlast] | exact Hl2]).
  - simpl in H. destruct H as [_ H].
    destruct (IH _ H) as [[[-> Hlast] | (l0 & ->)] Hl2].
    + inversion Hlast; subst x.
      split; [right; exists []; reflexivity | exact Hl2].
    + split; [right; exists (x :: l0); reflexivity | exact Hl2].
Qed.

Lemma main_in_open_block (W : World) (parsed : Args) dev :
  traces dev (main W parsed) (in_open_block None).
Proof.
  assert (Hcall : forall dev0 ev h, snd (call W ev dev0 h) = [ev])
    by reflexivity.
  assert (Hone : forall ev,
            (forall p, ev <> EvPickleLoad p) /\
            (forall p b, ev <> EvPickleDump p b) ->
            in_open_block None [ev]).
  { intros ev [H1 H2]. simpl. split; [|exact I].
    destruct ev; try exact I;
      [exfalso; exact (H1 _ eq_refl) | exfalso; exact (H2 _ _ eq_refl)]. }
  apply (main_traces W (in_open_block None)
           (fun ev => (forall p, ev <> EvPickleLoad p) /\
                      (forall p b, ev <> EvPickleDump p b))).
  - exact I.
  - apply in_open_block_app.
  - exact Hone.
  - intros ev Hev. split; intros; intros ->; discriminate Hev.
  - intros A dev0 pm opt sp a k Hk h. rewrite bind_run, Hcall.
    destruct (fst (call W (EvCompile pm opt sp) dev0 h)); cbn [snd];
      [|simpl; auto].
    rewrite bind_run, Hcall.
    destruct (fst (call W (EvFitGenerator pm a) dev0 _)); cbn [snd];
      [|simpl; auto].
    simpl. split; [exact I|]. split; [exact I|].
    apply in_open_block_any. apply Hk.
  - intros dev0 pm opt sp a h. rewrite bind_run, Hcall.
    destruct (fst (call W (EvCompile pm opt sp) dev0 h)); cbn [snd];
      simpl; auto.
  - intros A dev0 path rest Hrest h. unfold with_open.
    rewrite bind_run, Hcall.
    destruct (fst (call W (EvOpen path "rb") dev0 h)); cbn [snd];
      [|simpl; auto].
    rewrite bind_run, Hcall.
    destruct (fst (call W (EvPickleLoad path) dev0 _)); cbn [snd];
      [rewrite Hrest|]; simpl; eauto 10.
  - intros dev0 path first_only h. unfold with_open.
    rewrite bind_run, Hcall.
    destruct (fst (call W (EvOpen path "wb") dev0 h)); cbn [snd];
      simpl; eauto 10.
Qed.

(** X7.  A run reads and writes pickles inside [with open(...)]
    blocks only: each [pickle.load] comes right after the file was opened
    for reading and each [pickle.dump] right after it was opened for
    writing, and whether the call fails or not, the next thing that
    happens is that the file is closed. *)
Theorem pickles_in_open_blocks (W : World) (parsed : Args) :
  in_open_block None (snd (run W parsed)) /\
  (forall l1 p l2,
     snd (run W parsed) = l1 ++ EvPickleLoad p :: l2 ->
     (exists l0, l1 = l0 ++ [EvOpen p "rb"]) /\
     exists l3, l2 = EvClose p :: l3) /\
  (forall l1 p first_only l2,
     snd (run W parsed) = l1 ++ EvPickleDump p first_only :: l2 ->
     (exists l0, l1 = l0 ++ [EvOpen p "wb"]) /\
     exists l3, l2 = EvClose p :: l3).
Proof.
  pose proof (main_in_open_block W parsed DefaultDevice []) as H.
  fold (run W parsed) in H. split; [exact H|]. split.
  - intros l1 p l2 Heq. rewrite Heq in H.
    destruct (in_open_block_split None l1 l2 (EvPickleLoad p) p "rb")
      as [[[_ Hlast] | Hex] Hclose]; [left; auto | exact H | discriminate Hlast|].
    split; assumption.
  - intros l1 p first_only l2 Heq. rewrite Heq in H.
    destruct (in_open_block_split None l1 l2 (EvPickleDump p first_only) p "wb")
      as [[[_ Hlast] | Hex] Hclose];
      [right; eauto | exact H | discriminate Hlast|].
    split; assumption.
Qed.

(** ** Labels outside the embedding matrix *)

Lemma py_index_Raise {A} (l : list A) (i : Z) (e : exn) :
  py_index l i = Raise e <-> e = IndexError /\ out_of_range (length l) i.
Proof.
  unfold out_of_range. split.
  - intros H. split; [exact (py_index_raises l i e H)|].
    destruct (Z_lt_dec i (- Z.of_nat (length l))); [left; assumption|].
    destruct (Z_le_dec (Z.of_nat (length l)) i); [right; assumption|].
    exfalso. destruct (py_index_in_range l i) as [x Hx]; [lia|]. congruence.
  - intros [-> H]. apply py_index_out_of_range. exact H.
Qed.

Lemma res_map_Raise {A B} (f : A -> Res B) (l : list A) :
  (exists e, res_map f l = Raise e) <->
  Exists (fun x => exists e, f x = Raise e) l.
Proof.
  induction l as [|x l IH]; simpl.
  - split; [intros [e H]; discriminate | intros H; inversion H].
  - destruct (f x) as [b|e] eqn:Hfx; simpl.
    + destruct (res_map f l) as [bs|e']; simpl.
      * split; [intros [e H]; discriminate|].
        intros H. inversion H as [? ? [e He] | ? ? Hl]; subst; [congruence|].
        apply IH in Hl. destruct Hl as [e He]. discriminate.
      * split; [|intros _; exists e'; reflexivity].
        intros _. apply Exists_cons_tl. apply IH. exists e'. reflexivity.
    + split; [|intros _; exists e; reflexivity].
      intros _. apply Exists_cons_hd. exists e. exact Hfx.
Qed.

Lemma take_rows_Raise (a : ndarray) (y : list Z) (e : exn) :
  take_rows (VArray a) y = Raise e ->
  e = IndexError /\ Exists (out_of_range (length (nd_rows a))) y.
Proof.
  unfold take_rows. intros H.
  destruct (res_map (py_index (nd_rows a)) y) as [rs|e'] eqn:Hmap;
    [discriminate|].
  simpl in H. inversion H; subst e'. split.
  - clear H. revert Hmap. induction y as [|l y IH]; simpl; [discriminate|].
    destruct (py_index (nd_rows a) l) as [r|e'] eqn:Hl; simpl.
    + destruct (res_map (py_index (nd_rows a)) y); simpl; [discriminate|].
      intros H. inversion H; subst. apply IH. reflexivity.
    + intros H. inversion H; subst. exact (py_index_raises _ _ _ Hl).
  - assert (Hex : exists e0, res_map (py_index (nd_rows a)) y = Raise e0)
      by (exists e; exact Hmap).
    apply res_map_Raise in Hex.
    eapply Exists_impl; [exact Hex|].
    intros l [e0 He0]. apply py_index_Raise in He0. exact (proj2 He0).
Qed.

Lemma take_rows_out_of_range (a : ndarray) (y : list Z) :
  Exists (out_of_range (length (nd_rows a))) y ->
  take_rows (VArray a) y = Raise IndexError.
Proof.
  intros Hex.
  assert (Hraise : exists e, res_map (py_index (nd_rows a)) y = Raise e).
  { apply res_map_Raise. eapply Exists_impl; [exact Hex|].
    intros l Hl. exists IndexError. apply py_index_Raise. auto. }
  destruct Hraise as [e He].
  assert (Ht : take_rows (VArray a) y = Raise e)
    by (unfold take_rows; rewrite He; reflexivity).
  rewrite Ht. f_equal. exact (proj1 (take_rows_Raise a y e Ht)).
Qed.

Lemma res_map_py_index_Raise {A} (l : list A) (y : list Z) :
  (exists e, res_map (py_index l) y = Raise e) <->
  res_map (py_index l) y = Raise IndexError.
Proof.
  split; [|intros H; exists IndexError; exact H].
  induction y as [|i y IH]; simpl; intros [e H]; [discriminate|].
  destruct (py_index l i) as [x|e'] eqn:Hi; cbn [res_bind] in *.
  - destruct (res_map (py_index l) y) as [xs|e'']; cbn [res_bind] in *;
      [discriminate|].
    apply IH. exists e''. reflexivity.
  - rewrite (py_index_raises _ _ _ Hi). reflexivity.
Qed.

Lemma take_entries_out_of_range (v : list float) (y : list Z) :
  Exists (out_of_range (length v)) y <->
  take_rows (VVector v) y = Raise IndexError.
Proof.
  unfold take_rows. split.
  - intros Hex.
    assert (Hraise : exists e, res_map (py_index v) y = Raise e).
    { apply res_map_Raise. eapply Exists_impl; [exact Hex|].
      intros l Hl. exists IndexError. apply py_index_Raise. auto. }
    apply res_map_py_index_Raise in Hraise. rewrite Hraise. reflexivity.
  - intros H.
    destruct (res_map (py_index v) y) as [xs|e] eqn:Hmap; [discriminate|].
    assert (Hex : exists e0, res_map (py_index v) y = Raise e0)
      by (exists e; exact Hmap).
    apply res_map_Raise in Hex.
    eapply Exists_impl; [exact Hex|].
    intros l [e0 He0]. apply py_index_Raise in He0. exact (proj2 He0).
Qed.

Lemma take_rows_in_range (a : ndarray) (y : list Z) :
  ~ Exists (out_of_range (length (nd_rows a))) y ->
  exists t, take_rows (VArray a) y = Normal (VArray t).
Proof.
  intros Hin.
  destruct (take_rows (VArray a) y) as [t|e] eqn:Ht.
  - unfold take_rows in Ht.
    destruct (res_map (py_index (nd_rows a)) y) as [rs|e]; [|discriminate].
    inversion Ht. eexists. reflexivity.
  - exfalso. apply Hin. exact (proj2 (take_rows_Raise a y e Ht)).
Qed.

(** X8.  For an embedding matrix, [transform_inputs] without
    [num_classes] raises [IndexError] exactly when a label of the batch
    lies outside the matrix (below [-rows] or from [rows] on), and raises
    nothing else.  With [num_classes] such a label raises [IndexError]
    before [to_categorical] is called; when every label is inside the
    matrix the call returns or raises what [to_categorical] does, so that
    it raises [IndexError] exactly when a label is outside the matrix or
    [to_categorical] raises it.  A one-dimensional array is indexed in
    the same way, by its entries; an array without dimensions raises
    [IndexError] for every batch, a list or [None] raises [TypeError]. *)
Theorem transform_inputs_out_of_range
    (to_categorical : list Z -> Z -> Res ndarray)
    (XT : Type) (X : XT) (y : list Z) (a : ndarray) :
  (Exists (out_of_range (length (nd_rows a))) y <->
   transform_inputs to_categorical X y (VArray a) None = Raise IndexError) /\
  (forall e, transform_inputs to_categorical X y (VArray a) None = Raise e ->
             e = IndexError) /\
  (forall n,
     (Exists (out_of_range (length (nd_rows a))) y ->
      transform_inputs to_categorical X y (VArray a) (Some n)
      = Raise IndexError) /\
     (~ Exists (out_of_range (length (nd_rows a))) y ->
      exists t,
        transform_inputs to_categorical X y (VArray a) None
        = Normal (X, EmbeddingTarget (VArray t)) /\
        transform_inputs to_categorical X y (VArray a) (Some n)
        = match to_categorical y n with
          | Normal c => Normal (X, EmbeddingAndClassTargets (VArray t) c)
          | Raise e => Raise e
          end) /\
     (transform_inputs to_categorical X y (VArray a) (Some n)
      = Raise IndexError <->
      Exists (out_of_range (length (nd_rows a))) y \/
      to_categorical y n = Raise IndexError)) /\
  (forall v,
     Exists (out_of_range (length v)) y <->
     transform_inputs to_categorical X y (VVector v) None = Raise IndexError) /\
  (forall x labels num_classes,
     transform_inputs to_categorical X y (VScalar x) num_classes
       = Raise IndexError /\
     transform_inputs to_categorical X y (VList labels) num_classes
       = Raise TypeError /\
     transform_inputs to_categorical X y VNone num_classes = Raise TypeError).
Proof.
  assert (Hdec : Exists (out_of_range (length (nd_rows a))) y \/
                 ~ Exists (out_of_range (length (nd_rows a))) y).
  { destruct (take_rows (VArray a) y) as [t|e] eqn:Ht.
    - right. intros Hex. rewrite (take_rows_out_of_range a y Hex) in Ht.
      discriminate Ht.
    - left. exact (proj2 (take_rows_Raise a y e Ht)). }
  split; [|split; [|split; [|split]]].
  - split.
    + intros Hex. unfold transform_inputs.
      rewrite (take_rows_out_of_range a y Hex). reflexivity.
    + unfold transform_inputs. intros H.
      destruct (take_rows (VArray a) y) as [t|e] eqn:Ht; [discriminate|].
      exact (proj2 (take_rows_Raise a y e Ht)).
  - intros e. unfold transform_inputs. intros H.
    destruct (take_rows (VArray a) y) as [t|e'] eqn:Ht; [discriminate|].
    simpl in H. inversion H; subst e'.
    exact (proj1 (take_rows_Raise a y e Ht)).
  - intros n.
    assert (Hout : Exists (out_of_range (length (nd_rows a))) y ->
              transform_inputs to_categorical X y (VArray a) (Some n)
              = Raise IndexError).
    { intros Hex. unfold transform_inputs.
      rewrite (take_rows_out_of_range a y Hex). reflexivity. }
    assert (Hin : ~ Exists (out_of_range (length (nd_rows a))) y ->
              exists t,
                transform_inputs to_categorical X y (VArray a) None
                = Normal (X, EmbeddingTarget (VArray t)) /\
                transform_inputs to_categorical X y (VArray a) (Some n)
                = match to_categorical y n with
                  | Normal c =>
                      Normal (X, EmbeddingAndClassTargets (VArray t) c)
                  | Raise e => Raise e
                  end).
    { intros Hno. destruct (take_rows_in_range a y Hno) as [t Ht].
      exists t. unfold transform_inputs. rewrite Ht. cbn [res_bind].
      split; [reflexivity|]. destruct (to_categorical y n); reflexivity. }
    split; [exact Hout|]. split; [exact Hin|]. split.
    + intros H. destruct Hdec as [Hex | Hno]; [left; exact Hex|].
      right. destruct (Hin Hno) as (t & _ & Hn). rewrite Hn in H.
      destruct (to_categorical y n) as [c|e]; [discriminate|].
      inversion H. reflexivity.
    + intros [Hex | Hc]; [exact (Hout Hex)|].
      destruct Hdec as [Hex | Hno]; [exact (Hout Hex)|].
      destruct (Hin Hno) as (t & _ & Hn). rewrite Hn, Hc. reflexivity.
  - intros v. rewrite take_entries_out_of_range. unfold transform_inputs.
    destruct (take_rows (VVector v) y) as [t|e]; cbn [res_bind].
    + split; discriminate.
    + split; intros H; inversion H; reflexivity.
  - intros x labels [n|]; repeat split; reflexivity.
Qed.

(** On the sample matrix of three rows the labels [-3] to [2] are
    accepted; the label [3] is not, whatever [to_categorical] would do.
    With two classes the labels [0] and [2] lie inside the matrix, and the
    [IndexError] is that of [to_categorical]. *)
Example transform_inputs_bounds :
  transform_inputs one_hot "images" [-3; 2] (VArray sample_embedding) None
    = Normal ("images",
              EmbeddingTarget
                (VArray {| nd_cols := 2;
                           nd_rows := [[1; 0]; [0.5; 0.5]]%float |})) /\
  transform_inputs one_hot "images" [0; 3] (VArray sample_embedding) (Some 3)
    = Raise IndexError /\
  transform_inputs one_hot "images" [-4] (VArray sample_embedding) None
    = Raise IndexError /\
  ~ Exists (out_of_range (length (nd_rows sample_embedding))) [0; 2] /\
  transform_inputs one_hot "images" [0; 2] (VArray sample_embedding) (Some 2)
    = Raise IndexError /\
  transform_inputs one_hot "images" [2; -1] (VVector [1; 0; 0.5]%float) None
    = Normal ("images", EmbeddingTarget (VVector [0.5; 0.5]%float)).
Proof.
  split; [vm_compute; reflexivity|]. split; [vm_compute; reflexivity|].
  split; [vm_compute; reflexivity|]. split.
  - intros H. unfold out_of_range in H. simpl in H.
    repeat match goal with
           | H : Exists _ _ |- _ => inversion H; clear H; subst
           end; lia.
  - split; vm_compute; reflexivity.
Qed.

(** ** A [cls_base] that selects no layer *)

(** X9.  A [cls_base] that parses as an integer outside the layers
    of the model makes [cls_model] raise [IndexError]: only [ValueError] is
    caught, so the string is not looked up as a layer name, even if a layer
    has that name.  A [cls_base] that is no integer and names no layer
    raises [ValueError].  In both cases no layer has been created. *)
Theorem cls_model_rejects_base (W : World) (embed_model : Model)
    (num_classes : Z) (name : string) (dev : Device) (h : list Event) :
  (forall i,
     py_int W name = Some i ->
     out_of_range (length (layer_names W embed_model)) i ->
     cls_model W embed_model num_classes (Some name) dev h
     = (Raise IndexError, [])) /\
  (py_int W name = None ->
   (forall k, layer_names W embed_model !! k <> Some name) ->
   cls_model W embed_model num_classes (Some name) dev h
   = (Raise ValueError, [])).
Proof.
  split.
  - intros i Hint Hout. unfold cls_model.
    rewrite bind_run, cls_model_base_run. unfold selected_base.
    rewrite Hint. unfold layer_at.
    rewrite py_index_out_of_range; [reflexivity|].
    rewrite length_seq. exact Hout.
  - intros Hint Hnone. unfold cls_model.
    rewrite bind_run, cls_model_base_run. unfold selected_base.
    rewrite Hint.
    destruct (get_layer W embed_model name) as [k|e] eqn:Hk.
    + exfalso. apply get_layer_Normal in Hk. exact (Hnone k (proj1 Hk)).
    + unfold get_layer in Hk.
      destruct (list_find (fun n => n = name) (layer_names W embed_model))
        as [[j x]|]; [discriminate|].
      inversion Hk. reflexivity.
Qed.

(** In a network of two layers, the second named ['7']: [cls_base = '7']
    is read as the index 7 and fails, ['1'] and ['-1'] select the layer
    named ['7'], and ['conv'] names no layer. *)
Example cls_base_by_index_first :
  cls_model numbered_world (BuiltNetwork 2 "simple") 3 (Some "7")
            DefaultDevice [] = (Raise IndexError, []) /\
  selected_base numbered_world (BuiltNetwork 2 "simple") (Some "1")
    = Normal (LayerOutput (BuiltNetwork 2 "simple") 1) /\
  selected_base numbered_world (BuiltNetwork 2 "simple") (Some "-1")
    = Normal (LayerOutput (BuiltNetwork 2 "simple") 1) /\
  cls_model numbered_world (BuiltNetwork 2 "simple") 3 (Some "conv")
            DefaultDevice [] = (Raise ValueError, []).
Proof. repeat split; vm_compute; reflexivity. Qed.

(** ** Reading more off the calls of a run *)

Lemma default_val_batch_size_log_dir (parsed : Args) :
  log_dir (default_val_batch_size parsed) = log_dir parsed.
Proof. by_default. Qed.

Lemma default_val_batch_size_finetune (parsed : Args) :
  finetune (default_val_batch_size parsed) = finetune parsed.
Proof. by_default. Qed.

Lemma default_val_batch_size_no_progress (parsed : Args) :
  no_progress (default_val_batch_size parsed) = no_progress parsed.
Proof. by_default. Qed.

Lemma default_val_batch_size_lr_schedule (parsed : Args) :
  lr_schedule (default_val_batch_size parsed) = lr_schedule parsed.
Proof. by_default. Qed.

Lemma default_val_batch_size_initial_epoch (parsed : Args) :
  initial_epoch (default_val_batch_size parsed) = initial_epoch parsed.
Proof. by_default. Qed.

Lemma default_val_batch_size_dataset (parsed : Args) :
  dataset (default_val_batch_size parsed) = dataset parsed /\
  data_root (default_val_batch_size parsed) = data_root parsed.
Proof. split; by_default. Qed.

Lemma default_val_batch_size_fit (parsed : Args) :
  queue_size (default_val_batch_size parsed) = queue_size parsed /\
  read_workers (default_val_batch_size parsed) = read_workers parsed.
Proof. split; by_default. Qed.

Lemma optimizer_default (parsed : Args) (decay : option float) :
  optimizer (default_val_batch_size parsed) decay = optimizer parsed decay.
Proof. by_default. Qed.

(** The calls of a run, by the part of the script that makes them. *)
Ltac run_cases W parsed Hin :=
  let Hall := fresh "Hall" in
  pose proof (run_calls W parsed) as Hall;
  rewrite List.Forall_forall in Hall; specialize (Hall _ Hin);
  inversion Hall as [? Hs | e ? He Ha | e ms ? He Hms Ht]; subst;
  [ inversion Hs; subst
  | inversion Ha as [? Hb | b Hb Hg]; subst;
    try (inversion Hb; subst;
         try match goal with
             | Hc : cls_model_call _ _ _ _ _ _ |- _ => inversion Hc; subst
             end)
  | inversion Ht; subst ].

Lemma loaded_unique (W : World) (args : Args) (e e' : PyVal * PyVal) :
  loaded W args e -> loaded W args e' -> e = e'.
Proof.
  intros [H1 H2] [H1' H2']. destruct e, e'. simpl in *. congruence.
Qed.

Lemma assembled_unique (W : World) (args : Args) (emb : PyVal)
    (dg : DataGenerator) (ms ms' : Models) :
  assembled W args emb dg ms -> assembled W args emb dg ms' ->
  model ms = model ms'.
Proof.
  intros [Hb _] [Hb' _]. apply build_result_Normal in Hb, Hb'.
  rewrite Hb in Hb'. inversion Hb'. reflexivity.
Qed.

(** X10.  The only directory a run removes is the one named by
    [--log_dir], and only when that path is an existing directory. *)
Theorem log_directory_removed (W : World) (parsed : Args) :
  Forall (fun ev =>
            forall d, ev = EvRmtree d ->
              log_dir parsed = Some d /\ d <> "" /\ path_isdir W d = true)
         (snd (run W parsed)).
Proof.
  apply List.Forall_forall. intros ev Hin d ->.
  run_cases W parsed Hin.
  match goal with H : if_set (log_dir _) = Some _ |- _ => rename H into Hd end.
  rewrite default_val_batch_size_log_dir in Hd.
  apply if_set_Some in Hd. destruct Hd as [Hd Hne].
  repeat split; assumption.
Qed.

(** X11.  The callbacks of the training call are, in this order:
    those of the learning rate schedule, then [TensorBoard(log_dir,
    write_graph = False)] when [--log_dir] is set, then the checkpoint when
    [--snapshot] is set; the call passes [--initial_epoch]. *)
Theorem training_callbacks_composed (W : World) (parsed : Args) :
  Forall (fun ev =>
            forall pm a cbs,
              ev = EvFitGenerator pm a -> fit_callbacks a = Some cbs ->
              fit_initial_epoch a = Some (initial_epoch parsed) /\
              exists e,
                loaded W parsed e /\
                cbs =
                fst (lr_schedule_of W (lr_schedule parsed)
                       (dg_num_train (data_of W parsed (snd e)))
                       (batch_size parsed) (default_val_batch_size parsed))
                ++ match if_set (log_dir parsed) with
                   | Some dir => [TensorBoard dir false]
                   | None => []
                   end
                ++ match if_set (snapshot parsed) with
                   | Some path =>
                       [if gpus parsed <=? 1 then ModelCheckpoint path
                        else TemplateModelCheckpoint (base_of pm) path]
                   | None => []
                   end)
         (snd (run W parsed)).
Proof.
  apply List.Forall_forall. intros ev Hin pm a cbs -> Hcbs.
  destruct (run_trained_model W parsed _ pm Hin eq_refl)
    as (e & ms & He & [Hb Hpar] & Ht & ->).
  rewrite built_default in Hb. rewrite replica_of_default in Hpar.
  pose proof (base_of_replica_of _ _ _ _ _ Hb) as Hbase.
  cbn [fst snd] in Hbase. rewrite <- Hpar in Hbase.
  inversion Ht; subst; simpl in Hcbs; [discriminate|].
  inversion Hcbs; subst cbs. cbn [train_fit_args fit_initial_epoch].
  split; [rewrite default_val_batch_size_initial_epoch; reflexivity|].
  exists e. split; [exact He|].
  unfold callbacks_of, checkpoint_callback.
  rewrite default_val_batch_size_lr_schedule, default_val_batch_size_batch_size,
          default_val_batch_size_log_dir, default_val_batch_size_snapshot,
          default_val_batch_size_gpus, Hbase.
  reflexivity.
Qed.

(** X12.  The summary, the pre-trained weights and the two model
    dumps are taken from, loaded into and written from the base model,
    never the multi-GPU replica: the model of such a call is no replica,
    and it is the model that every trained model of the run replicates. *)
Theorem base_model_calls (W : World) (parsed : Args) :
  Forall (fun ev =>
            forall m, base_model_call ev = Some m ->
              base_of m = m /\
              Forall (fun ev' =>
                        forall pm, trained_model ev' = Some pm ->
                                   base_of pm = m)
                     (snd (run W parsed)))
         (snd (run W parsed)).
Proof.
  apply List.Forall_forall. intros ev Hin m Hm.
  assert (Hbase : exists e ms,
            loaded W parsed e /\
            assembled W (default_val_batch_size parsed) (fst e)
              (data_of W parsed (snd e)) ms /\
            m = model ms).
  { run_cases W parsed Hin; simpl in Hm; try discriminate;
      inversion Hm; subst m;
      rewrite loaded_default in He; rewrite data_of_default in Hms;
      exists e, ms; auto. }
  destruct Hbase as (e & ms & He & Hms & ->). split.
  - destruct Hms as [Hb _]. exact (built_base_of _ _ _ _ _ Hb).
  - apply List.Forall_forall. intros ev' Hin' pm Hpm.
    destruct (run_trained_model W parsed ev' pm Hin' Hpm)
      as (e' & ms' & He' & Hms' & _ & ->).
    assert (e' = e) by (eapply loaded_unique; eassumption). subst e'.
    rewrite (assembled_unique _ _ _ _ _ _ Hms Hms').
    destruct Hms' as [Hb' Hpar']. rewrite Hpar'.
    exact (base_of_replica_of _ _ _ _ _ Hb').
Qed.

(** X13.  [predict_generator] is called in two places.  For the
    classification accuracy it is called, without [steps], on a test
    sequence, and only when [--cls_weight] is positive; the average
    accuracy is then computed against the test labels of the data set, and
    only then.  For the feature dump it is called on [flow_test(1, False)]
    for [num_test] steps, and only when [--feature_dump] is set; the dump
    is written to that path and keeps the first output only exactly when
    [--cls_weight] is positive. *)
Theorem prediction_calls (W : World) (parsed : Args) :
  Forall (fun ev =>
            (forall pm s steps, ev = EvPredictGenerator pm s steps ->
               (steps = None /\ float_positive (cls_weight parsed) = true /\
                exists dg bs kw, s = TestSequence dg bs kw) \/
               (exists dg p,
                  s = FlowTest dg 1 false /\ steps = Some (dg_num_test dg) /\
                  feature_dump parsed = Some p /\ p <> "")) /\
            (forall labels, ev = EvAverageAccuracy labels ->
               float_positive (cls_weight parsed) = true /\
               exists e,
                 loaded W parsed e /\
                 labels = dg_labels_test (data_of W parsed (snd e))) /\
            (forall p first_only, ev = EvPickleDump p first_only ->
               feature_dump parsed = Some p /\ p <> "" /\
               first_only = float_positive (cls_weight parsed)))
         (snd (run W parsed)).
Proof.
  apply List.Forall_forall. intros ev Hin.
  split; [|split].
  - intros pm s steps ->. run_cases W parsed Hin.
    + left. rewrite default_val_batch_size_cls_weight in *.
      split; [reflexivity|]. split; [assumption|]. eauto.
    + right. rewrite default_val_batch_size_feature_dump in *.
      match goal with H : if_set _ = Some _ |- _ =>
        apply if_set_Some in H; destruct H as [Hp Hne] end.
      eauto 6.
  - intros labels ->. run_cases W parsed Hin.
    rewrite default_val_batch_size_cls_weight in *.
    rewrite loaded_default in He. rewrite data_of_default.
    split; [assumption|]. exists e. split; [exact He | reflexivity].
  - intros p first_only ->. run_cases W parsed Hin.
    rewrite default_val_batch_size_feature_dump in *.
    rewrite default_val_batch_size_cls_weight.
    match goal with H : if_set _ = Some _ |- _ =>
      apply if_set_Some in H; destruct H as [Hp Hne] end.
    repeat split; assumption.
Qed.

(** X14.  The data set is requested by [--dataset] and
    [--data_root] with the classes stored in the pickle under
    ['ind2label']. *)
Theorem data_generator_classes (W : World) (parsed : Args) :
  Forall (fun ev =>
            forall ds root classes,
              ev = EvGetDataGenerator ds root classes ->
              ds = dataset parsed /\ root = data_root parsed /\
              py_getitem (pickle_content W (embedding parsed)) "ind2label"
                = Normal classes)
         (snd (run W parsed)).
Proof.
  apply List.Forall_forall. intros ev Hin ds root classes ->.
  run_cases W parsed Hin.
  destruct (default_val_batch_size_dataset parsed) as [Hds Hroot].
  match goal with H : loaded _ _ _ |- _ =>
    rewrite loaded_default in H; destruct H as [Hl _] end.
  repeat split; assumption.
Qed.

(** X15.  With [--no_progress] the model summary is not printed
    and every [fit_generator] call is silent; without it every fit is
    verbose.  Every fit reads its batches through [read_workers] processes
    into a queue of [queue_size], and trains on a sequence of batches of
    [--batch_size]. *)
Theorem progress_and_workers (W : World) (parsed : Args) :
  Forall (fun ev =>
            (forall m, ev = EvSummary m -> no_progress parsed = false) /\
            (forall pm a, ev = EvFitGenerator pm a ->
               fit_verbose a = negb (no_progress parsed) /\
               fit_max_queue_size a = queue_size parsed /\
               fit_workers a = read_workers parsed /\
               fit_use_multiprocessing a = true /\
               exists dg kw,
                 fit_train a = TrainSequence dg (batch_size parsed) kw))
         (snd (run W parsed)).
Proof.
  apply List.Forall_forall. intros ev Hin.
  destruct (default_val_batch_size_fit parsed) as [Hq Hw].
  split.
  - intros m ->. run_cases W parsed Hin.
    rewrite default_val_batch_size_no_progress in *. assumption.
  - intros pm a ->.
    destruct (run_trained_model W parsed _ pm Hin eq_refl)
      as (e & ms & _ & _ & Ht & _).
    inversion Ht; subst; simpl;
      rewrite default_val_batch_size_no_progress, Hq, Hw,
              default_val_batch_size_batch_size;
      repeat split; eauto.
Qed.

(** X16.  Every [compile] call of a run uses SGD with the learning
    rate [sgd_lr], momentum 0.9, Nesterov momentum as [--nesterov] says and
    gradient clipping at [--clipgrad]; with a classifier the metrics are
    ['accuracy'] for ['prob'] and the selected metric for the other output,
    and without one the list of the selected metric alone. *)
Theorem compile_arguments (W : World) (parsed : Args) :
  Forall (fun ev =>
            forall m opt sp, ev = EvCompile m opt sp ->
              sgd_lr_ opt = sgd_lr parsed /\
              sgd_momentum opt = f_0_9 /\
              sgd_nesterov opt = nesterov parsed /\
              sgd_clipnorm opt = clipgrad parsed /\
              exists emb,
                py_getitem (pickle_content W (embedding parsed)) "embedding"
                  = Normal emb /\
                match sp with
                | SingleOutput l metrics =>
                    float_positive (cls_weight parsed) = false /\
                    metrics = [snd (select_loss_metric (loss parsed) emb)]
                | PerOutput losses weights metrics =>
                    float_positive (cls_weight parsed) = true /\
                    metrics !! "prob" = Some (NamedMetric "accuracy") /\
                    exists name,
                      name <> "prob" /\
                      metrics !! name
                      = Some (snd (select_loss_metric (loss parsed) emb)) /\
                      forall k, k <> "prob" -> k <> name -> metrics !! k = None
                end)
         (snd (run W parsed)).
Proof.
  apply List.Forall_forall. intros ev Hin m opt sp ->.
  destruct (run_trained_model W parsed _ m Hin eq_refl)
    as (e & ms & He & [Hb _] & Ht & _).
  pose proof (built_layer_not_prob _ _ _ _ _ Hb) as Hname.
  cbn [snd] in Hname. destruct He as [_ Hemb].
  assert (Hopt : exists decay, opt = optimizer parsed decay /\
            sp = compile_spec (cls_weight parsed) (embedding_layer_name ms)
                   (fst (select_loss_metric (loss parsed) (fst e)))
                   (snd (select_loss_metric (loss parsed) (fst e)))).
  { inversion Ht; subst; eexists;
      rewrite optimizer_default, default_val_batch_size_loss,
              default_val_batch_size_cls_weight; split; reflexivity. }
  destruct Hopt as (decay & -> & ->). cbn [optimizer sgd_lr_ sgd_momentum
                                            sgd_nesterov sgd_clipnorm].
  repeat (split; [reflexivity|]).
  exists (fst e). split; [exact Hemb|].
  unfold compile_spec. destruct (float_positive (cls_weight parsed)).
  - split; [reflexivity|]. split; [apply lookup_insert_eq|].
    exists (embedding_layer_name ms). split; [exact Hname|]. split.
    + rewrite lookup_insert_ne by congruence. apply lookup_singleton_eq.
    + intros k Hk1 Hk2. rewrite lookup_insert_ne by congruence.
      apply lookup_singleton_ne. congruence.
  - split; reflexivity.
Qed.

(** A run on two GPUs with a log directory and a new snapshot: the
    directory is removed, the callbacks are those of the schedule, the
    TensorBoard and the checkpoint on the base model, and the model that
    is saved is the base model, not the replica that was fitted. *)
Example logging_run :
  fst (run logging_world logging_args) = Normal tt /\
  In (EvRmtree "logs") (snd (run logging_world logging_args)) /\
  omap training_callbacks (snd (run logging_world logging_args))
    = [[ScheduleCallback 0; TensorBoard "logs" false;
        TemplateModelCheckpoint (BuiltNetwork 2 "simple") "new.h5"]] /\
  omap base_model_call (snd (run logging_world logging_args))
    = [BuiltNetwork 2 "simple"] /\
  omap trained_model (snd (run logging_world logging_args))
    = [MultiGpuModel (BuiltNetwork 2 "simple") 2 None;
       MultiGpuModel (BuiltNetwork 2 "simple") 2 None;
       MultiGpuModel (BuiltNetwork 2 "simple") 2 None].
Proof.
  split; [vm_compute; reflexivity|].
  split; [vm_compute; tauto|].
  repeat split; vm_compute; reflexivity.
Qed.

(** X17.  A [--val_batch_size] that is supplied is used as
    it is, also when it is 0: the arguments are unchanged, and every test
    sequence of the run is built with it. *)
Theorem supplied_val_batch_size_kept (W : World) (parsed : Args) (v : Z) :
  val_batch_size parsed = Some v ->
  default_val_batch_size parsed = parsed /\
  Forall (fun ev =>
            forall dg bs kw,
              In (TestSequence dg bs kw) (event_sequences ev) -> bs = Some v)
         (snd (run W parsed)).
Proof.
  intros Hv.
  assert (Hsame : default_val_batch_size parsed = parsed).
  { unfold default_val_batch_size. rewrite Hv. reflexivity. }
  split; [exact Hsame|].
  apply List.Forall_forall. intros ev Hin dg bs kw Hseq.
  pose proof (run_calls W parsed) as Hall.
  rewrite List.Forall_forall in Hall. specialize (Hall _ Hin).
  inversion Hall as [ev' Hs | e ev' He Ha | e ms ev' He Hms Ht]; subst.
  - inversion Hs; subst; simpl in Hseq; contradiction.
  - inversion Ha as [ev' Hb | b Hb Hg]; subst; [|simpl in Hseq; contradiction].
    inversion Hb as [| | | | | | ? ev' ? ? ? Hc]; subst;
      try (simpl in Hseq; contradiction).
    inversion Hc; subst; simpl in Hseq; contradiction.
  - rewrite Hsame in Ht. inversion Ht; subst; simpl in Hseq;
      repeat match goal with
             | H : _ \/ _ |- _ => destruct H
             | H : False |- _ => contradiction
             | H : _ = TestSequence _ _ _ |- _ => inversion H; clear H
             end;
      congruence.
Qed.

Lemma supplied_val_batch_size_kept_witness :
  default_val_batch_size (finetune_args None (Some 0))
  = finetune_args None (Some 0) /\
  Forall (fun ev =>
            forall dg bs kw,
              In (TestSequence dg bs kw) (event_sequences ev) -> bs = Some 0)
         (snd (run sample_world (finetune_args None (Some 0)))).
Proof.
  apply (supplied_val_batch_size_kept sample_world
           (finetune_args None (Some 0)) 0).
  reflexivity.
Defined.

(** X18.  The output of the built network is L2-normalised
    by a [Lambda] layer named ['l2norm'] only for the loss ['inv_corr'], and
    passed through a softmax activation named ['softmax'] only for
    ['softmax_corr']; these are the only [Lambda] layers and named
    activations a run makes.  For every other loss a run that builds its
    model without a classifier trains the built network as it is. *)
Theorem embedding_normalisation (W : World) (parsed : Args) :
  Forall (fun ev =>
            (forall dev fn name x, ev = EvCallLayer dev (Lambda fn name) x ->
               loss parsed = "inv_corr" /\ fn = l2norm /\ name = "l2norm" /\
               exists dim,
                 x = OutputOf (BuiltNetwork dim (architecture parsed))) /\
            (forall dev fn name x,
               ev = EvCallLayer dev (Activation fn (Some name)) x ->
               loss parsed = "softmax_corr" /\ fn = "softmax" /\
               name = "softmax" /\
               exists dim,
                 x = OutputOf (BuiltNetwork dim (architecture parsed))) /\
            (forall pm, trained_model ev = Some pm ->
               snapshot_to_resume W parsed = None ->
               loss parsed <> "inv_corr" -> loss parsed <> "softmax_corr" ->
               float_positive (cls_weight parsed) = false ->
               exists e dim,
                 loaded W parsed e /\ shape1 (fst e) = Normal dim /\
                 base_of pm = BuiltNetwork dim (architecture parsed)))
         (snd (run W parsed)).
Proof.
  assert (Hnorm : forall args dim l x,
            fst (embedding_model (loss args)
                   (BuiltNetwork dim (architecture args)))
            = KerasModel (BuiltNetwork dim (architecture args)) [Call l x] ->
            x = OutputOf (BuiltNetwork dim (architecture args)) /\
            ((loss args = "inv_corr" /\ l = Lambda l2norm "l2norm") \/
             (loss args = "softmax_corr" /\
              l = Activation "softmax" (Some "softmax")))).
  { intros args dim l x. unfold embedding_model.
    destruct (String.eqb_spec (loss args) "inv_corr") as [Hinv|Hinv].
    - intros H. inversion H; subst. auto.
    - destruct (String.eqb_spec (loss args) "softmax_corr") as [Hs|Hs].
      + intros H. inversion H; subst. auto.
      + discriminate. }
  apply List.Forall_forall. intros ev Hin.
  split; [|split].
  - intros dev fn name x ->. run_cases W parsed Hin.
    + match goal with H : fst (embedding_model _ _) = _ |- _ =>
        apply Hnorm in H; destruct H as [-> [[Hl Heq] | [Hl Heq]]] end;
        inversion Heq; subst.
      rewrite default_val_batch_size_loss in Hl.
      rewrite default_val_batch_size_architecture. eauto.
    + match goal with H : In _ (classifier_calls _ _) |- _ =>
        simpl in H; destruct H as [H | [H | [H | []]]]; discriminate H end.
  - intros dev fn name x ->. run_cases W parsed Hin.
    + match goal with H : fst (embedding_model _ _) = _ |- _ =>
        apply Hnorm in H; destruct H as [-> [[Hl Heq] | [Hl Heq]]] end;
        inversion Heq; subst.
      rewrite default_val_batch_size_loss in Hl.
      rewrite default_val_batch_size_architecture. eauto.
    + match goal with H : In _ (classifier_calls _ _) |- _ =>
        simpl in H; destruct H as [H | [H | [H | []]]]; discriminate H end.
  - intros pm Hpm Hsnap Hinv Hsoft Hcw.
    destruct (run_trained_model W parsed ev pm Hin Hpm)
      as (e & ms & He & [Hb Hpar] & _ & ->).
    rewrite built_default in Hb. rewrite replica_of_default in Hpar.
    pose proof (base_of_replica_of _ _ _ _ _ Hb) as Hbase.
    cbn [fst snd] in Hbase. rewrite <- Hpar in Hbase.
    unfold built in Hb. rewrite Hsnap, Hcw in Hb.
    destruct Hb as (dim & Hdim & _ & _ & Hm). cbn [fst snd] in Hm.
    exists e, dim. split; [exact He|]. split; [exact Hdim|].
    rewrite Hbase, Hm. unfold embedding_model.
    destruct (String.eqb_spec (loss parsed) "inv_corr"); [contradiction|].
    destruct (String.eqb_spec (loss parsed) "softmax_corr"); [contradiction|].
    reflexivity.
Qed.

(** X19.  An option that is given as the empty string counts as not
    given: a run loads no snapshot and no weights from, removes no
    directory at, and writes no weights, model or features to an empty
    path. *)
Theorem guarded_paths_not_empty (W : World) (parsed : Args) :
  Forall (fun ev => forall p, guarded_path ev = Some p -> p <> "")
         (snd (run W parsed)).
Proof.
  assert (Hset : forall s p, if_set s = Some p -> p <> "").
  { intros s p H. apply if_set_Some in H. exact (proj2 H). }
  apply List.Forall_forall. intros ev Hin p Hp.
  run_cases W parsed Hin; simpl in Hp; try discriminate;
    inversion Hp; subst;
    try (eapply Hset; eassumption).
  match goal with H : snapshot_to_resume _ _ = Some _ |- _ =>
    unfold snapshot_to_resume in H;
    destruct (if_set (snapshot (default_val_batch_size parsed))) as [q|] eqn:Hq;
      [|discriminate H];
    destruct (path_exists W q); inversion H; subst end.
  eapply Hset. exact Hq.
Qed.

(** ** What a run that completes has done *)

Section Completed.

Variable W : World.

Lemma some_first {A B} dev (m : M A) (k : A -> M B) (P : Event -> Prop) :
  returns_with dev m (fun _ l => Exists P l) ->
  returns_with dev (bind m k) (fun _ l => Exists P l).
Proof.
  intros Hm. eapply returns_with_bind; [exact Hm|].
  intros a l1 Hl1. apply returns_with_any. intros b l2.
  apply Exists_app. left. exact Hl1.
Qed.

Lemma some_later {A B} dev (m : M A) (k : A -> M B) (P : Event -> Prop) :
  (forall a, returns_with dev (k a) (fun _ l => Exists P l)) ->
  returns_with dev (bind m k) (fun _ l => Exists P l).
Proof.
  intros Hk.
  apply (returns_with_bind dev m k (fun _ _ => True));
    [apply returns_with_any; intros; exact I|].
  intros a l1 _. eapply returns_with_weaken; [apply Hk|].
  intros b l2 Hl2. apply Exists_app. right. exact Hl2.
Qed.

Lemma some_call dev (ev : Event) (P : Event -> Prop) :
  P ev -> returns_with dev (call W ev) (fun _ l => Exists P l).
Proof. intros Hev. apply returns_with_call. apply Exists_cons_hd, Hev. Qed.

Lemma some_attempt dev (catches : exn -> bool) (ev : Event)
    (handler : exn -> M unit) (P : Event -> Prop) :
  P ev ->
  returns_with dev (try_except catches (call W ev) handler)
    (fun _ l => Exists P l).
Proof.
  intros Hev h a _. unfold try_except, call.
  destruct (raises W h ev) as [e|]; cbn [snd];
    [|apply Exists_cons_hd, Hev].
  destruct (catches e); [|apply Exists_cons_hd, Hev].
  destruct (handler e dev (h ++ [ev])). apply Exists_cons_hd, Hev.
Qed.

Lemma some_in_block {A} dev path mode (body : M A) (P : Event -> Prop) :
  P (EvClose path) \/ returns_with dev body (fun _ l => Exists P l) ->
  returns_with dev (with_open W path mode body) (fun _ l => Exists P l).
Proof.
  intros HP. unfold with_open. apply some_later. intros _ h a Ha.
  destruct (body dev h) as [r l] eqn:Hb. cbn [fst snd] in *.
  apply Exists_app. destruct HP as [Hclose | Hbody].
  - right. apply Exists_cons_hd, Hclose.
  - left. specialize (Hbody h a). rewrite Hb in Hbody. exact (Hbody Ha).
Qed.

Lemma run_training_completed (args : Args) (emb : PyVal) (dg : DataGenerator)
    (ms : Models) dev (P : Event -> Prop) :
  (forall pm a, fit_callbacks a <> None -> P (EvFitGenerator pm a)) \/
  (forall pm s, P (EvEvaluateGenerator pm s)) \/
  (exists p, if_set (weight_dump args) = Some p /\
             forall m, P (EvSaveWeights m p)) \/
  (exists p, if_set (model_dump args) = Some p /\ forall m, P (EvSave m p)) \/
  (exists p, if_set (feature_dump args) = Some p /\
             ((forall b, P (EvPickleDump p b)) \/ P (EvClose p))) ->
  returns_with dev (run_training W args emb dg ms) (fun _ l => Exists P l).
Proof.
  intros HP. unfold run_training. cbv zeta.
  apply some_later. intros _. apply some_later. intros _.
  apply some_later. intros sched.
  destruct HP as [HP | HP].
  { apply some_first. unfold train, compile_model.
    apply some_later. intros decay. apply some_later. intros _.
    apply some_call. apply HP. discriminate. }
  apply some_later. intros _.
  destruct HP as [HP | HP].
  { apply some_first. unfold evaluate. apply some_first.
    apply some_call. apply HP. }
  apply some_later. intros _.
  unfold dump_artifacts, dump_weights, dump_model, dump_features.
  destruct HP as [(p & Hp & HP) | HP].
  { apply some_first. rewrite Hp. apply some_attempt. apply HP. }
  apply some_later. intros _.
  destruct HP as [(p & Hp & HP) | (p & Hp & HP)].
  { apply some_first. rewrite Hp. apply some_attempt. apply HP. }
  apply some_later. intros _. rewrite Hp.
  apply some_later. intros _. apply some_in_block.
  destruct HP as [HP | HP]; [right | left; exact HP].
  apply some_call. apply HP.
Qed.

Lemma main_completed (parsed : Args) (P : Event -> Prop) :
  (forall pm a, fit_callbacks a <> None -> P (EvFitGenerator pm a)) \/
  (forall pm s, P (EvEvaluateGenerator pm s)) \/
  (exists p, if_set (weight_dump parsed) = Some p /\
             forall m, P (EvSaveWeights m p)) \/
  (exists p, if_set (model_dump parsed) = Some p /\ forall m, P (EvSave m p)) \/
  (exists p, if_set (feature_dump parsed) = Some p /\
             ((forall b, P (EvPickleDump p b)) \/ P (EvClose p))) ->
  fst (run W parsed) = Normal tt ->
  Exists P (snd (run W parsed)).
Proof.
  intros HP Hrun.
  assert (H : returns_with DefaultDevice (main W parsed)
                (fun _ l => Exists P l)).
  { unfold main. cbv zeta.
    apply some_later. intros _. apply some_later. intros e.
    apply some_later. intros dg. apply some_later. intros ms.
    apply run_training_completed.
    rewrite default_val_batch_size_weight_dump,
            default_val_batch_size_model_dump,
            default_val_batch_size_feature_dump.
    exact HP. }
  exact (H [] tt Hrun).
Qed.

End Completed.

(** X20.  A run that completes has fitted the model with the
    callbacks of the training and evaluated it, and has tried to write each
    dump that was asked for: the weights, the model, and the features, whose
    file it has closed. *)
Theorem completed_run (W : World) (parsed : Args) :
  fst (run W parsed) = Normal tt ->
  Exists (fun ev => exists pm a cbs,
            ev = EvFitGenerator pm a /\ fit_callbacks a = Some cbs)
         (snd (run W parsed)) /\
  Exists (fun ev => exists pm s, ev = EvEvaluateGenerator pm s)
         (snd (run W parsed)) /\
  (forall p, if_set (weight_dump parsed) = Some p ->
     Exists (fun ev => exists m, ev = EvSaveWeights m p) (snd (run W parsed))) /\
  (forall p, if_set (model_dump parsed) = Some p ->
     Exists (fun ev => exists m, ev = EvSave m p) (snd (run W parsed))) /\
  (forall p, if_set (feature_dump parsed) = Some p ->
     Exists (fun ev => exists b, ev = EvPickleDump p b) (snd (run W parsed)) /\
     Exists (fun ev => ev = EvClose p) (snd (run W parsed))).
Proof.
  intros Hrun.
  split; [|split; [|split; [|split]]].
  - apply (main_completed W parsed); [|exact Hrun]. left.
    intros pm a Ha. destruct (fit_callbacks a) as [cbs|] eqn:Hcbs;
      [|contradiction]. eauto.
  - apply (main_completed W parsed); [|exact Hrun]. right. left. eauto.
  - intros p Hp. apply (main_completed W parsed); [|exact Hrun].
    right. right. left. eauto.
  - intros p Hp. apply (main_completed W parsed); [|exact Hrun].
    right. right. right. left. eauto.
  - intros p Hp. split; (apply (main_completed W parsed); [|exact Hrun]);
      right; right; right; right; exists p; (split; [exact Hp|]);
      [left; eauto | right; reflexivity].
Qed.

Lemma completed_run_witness :
  Exists (fun ev => exists pm a cbs,
            ev = EvFitGenerator pm a /\ fit_callbacks a = Some cbs)
         (snd (run failing_world dump_args)) /\
  Exists (fun ev => exists pm s, ev = EvEvaluateGenerator pm s)
         (snd (run failing_world dump_args)) /\
  (forall p, if_set (weight_dump dump_args) = Some p ->
     Exists (fun ev => exists m, ev = EvSaveWeights m p)
            (snd (run failing_world dump_args))) /\
  (forall p, if_set (model_dump dump_args) = Some p ->
     Exists (fun ev => exists m, ev = EvSave m p)
            (snd (run failing_world dump_args))) /\
  (forall p, if_set (feature_dump dump_args) = Some p ->
     Exists (fun ev => exists b, ev = EvPickleDump p b)
            (snd (run failing_world dump_args)) /\
     Exists (fun ev => ev = EvClose p) (snd (run failing_world dump_args))).
Proof.
  apply (completed_run failing_world dump_args).
  vm_compute. reflexivity.
Defined.

(** ** The pre-training leaves no layer frozen *)

Lemma split_before_suffix {A} (X Y l1 l2 : list A) (x : A) :
  X ++ Y = l1 ++ x :: l2 -> ~ In x Y -> In x X /\ exists Z, l2 = Z ++ Y.
Proof.
  revert l1. induction X as [|a X IH]; intros l1 Heq Hx.
  - exfalso. apply Hx. simpl in Heq. rewrite Heq.
    apply in_or_app. right. left. reflexivity.
  - destruct l1 as [|b l1]; simpl in Heq; inversion Heq; subst.
    + split; [left; reflexivity | exists X; reflexivity].
    + destruct (IH l1 H1 Hx) as [Hin HZ]. split; [right; exact Hin | exact HZ].
Qed.

Lemma unfrozen_again_plain (l : list Event) :
  Forall plain_call l -> unfrozen_again l.
Proof.
  intros Hl l1 m k l2 Heq. exfalso. subst l.
  rewrite List.Forall_forall in Hl.
  destruct (Hl (EvSetTrainable m k false)) as [_ H].
  - apply in_or_app. right. left. reflexivity.
  - exact (H m k eq_refl).
Qed.

Lemma unfrozen_again_app (l l' : list Event) :
  unfrozen_again l -> unfrozen_again l' -> unfrozen_again (l ++ l').
Proof.
  intros Hl Hl' l1 m k l2 Heq.
  apply app_eq_app in Heq.
  destruct Heq as [Z [[-> Heq] | [-> Heq]]].
  - destruct Z as [|z Z]; simpl in Heq.
    + exact (Hl' [] m k l2 (eq_sym Heq)).
    + inversion Heq; subst. apply in_or_app. left.
      exact (Hl l1 m k Z eq_refl).
  - exact (Hl' Z m k l2 Heq).
Qed.

(** Layers frozen in [F] and made trainable in [U], with calls around them
    that freeze nothing. *)
Lemma unfrozen_again_loops (A F B U C : list Event) :
  let thaws := fun ev : Event => forall m k, ev <> EvSetTrainable m k false in
  Forall thaws A -> Forall thaws B -> Forall thaws U -> Forall thaws C ->
  (forall m k, In (EvSetTrainable m k false) F ->
               In (EvSetTrainable m k true) U) ->
  unfrozen_again (A ++ F ++ B ++ U ++ C).
Proof.
  intros thaws HA HB HU HC HF l1 m k l2 Heq.
  assert (Hplain : forall l, Forall thaws l ->
                             ~ In (EvSetTrainable m k false) l).
  { intros l Hl Hin. rewrite List.Forall_forall in Hl.
    exact (Hl _ Hin m k eq_refl). }
  replace (A ++ F ++ B ++ U ++ C) with ((A ++ F ++ B) ++ (U ++ C)) in Heq
    by (rewrite <- !app_assoc; reflexivity).
  destruct (split_before_suffix _ _ _ _ _ Heq) as [Hin [Z ->]].
  { intros Hin. apply in_app_or in Hin.
    destruct Hin as [Hin | Hin]; [exact (Hplain U HU Hin) | exact (Hplain C HC Hin)]. }
  apply in_app_or in Hin. destruct Hin as [Hin | Hin];
    [exfalso; exact (Hplain A HA Hin)|].
  apply in_app_or in Hin. destruct Hin as [Hin | Hin];
    [|exfalso; exact (Hplain B HB Hin)].
  apply in_or_app. right. apply in_or_app. left. exact (HF m k Hin).
Qed.

Lemma for_each_note_run {A} (l : list A) (F : A -> Event) dev h :
  for_each l (fun x => note (F x)) dev h = (Normal tt, map F l).
Proof.
  revert h. induction l as [|x l IH]; intros h; simpl; [reflexivity|].
  unfold bind at 1. cbn [note]. rewrite IH. reflexivity.
Qed.

(** The loop over the layers assigns to each layer once, in order, and
    does not fail. *)
Lemma set_trainable_run (W : World) (m : Model) (f : string -> bool) dev h :
  set_trainable W m f dev h =
  (Normal tt,
   map (fun x => EvSetTrainable m (fst x) (f (snd x)))
       (imap pair (layer_names W m))).
Proof. unfold set_trainable. apply for_each_note_run. Qed.

Lemma set_trainable_all (W : World) (m : Model) (f : string -> bool)
    (m' : Model) (k : nat) (b : bool) :
  In (EvSetTrainable m' k b)
     (map (fun x => EvSetTrainable m (fst x) (f (snd x)))
          (imap pair (layer_names W m))) <->
  m' = m /\ exists name, layer_names W m !! k = Some name /\ b = f name.
Proof.
  rewrite in_map_iff. split.
  - intros ([k' name] & Heq & Hin). cbn [fst snd] in Heq.
    inversion Heq; subst. split; [reflexivity|].
    apply list_elem_of_In, elem_of_lookup_imap_1 in Hin.
    destruct Hin as (i & y & Hpair & Hi). inversion Hpair; subst.
    exists y. split; [exact Hi | reflexivity].
  - intros [-> (name & Hk & ->)]. exists (k, name).
    split; [reflexivity|].
    apply list_elem_of_In. apply (elem_of_lookup_imap_2 pair). exact Hk.
Qed.

Section Unfrozen.

Variable W : World.

Lemma bind_note {B} (ev : Event) (k : unit -> M B) dev h :
  bind (note ev) k dev h =
  (fst (k tt dev (h ++ [ev])), ev :: snd (k tt dev (h ++ [ev]))).
Proof. unfold bind, note. destruct (k tt dev (h ++ [ev])). reflexivity. Qed.

Lemma bind_call {B} (ev : Event) (k : unit -> M B) dev h :
  bind (call W ev) k dev h =
  match raises W h ev with
  | Some e => (Raise e, [ev])
  | None => (fst (k tt dev (h ++ [ev])), ev :: snd (k tt dev (h ++ [ev])))
  end.
Proof.
  unfold bind, call. destruct (raises W h ev); [reflexivity|].
  destruct (k tt dev (h ++ [ev])). reflexivity.
Qed.

Lemma bind_lift {A B} (r : Res A) (k : A -> M B) dev h :
  bind (lift r) k dev h =
  match r with
  | Normal a => k a dev (h ++ [])
  | Raise e => (Raise e, [])
  end.
Proof.
  unfold bind, lift. destruct r as [a|e]; [|reflexivity].
  destruct (k a dev (h ++ [])). reflexivity.
Qed.

Lemma bind_set_trainable {B} (m : Model) (f : string -> bool)
    (k : unit -> M B) dev h :
  bind (set_trainable W m f) k dev h =
  (fst (k tt dev (h ++ map (fun x => EvSetTrainable m (fst x) (f (snd x)))
                           (imap pair (layer_names W m)))),
   map (fun x => EvSetTrainable m (fst x) (f (snd x)))
       (imap pair (layer_names W m))
   ++ snd (k tt dev (h ++ map (fun x => EvSetTrainable m (fst x) (f (snd x)))
                              (imap pair (layer_names W m))))).
Proof.
  unfold bind. rewrite set_trainable_run.
  destruct (k tt dev _). reflexivity.
Qed.

Lemma returns_unfrozen_bind {A B} dev (m : M A) (k : A -> M B) :
  returns_with dev m (fun _ l => unfrozen_again l) ->
  (forall a, returns_with dev (k a) (fun _ l => unfrozen_again l)) ->
  returns_with dev (bind m k) (fun _ l => unfrozen_again l).
Proof.
  intros Hm Hk. eapply returns_with_bind; [exact Hm|].
  intros a l1 Hl1. eapply returns_with_weaken; [apply Hk|].
  intros b l2 Hl2. apply unfrozen_again_app; assumption.
Qed.

Lemma returns_unfrozen_plain {A} dev (m : M A) (R : A -> Prop) :
  spec dev m plain_call R ->
  returns_with dev m (fun _ l => unfrozen_again l).
Proof.
  intros Hm h a _. apply unfrozen_again_plain. exact (proj1 (Hm h)).
Qed.

(** When the pre-training returns, the loop of lines 182-183 has made
    every layer trainable that the loop of lines 165-166 froze. *)
Lemma pretrain_unfrozen (args : Args) (dg : DataGenerator) (ms : Models)
    (kw : TransformKwargs) (the_loss : Loss) (metric : Metric) dev :
  returns_with dev (pretrain W args dg ms kw the_loss metric)
    (fun _ l => unfrozen_again l).
Proof.
  intros h u. unfold pretrain.
  destruct (if_set (finetune args)) as [path|];
    [|intros _; apply unfrozen_again_plain; constructor].
  rewrite bind_note. cbn [fst snd].
  rewrite bind_call. destruct (raises W _ _); cbn [fst snd]; [discriminate|].
  destruct (0 <? finetune_init args).
  2:{ intros _. cbn [ret snd]. apply unfrozen_again_plain.
      repeat (apply List.Forall_cons; [split; [reflexivity | intros; discriminate]|]).
      apply List.Forall_nil. }
  rewrite bind_note. cbn [fst snd].
  rewrite bind_set_trainable. cbn [fst snd].
  rewrite bind_lift.
  destruct (embed_model ms) as [em|]; cbn [fst snd]; [|discriminate].
  rewrite bind_lift.
  destruct (layer_at W em (-1)) as [k|e]; cbn [fst snd]; [|discriminate].
  rewrite bind_note. cbn [fst snd]. unfold compile_model.
  rewrite bind_call. destruct (raises W _ _); cbn [fst snd]; [discriminate|].
  rewrite bind_call. destruct (raises W _ _); cbn [fst snd]; [discriminate|].
  rewrite bind_set_trainable. cbn [fst snd note]. intros _.
  apply (unfrozen_again_loops
           [EvPrint (MsgLoadingWeights path); EvLoadWeights (model ms) path;
            EvPrint MsgPretraining]
           (map (fun x => EvSetTrainable (model ms) (fst x)
                            (String.eqb (snd x) "embedding"
                             || String.eqb (snd x) "prob"))
                (imap pair (layer_names W (model ms))))
           [EvSetTrainable em k true;
            EvCompile (par_model ms) (optimizer args None)
              (compile_spec (cls_weight args) (embedding_layer_name ms)
                 the_loss metric);
            EvFitGenerator (par_model ms) (pretrain_fit_args args dg kw)]
           (map (fun x => EvSetTrainable (model ms) (fst x) true)
                (imap pair (layer_names W (model ms))))
           [EvPrint MsgFullTraining]).
  - repeat (apply List.Forall_cons; [intros; discriminate|]).
    apply List.Forall_nil.
  - repeat (apply List.Forall_cons; [intros; discriminate|]).
    apply List.Forall_nil.
  - apply List.Forall_forall. intros ev Hin. apply in_map_iff in Hin.
    destruct Hin as (x & <- & _). intros; discriminate.
  - repeat (apply List.Forall_cons; [intros; discriminate|]).
    apply List.Forall_nil.
  - intros m k' Hin.
    apply (set_trainable_all W (model ms)
             (fun n => String.eqb n "embedding" || String.eqb n "prob")) in Hin.
    destruct Hin as [-> (name & Hk & _)].
    apply (set_trainable_all W (model ms) (fun _ => true)).
    split; [reflexivity|]. exists name. auto.
Qed.

Lemma run_training_unfrozen (args : Args) (emb : PyVal) (dg : DataGenerator)
    (ms : Models) dev :
  returns_with dev (run_training W args emb dg ms)
    (fun _ l => unfrozen_again l).
Proof.
  unfold run_training. cbv zeta.
  apply returns_unfrozen_bind.
  { apply (returns_unfrozen_plain dev _ (fun _ => True)).
    destruct (no_progress args); [apply spec_ret; exact I|].
    apply spec_emit. split; [reflexivity | intros; discriminate]. }
  intros _. apply returns_unfrozen_bind; [apply pretrain_unfrozen|].
  intros _. apply returns_unfrozen_bind.
  { apply (returns_unfrozen_plain dev _ (fun _ => True)).
    apply configure_callbacks_plain. }
  intros sched. apply returns_unfrozen_bind.
  { apply (returns_unfrozen_plain dev _ (fun _ => True)). apply train_plain. }
  intros _. apply returns_unfrozen_bind.
  { apply (returns_unfrozen_plain dev _ (fun _ => True)).
    apply evaluate_plain. }
  intros _. apply (returns_unfrozen_plain dev _ (fun _ => True)).
  apply dump_artifacts_plain.
Qed.

Lemma main_unfrozen (parsed : Args) :
  returns_with DefaultDevice (main W parsed) (fun _ l => unfrozen_again l).
Proof.
  unfold main. cbv zeta.
  apply returns_unfrozen_bind.
  { apply (returns_unfrozen_plain _ _ (fun _ => True)).
    apply spec_emit. split; [reflexivity | intros; discriminate]. }
  intros _. apply returns_unfrozen_bind.
  { apply (returns_unfrozen_plain _ _ (fun _ => True)).
    eapply spec_weaken;
      [apply load_class_embeddings_spec | | intros; exact I].
    intros ev Hev. inversion Hev;
      (split; [reflexivity | intros; discriminate]). }
  intros e. apply returns_unfrozen_bind.
  { apply (returns_unfrozen_plain _ _ (fun _ => True)).
    unfold load_dataset. apply spec_seq; [|apply spec_ret; exact I].
    apply spec_emit. split; [reflexivity | intros; discriminate]. }
  intros dg. apply returns_unfrozen_bind; [|intros ms; apply run_training_unfrozen].
  apply (returns_unfrozen_plain _ _ (fun _ => True)).
  eapply spec_weaken; [apply assemble_models_spec | | intros; exact I].
  intros ev Hev. inversion Hev as [ev' Hb | b Hb Hg]; subst;
    [|split; [reflexivity | intros; discriminate]].
  inversion Hb as [| | | | | | ? ev' ? ? ? Hc]; subst;
    try (split; [reflexivity | intros; discriminate]).
  inversion Hc; subst; (split; [reflexivity | intros; discriminate]).
Qed.

End Unfrozen.

(** X21.  A run that completes leaves no layer frozen: whenever a
    layer was made untrainable (by the pre-training), the same layer of the
    same model is made trainable again later in the run. *)
Theorem frozen_layers_unfrozen (W : World) (parsed : Args) :
  fst (run W parsed) = Normal tt ->
  unfrozen_again (snd (run W parsed)) /\
  Forall (fun ev => forall m k, ev = EvSetTrainable m k false ->
            In (EvSetTrainable m k true) (snd (run W parsed)))
         (snd (run W parsed)).
Proof.
  intros Hrun.
  pose proof (main_unfrozen W parsed [] tt Hrun) as H.
  fold (run W parsed) in H. split; [exact H|].
  apply List.Forall_forall. intros ev Hin m k ->.
  apply in_split in Hin. destruct Hin as (l1 & l2 & Heq).
  rewrite Heq. apply in_or_app. right. right. exact (H l1 m k l2 Heq).
Qed.

Lemma frozen_layers_unfrozen_witness :
  unfrozen_again (snd (run sample_world (finetune_args None None))) /\
  Forall (fun ev => forall m k, ev = EvSetTrainable m k false ->
            In (EvSetTrainable m k true)
               (snd (run sample_world (finetune_args None None))))
         (snd (run sample_world (finetune_args None None))).
Proof.
  apply (frozen_layers_unfrozen sample_world (finetune_args None None)).
  vm_compute. reflexivity.
Defined.
